(** * Roxy: the admission and routing engine of the LLM proxy

    A shallow embedding of the Go sources
    - [internal/rotation/rotator.go]  (the credential pool),
    - the [cache] package             (the response cache),
    - [internal/proxy/server.go]      (routing policy and request orchestrator),
    - [internal/config/config.go]     (the configuration records, their
                                       loading and validation),
    together with the properties the specification states about them and
    further properties of the code.

    Conventions of the embedding.
    - A Go [int] is a [Z]; arithmetic that can overflow is wrapped with
      [wrap64] (two's complement, 64 bits).
    - A Go [string] is a [string] (a sequence of bytes); a [[]byte] is a
      [list byte].
    - A [time.Time] is a [Z]: nanoseconds since the zero value [time.Time{}];
      a [time.Duration] is a [Z] number of nanoseconds.
    - A pointer [*ApiKey] into [KeyRotator.keys] is the index of the slot.
    - Go maps are [gmap]s.
    - Everything the process reads from outside (the clock, the random
      generator, the JSON decoder, the upstream servers) is a field of [Env];
      the mutable process state is the record [World]. *)

From Stdlib Require Import ZArith String Ascii List Bool Lia.
From Stdlib.Strings Require Import Byte.
From stdpp Require Import base option list gmap strings pretty.

Local Open Scope Z_scope.

(** ** Machine integers *)

Definition min_int : Z := - 2 ^ 63.
Definition max_int : Z := 2 ^ 63 - 1.

(** Two's complement wrap-around of a 64-bit [int]. *)
Definition wrap64 (z : Z) : Z := (z + 2 ^ 63) mod 2 ^ 64 - 2 ^ 63.

(** ** package time *)

Definition time_Time := Z.
Definition time_Duration := Z.

Definition time_Second : time_Duration := 1000000000.
Definition time_Minute : time_Duration := 60 * time_Second.

(** [t.Sub(u)]: the difference, saturated to the range of a [Duration]. *)
Definition time_Sub (t u : time_Time) : time_Duration :=
  Z.max min_int (Z.min max_int (t - u)).

(** [t.After(u)] *)
Definition time_After (t u : time_Time) : bool := u <? t.

(** [t.Add(d)] *)
Definition time_Add (t : time_Time) (d : time_Duration) : time_Time := t + d.

(** The zero value [time.Time{}]. *)
Definition time_zero : time_Time := 0.

(** ** package config *)

Record APIKeyConfig := mkAPIKeyConfig {
  Key : string;
  KeyEnvVar : string;
  Provider : string;
  MaxRPM : Z;
  MaxTPM : Z;
  CooldownSec : Z
}.

Record ModelRule := mkModelRule {
  SourceModel : string;
  TargetModels : list string;
  SelectionPolicy : string
}.

Record ProviderConfig := mkProviderConfig {
  OpenAI_BaseURL : string;
  Anthropic_BaseURL : string;
  OpenRouter_BaseURL : string;
  Chutes_BaseURL : string
}.

Record Config := mkConfig {
  ListenAddr : string;
  APIKeys : list APIKeyConfig;
  ModelRules : list ModelRule;
  Providers : ProviderConfig
}.

(** ** package rotation *)

Module Rotation.

Record ApiKey := mkApiKey {
  Config : APIKeyConfig;
  usageCount : Z;
  lastUsed : time_Time
}.

(** [KeyRotator.keys]; the mutex and the never-used [lastUsed] map carry no
    data. *)
Abbreviation KeyRotator := (list ApiKey).

Definition NewKeyRotator (configs : list APIKeyConfig) : KeyRotator :=
  map (fun cfg => mkApiKey cfg 0 time_zero) configs.

(** The two statements of the loop body of [GetKey] that act on one key:
    [if now.Sub(key.lastUsed) >= time.Minute { key.usageCount = 0 }]. *)
Definition refresh (now : time_Time) (key : ApiKey) : ApiKey :=
  if time_Minute <=? time_Sub now (lastUsed key)
  then mkApiKey (Config key) 0 (lastUsed key)
  else key.

(** [GetKey], with [now] the value [time.Now()] returned.  The result is the
    pool after the scan and the slot of the key returned, [None] for the
    error [no available keys for provider]. *)
Fixpoint GetKey (now : time_Time) (provider : string) (keys : KeyRotator)
  : KeyRotator * option nat :=
  match keys with
  | [] => ([], None)
  | key :: rest =>
      if negb (String.eqb (Provider (Config key)) provider) then
        let '(rest', r) := GetKey now provider rest in (key :: rest', S <$> r)
      else
        let key' := refresh now key in
        if usageCount key' <? MaxRPM (Config key') then (key' :: rest, Some 0%nat)
        else
          let '(rest', r) := GetKey now provider rest in (key' :: rest', S <$> r)
  end.

(** The body of [ReportUsage] on one key. *)
Definition charge (now : time_Time) (key : ApiKey) : ApiKey :=
  mkApiKey (Config key) (wrap64 (usageCount key + 1)) now.

(** [ReportUsage(key, tokens)]: [key] is a pointer handed out by [GetKey], so
    the slot exists; [tokens] is ignored by the source. *)
Definition ReportUsage (now : time_Time) (key : nat) (keys : KeyRotator) : KeyRotator :=
  alter (charge now) key keys.

(** *** Sequences of pool operations *)

Inductive PoolOp :=
| OpGetKey (now : time_Time) (provider : string)
| OpReportUsage (now : time_Time) (key : nat).

Definition pool_step (keys : KeyRotator) (op : PoolOp) : KeyRotator :=
  match op with
  | OpGetKey now provider => fst (GetKey now provider keys)
  | OpReportUsage now key => ReportUsage now key keys
  end.

Definition pool_run (keys : KeyRotator) (ops : list PoolOp) : KeyRotator :=
  fold_left pool_step ops keys.

(** The budget of a key, as a boolean and as a proposition. *)
Definition has_budget (key : ApiKey) : bool :=
  usageCount key <? MaxRPM (Config key).

Definition within_budget (key : ApiKey) : Prop :=
  0 <= usageCount key <= MaxRPM (Config key).

(** A run in which every [ReportUsage] charges a key that, at that moment,
    still has budget. *)
Fixpoint charges_with_budget (keys : KeyRotator) (ops : list PoolOp) : bool :=
  match ops with
  | [] => true
  | op :: rest =>
      match op with
      | OpGetKey _ _ => true
      | OpReportUsage _ key =>
          match keys !! key with
          | Some k => has_budget k
          | None => false
          end
      end && charges_with_budget (pool_step keys op) rest
  end.

(** The results of the [GetKey] operations of a run, in order. *)
Fixpoint pool_grants (keys : KeyRotator) (ops : list PoolOp) : list (option nat) :=
  match ops with
  | [] => []
  | op :: rest =>
      match op with
      | OpGetKey now provider => [snd (GetKey now provider keys)]
      | OpReportUsage _ _ => []
      end ++ pool_grants (pool_step keys op) rest
  end.

(** A key is [sound] when its counter is within the budget and the budget is
    a value of type [int]. *)
Definition sound (key : ApiKey) : Prop :=
  within_budget key /\ MaxRPM (Config key) <= max_int.

(** The keys [GetKey] may hand out at [now]: the right provider, and budget
    left once the counter has been refreshed. *)
Definition eligible (now : time_Time) (provider : string) (key : ApiKey) : bool :=
  String.eqb (Provider (Config key)) provider && has_budget (refresh now key).

End Rotation.

(** ** The credential pool as the specification words it

    Follows the words of the specification (data model and contract of the
    credential pool), for comparison with [Rotation.GetKey] and
    [Rotation.ReportUsage]: a credential carries a [windowStart], the
    timestamp at which the current counting window began; [acquire] resets
    [usageCount] and advances [windowStart] to now once a window length has
    passed since [windowStart]; [release] increments [usageCount] and stamps
    [lastUsed]. *)

Module SpecPool.

Record Credential := mkCredential {
  provider : string;
  maxRequestsPerMinute : Z;
  usageCount : Z;
  windowStart : time_Time;
  lastUsed : time_Time
}.

Definition windowLength : time_Duration := time_Minute.

Definition create (cfg : APIKeyConfig) : Credential :=
  mkCredential (Provider cfg) (MaxRPM cfg) 0 time_zero time_zero.

Definition roll (now : time_Time) (c : Credential) : Credential :=
  if windowStart c + windowLength <=? now
  then mkCredential (provider c) (maxRequestsPerMinute c) 0 now (lastUsed c)
  else c.

Fixpoint acquire (now : time_Time) (prov : string) (pool : list Credential)
  : list Credential * option nat :=
  match pool with
  | [] => ([], None)
  | c :: rest =>
      if negb (String.eqb (provider c) prov) then
        let '(rest', r) := acquire now prov rest in (c :: rest', S <$> r)
      else
        let c' := roll now c in
        if usageCount c' <? maxRequestsPerMinute c' then (c' :: rest, Some 0%nat)
        else let '(rest', r) := acquire now prov rest in (c' :: rest', S <$> r)
  end.

Definition release (now : time_Time) (i : nat) (pool : list Credential) : list Credential :=
  alter (fun c => mkCredential (provider c) (maxRequestsPerMinute c)
                    (usageCount c + 1) (windowStart c) now) i pool.

Definition step (pool : list Credential) (op : Rotation.PoolOp) : list Credential :=
  match op with
  | Rotation.OpGetKey now prov => fst (acquire now prov pool)
  | Rotation.OpReportUsage now i => release now i pool
  end.

Definition run (pool : list Credential) (ops : list Rotation.PoolOp) : list Credential :=
  fold_left step ops pool.

End SpecPool.

(** ** package cache *)

Module Cache.

Record CacheEntry := mkCacheEntry {
  Data : list byte;
  ExpiresAt : time_Time
}.

Record Cache := mkCache {
  entries : gmap string CacheEntry;
  ttl : time_Duration
}.

Definition New (ttl : time_Duration) : Cache := mkCache ∅ ttl.

(** [Get], with [now] the value of [time.Now()]. *)
Definition Get (now : time_Time) (c : Cache) (key : string) : option (list byte) :=
  match entries c !! key with
  | None => None
  | Some entry =>
      if time_After now (ExpiresAt entry) then None else Some (Data entry)
  end.

(** [Set], with [now] the value of [time.Now()]. *)
Definition Set_ (now : time_Time) (c : Cache) (key : string) (data : list byte) : Cache :=
  mkCache (<[key := mkCacheEntry data (time_Add now (ttl c))]> (entries c)) (ttl c).

End Cache.

(** ** crypto/sha256 and the formatting verbs of package fmt *)

Module Sha256.

Definition w32 (x : Z) : Z := x mod 2 ^ 32.
Definition rotr (n x : Z) : Z := Z.lor (Z.shiftr x n) (w32 (Z.shiftl x (32 - n))).
Definition not32 (x : Z) : Z := 2 ^ 32 - 1 - x.
Definition xor3 (x y z : Z) : Z := Z.lxor (Z.lxor x y) z.

Definition Ch (x y z : Z) : Z := Z.lxor (Z.land x y) (Z.land (not32 x) z).
Definition Maj (x y z : Z) : Z := xor3 (Z.land x y) (Z.land x z) (Z.land y z).
Definition bsig0 (x : Z) : Z := xor3 (rotr 2 x) (rotr 13 x) (rotr 22 x).
Definition bsig1 (x : Z) : Z := xor3 (rotr 6 x) (rotr 11 x) (rotr 25 x).
Definition ssig0 (x : Z) : Z := xor3 (rotr 7 x) (rotr 18 x) (Z.shiftr x 3).
Definition ssig1 (x : Z) : Z := xor3 (rotr 17 x) (rotr 19 x) (Z.shiftr x 10).

(** The primes below [bound], by trial division. *)
Definition is_prime (n : Z) : bool :=
  (2 <=? n) && forallb (fun k => negb (n mod k =? 0) || (n <=? k))
                       (map Z.of_nat (seq 2 (Z.to_nat (Z.sqrt n)))).

Definition primes_below (bound : nat) : list Z :=
  filter (fun n => is_prime n = true) (map Z.of_nat (seq 0 bound)).

(** The integer cube root, one bit at a time from bit [bits - 1] down. *)
Fixpoint cbrt_bits (bits : nat) (n r : Z) : Z :=
  match bits with
  | O => r
  | S b =>
      let r' := r + 2 ^ Z.of_nat b in
      cbrt_bits b n (if r' * r' * r' <=? n then r' else r)
  end.

(** The round constants: the first 32 bits of the fractional parts of the
    cube roots of the first 64 primes. *)
Definition K : list Z :=
  Eval vm_compute in
    map (fun p => w32 (cbrt_bits 40 (p * 2 ^ 96) 0)) (primes_below 312).

(** The initial hash value: the first 32 bits of the fractional parts of the
    square roots of the first 8 primes. *)
Definition H0 : list Z :=
  Eval vm_compute in
    map (fun p => w32 (Z.sqrt (p * 2 ^ 64))) (primes_below 20).

(** Big-endian bytes of [x], [n] of them. *)
Fixpoint be_bytes (n : nat) (x : Z) : list Z :=
  match n with
  | O => []
  | S n' => Z.shiftr x (8 * Z.of_nat n') mod 256 :: be_bytes n' x
  end.

Definition be_word (bs : list Z) : Z :=
  fold_left (fun acc b => acc * 256 + b) bs 0.

(** The message followed by the bit 1, zeros, and its length in bits. *)
Definition pad (msg : list Z) : list Z :=
  let len := Z.of_nat (length msg) in
  let zeros := (55 - len) mod 64 in
  msg ++ [0x80] ++ repeat 0 (Z.to_nat zeros) ++ be_bytes 8 (8 * len).

Fixpoint words (n : nat) (bs : list Z) : list Z :=
  match n with
  | O => []
  | S n' => be_word (firstn 4 bs) :: words n' (skipn 4 bs)
  end.

(** The message schedule: [n] more words after the ones in [w]. *)
Fixpoint schedule (n : nat) (w : list Z) : list Z :=
  match n with
  | O => w
  | S n' =>
      let t := length w in
      let at_ (k : nat) := nth (t - k) w 0 in
      schedule n' (w ++ [w32 (ssig1 (at_ 2%nat) + at_ 7%nat + ssig0 (at_ 15%nat) + at_ 16%nat)])
  end.

Definition round (st : list Z) (kw : Z * Z) : list Z :=
  match st with
  | [a; b; c; d; e; f; g; h] =>
      let t1 := h + bsig1 e + Ch e f g + fst kw + snd kw in
      let t2 := bsig0 a + Maj a b c in
      [w32 (t1 + t2); a; b; c; w32 (d + t1); e; f; g]
  | _ => st
  end.

Definition compress (h : list Z) (block : list Z) : list Z :=
  let w := schedule 48 (words 16 block) in
  let st := fold_left round (combine K w) h in
  map (fun p => w32 (fst p + snd p)) (combine h st).

Fixpoint blocks (n : nat) (h : list Z) (bs : list Z) : list Z :=
  match n with
  | O => h
  | S n' => blocks n' (compress h (firstn 64 bs)) (skipn 64 bs)
  end.

Definition bytes_of_string (s : string) : list Z :=
  map (fun c => Z.of_N (N_of_ascii c)) (list_ascii_of_string s).

(** The 32 bytes of the digest of [msg]. *)
Definition Sum256 (msg : list Z) : list Z :=
  let p := pad msg in
  flat_map (be_bytes 4) (blocks (length p / 64) H0 p).

End Sha256.

Module Fmt.

Definition hex_digit (d : Z) : ascii :=
  nth (Z.to_nat d) (list_ascii_of_string "0123456789abcdef") "0"%char.

(** [fmt.Sprintf("%x", bs)] for a byte slice. *)
Fixpoint hex (bs : list Z) : string :=
  match bs with
  | [] => EmptyString
  | b :: rest => String (hex_digit (b / 16)) (String (hex_digit (b mod 16)) (hex rest))
  end.

(** [fmt.Sprintf("%d", n)] *)
Definition d (n : Z) : string := pretty n.

(** Nearest integer to [num / den], ties to even ([0 < den], [0 <= num]). *)
Definition round_half_even (num den : Z) : Z :=
  let q := num / den in
  let r := num mod den in
  if den <? 2 * r then q + 1
  else if (2 * r =? den) && Z.odd q then q + 1
  else q.

(** [fmt.Sprintf("%f", x)] for the float64 with IEEE-754 bits [bits]: the
    exact value rounded to six decimals, ties to even (strconv's decimal
    conversion). *)
Definition f (bits : Z) : string :=
  let sign := Z.testbit bits 63 in
  let e := Z.land (Z.shiftr bits 52) 0x7ff in
  let frac := Z.land bits (2 ^ 52 - 1) in
  if e =? 0x7ff then
    if frac =? 0 then (if sign then "-Inf" else "+Inf") else "NaN"
  else
    let m := if e =? 0 then frac else frac + 2 ^ 52 in
    let ex := if e =? 0 then -1074 else e - 1075 in
    let q := if 0 <=? ex then m * 2 ^ ex * 10 ^ 6
             else round_half_even (m * 10 ^ 6) (2 ^ (- ex)) in
    let frac6 := match pretty (10 ^ 6 + q mod 10 ^ 6) with
                 | String _ rest => rest
                 | EmptyString => EmptyString
                 end in
    ((if sign then "-" else EmptyString) ++ pretty (q / 10 ^ 6) ++ "." ++ frac6)%string.

End Fmt.

(** ** package proxy *)

Module Proxy.

Record ChatMessage := mkChatMessage {
  Role : string;
  Content : string
}.

(** [Temperature] is a [float64], kept as its IEEE-754 bit pattern
    ([math.Float64bits]); the code only decodes and prints it. *)
Record LLMRequest := mkLLMRequest {
  Model : string;
  Messages : list ChatMessage;
  Prompt : string;
  MaxTokens : Z;
  Temperature : Z
}.

Definition with_Model (model : string) (req : LLMRequest) : LLMRequest :=
  mkLLMRequest model (Messages req) (Prompt req) (MaxTokens req) (Temperature req).

(** *** [strings.HasPrefix] and [getProviderForModel] *)

Fixpoint HasPrefix (s prefix : string) : bool :=
  match prefix with
  | EmptyString => true
  | String c prefix' =>
      match s with
      | EmptyString => false
      | String c' s' => Ascii.eqb c' c && HasPrefix s' prefix'
      end
  end.

Definition getProviderForModel (model : string) : string :=
  if HasPrefix model "gpt-" then "openai"
  else if HasPrefix model "claude-" then "anthropic"
  else if HasPrefix model "openrouter/" then "openrouter"
  else if HasPrefix model "chutes/" then "chutes"
  else "openai".

(** *** [generateCacheKey] *)

(** The bytes written to the hash, in the order of the [hash.Write] calls. *)
Definition cacheKeyInput (req : LLMRequest) : string :=
  (Model req
   ++ String.concat EmptyString (map (fun msg => Role msg ++ Content msg) (Messages req))
   ++ Fmt.d (MaxTokens req)
   ++ Fmt.f (Temperature req))%string.

Definition generateCacheKey (req : LLMRequest) : string :=
  Fmt.hex (Sha256.Sum256 (Sha256.bytes_of_string (cacheKeyInput req))).

(** *** [http.Header] and [copyHeaders]

    Keys are taken in canonical form, as the server and the client of
    net/http deliver them. *)

Definition Header_Add (k v : string) (h : gmap string (list string)) : gmap string (list string) :=
  <[k := default [] (h !! k) ++ [v]]> h.

Definition Header_Set (k v : string) (h : gmap string (list string)) : gmap string (list string) :=
  <[k := [v]]> h.

Definition copyHeaders (dst src : gmap string (list string)) : gmap string (list string) :=
  map_fold (fun k vv d => fold_left (fun d' v => Header_Add k v d') vv d) dst src.

(** *** Requests, responses and what the handler writes *)

(** The inbound [*http.Request]; [Body] is the result of
    [io.ReadAll(r.Body)], [None] when reading fails. *)
Record Request := mkRequest {
  Method : string;
  Header : gmap string (list string);
  Body : option (list byte)
}.

(** The outbound request built by [http.NewRequest]; [pr_Body] is the value
    whose [json.Marshal] is the body sent. *)
Record ProxyReq := mkProxyReq {
  pr_Method : string;
  pr_URL : string;
  pr_Header : gmap string (list string);
  pr_Body : LLMRequest
}.

(** [resp.Body] of an upstream response.  It is [http.NoBody] for a response
    without content: reading it yields no bytes, closing it does nothing.
    Otherwise it is a stream; [read] is what reading the open stream to its
    end yields, [None] when that read fails. *)
Inductive ResponseBody :=
| NoBody
| Stream (read : option (list byte)).

(** An upstream [*http.Response]. *)
Record Response := mkResponse {
  StatusCode : Z;
  resp_Header : gmap string (list string);
  resp_Body : ResponseBody
}.

(** [io.ReadAll(resp.Body)]; [closed] tells whether [resp.Body.Close()] has
    been called before.  Reading a stream that has been closed fails;
    [http.NoBody] reads as empty before and after [Close]. *)
Definition ReadAll (resp : Response) (closed : bool) : option (list byte) :=
  match resp_Body resp with
  | NoBody => Some []
  | Stream read => if closed then None else read
  end.

(** The check of [w.WriteHeader(code)], which panics unless the code has
    three digits. *)
Definition checkWriteHeaderCode (code : Z) : bool := (100 <=? code) && (code <=? 999).

(** What [client.Do] returns: a response and no error, or an error.  The
    error comes with a nil response, or, when the redirect policy of the
    client stops the request, with the last response, whose body the client
    has closed. *)
Inductive DoResult :=
| Answered (resp : Response)
| Failed (last : option Response).

(** What the handler has written to its [http.ResponseWriter]. *)
Record Reply := mkReply {
  Code : Z;
  reply_Header : gmap string (list string);
  reply_Body : list byte
}.

Inductive Outcome :=
| Replied (reply : Reply)
| Panicked.

Definition StatusOK : Z := 200.
Definition StatusBadRequest : Z := 400.
Definition StatusTooManyRequests : Z := 429.
Definition StatusInternalServerError : Z := 500.
Definition StatusBadGateway : Z := 502.

Definition newline : string := String (ascii_of_N 10) EmptyString.

(** [http.Error(w, msg, code)] on a fresh writer. *)
Definition http_Error (msg : string) (code : Z) : Reply :=
  mkReply code
    (Header_Set "X-Content-Type-Options" "nosniff"
       (Header_Set "Content-Type" "text/plain; charset=utf-8" ∅))
    (list_byte_of_string (msg ++ newline)).

(** [json.Marshal(req)]: the encoder rejects a NaN or an infinite
    [Temperature] and nothing else of an [LLMRequest]. *)
Definition json_Marshal (req : LLMRequest) : option LLMRequest :=
  if Z.land (Z.shiftr (Temperature req) 52) 0x7ff =? 0x7ff then None else Some req.

(** *** The process state *)

Record Server := mkServer {
  cfg : Config;
  rotator : Rotation.KeyRotator;
  modelCounters : gmap string Z;
  cache : Cache.Cache
}.

(** What the process did with credentials and upstreams, oldest first:
    a key handed out by [GetKey], a key charged by [ReportUsage], a request
    passed to [client.Do] together with the key acquired for it. *)
Inductive Event :=
| EvAcquired (key : nat)
| EvReported (key : nat)
| EvSent (key : nat) (req : ProxyReq).

(** [ticks] counts the calls of [time.Now()], [draws] those of
    [rand.Intn]. *)
Record World := mkWorld {
  srv : Server;
  ticks : nat;
  draws : nat;
  log : list Event
}.

Definition NewServer (c : Config) : Server :=
  mkServer c (Rotation.NewKeyRotator (APIKeys c)) ∅ (Cache.New (5 * time_Minute)).

Definition boot (c : Config) : World := mkWorld (NewServer c) 0 0 [].

(** The environment of the process. *)
Record Env := mkEnv {
  (** the value of the [n]-th call of [time.Now()] *)
  clock : nat -> time_Time;
  (** the value of the [n]-th call of [rand.Intn], with its argument *)
  rand_Intn : nat -> Z -> Z;
  (** [json.Unmarshal(body, &req)], [None] for an error *)
  json_Unmarshal : list byte -> option LLMRequest;
  (** whether [http.NewRequest(method, url, _)] returns without error *)
  http_NewRequest : string -> string -> bool;
  (** [client.Do]: what a request gets, given the requests sent before
      it *)
  client_Do : list ProxyReq -> ProxyReq -> DoResult;
  (** the command interpreter behind the [#roxy] prefix *)
  handleCommand : list byte -> World -> World * Outcome
}.

Definition set_rotator (ks : Rotation.KeyRotator) (w : World) : World :=
  mkWorld (mkServer (cfg (srv w)) ks (modelCounters (srv w)) (cache (srv w)))
          (ticks w) (draws w) (log w).

Definition set_modelCounters (m : gmap string Z) (w : World) : World :=
  mkWorld (mkServer (cfg (srv w)) (rotator (srv w)) m (cache (srv w)))
          (ticks w) (draws w) (log w).

Definition set_cache (c : Cache.Cache) (w : World) : World :=
  mkWorld (mkServer (cfg (srv w)) (rotator (srv w)) (modelCounters (srv w)) c)
          (ticks w) (draws w) (log w).

Definition tick (w : World) : World := mkWorld (srv w) (S (ticks w)) (draws w) (log w).

Definition draw (w : World) : World := mkWorld (srv w) (ticks w) (S (draws w)) (log w).

Definition record (ev : Event) (w : World) : World :=
  mkWorld (srv w) (ticks w) (draws w) (log w ++ [ev]).

(** The requests passed to [client.Do] so far. *)
Definition sent (l : list Event) : list ProxyReq :=
  flat_map (fun ev => match ev with EvSent _ req => [req] | _ => [] end) l.

Definition reported (l : list Event) : list nat :=
  flat_map (fun ev => match ev with EvReported key => [key] | _ => [] end) l.

(** The keys the requests passed to [client.Do] were authenticated with. *)
Definition sent_keys (l : list Event) : list nat :=
  flat_map (fun ev => match ev with EvSent key _ => [key] | _ => [] end) l.

(** [w'] is a later state of the process than [w]: the clock has been read
    some more times, the log has grown, the configuration and the ttl of the
    cache are the same. *)
Definition evolves (w w' : World) : Prop :=
  (ticks w <= ticks w')%nat /\
  Cache.ttl (cache (srv w')) = Cache.ttl (cache (srv w)) /\
  cfg (srv w') = cfg (srv w) /\
  exists mid, log w' = log w ++ mid.

Section WithEnv.

Context (env : Env).

(** [s.rotator.GetKey(provider)] *)
Definition rotator_GetKey (provider : string) (w : World) : option nat * World :=
  let now := clock env (ticks w) in
  let '(ks, r) := Rotation.GetKey now provider (rotator (srv w)) in
  let w1 := set_rotator ks (tick w) in
  match r with
  | Some key => (Some key, record (EvAcquired key) w1)
  | None => (None, w1)
  end.

(** [s.rotator.ReportUsage(key, 0)] *)
Definition rotator_ReportUsage (key : nat) (w : World) : World :=
  let now := clock env (ticks w) in
  record (EvReported key) (set_rotator (Rotation.ReportUsage now key (rotator (srv w))) (tick w)).

(** [s.cache.Get(key)] *)
Definition cache_Get (key : string) (w : World) : option (list byte) * World :=
  (Cache.Get (clock env (ticks w)) (cache (srv w)) key, tick w).

(** [s.cache.Set(key, data)] *)
Definition cache_Set (key : string) (data : list byte) (w : World) : World :=
  set_cache (Cache.Set_ (clock env (ticks w)) (cache (srv w)) key data) (tick w).

(** [client.Do(proxyReq)], authenticated with the key in slot [key]. *)
Definition do_request (key : nat) (proxyReq : ProxyReq) (w : World) : DoResult * World :=
  (client_Do env (sent (log w)) proxyReq, record (EvSent key proxyReq) w).

(** *** Routing *)

(** [getNextModelIndex]; [None] is the run-time panic of [% 0]. *)
Definition getNextModelIndex (model : string) (total : Z) (w : World) : option Z * World :=
  let current := default 0 (modelCounters (srv w) !! model) in
  if total =? 0 then (None, w)
  else
    let next := Z.rem (wrap64 (current + 1)) total in
    (Some next, set_modelCounters (<[model := next]> (modelCounters (srv w))) w).

(** [rule.TargetModels[idx]]; [None] is the index-out-of-range panic. *)
Definition index (targets : list string) (idx : Z) : option string :=
  if idx <? 0 then None else targets !! Z.to_nat idx.

(** The inner loop of the [fallback] case of [getTargetModel]. *)
Fixpoint fallbackProbe (targets : list string) (w : World) : option (string * string) * World :=
  match targets with
  | [] => (None, w)
  | model :: rest =>
      let provider := getProviderForModel model in
      let '(r, w1) := rotator_GetKey provider w in
      match r with
      | Some key => (Some (model, provider), rotator_ReportUsage key w1)
      | None => fallbackProbe rest w1
      end
  end.

(** The loop of [getTargetModel] over the rules still to visit; [None] is a
    panic. *)
Fixpoint getTargetModel_from (sourceModel : string) (rules : list ModelRule) (w : World)
  : option (string * string) * World :=
  match rules with
  | [] => (Some (sourceModel, getProviderForModel sourceModel), w)
  | rule :: rest =>
      if String.eqb (SourceModel rule) sourceModel then
        if String.eqb (SelectionPolicy rule) "random" then
          let n := Z.of_nat (length (TargetModels rule)) in
          if n <=? 0 then (None, w)
          else
            match index (TargetModels rule) (rand_Intn env (draws w) n) with
            | Some model => (Some (model, getProviderForModel model), draw w)
            | None => (None, draw w)
            end
        else if String.eqb (SelectionPolicy rule) "roundrobin" then
          let '(i, w1) := getNextModelIndex sourceModel (Z.of_nat (length (TargetModels rule))) w in
          match i with
          | None => (None, w1)
          | Some idx =>
              match index (TargetModels rule) idx with
              | Some model => (Some (model, getProviderForModel model), w1)
              | None => (None, w1)
              end
          end
        else if String.eqb (SelectionPolicy rule) "fallback" then
          let '(found, w1) := fallbackProbe (TargetModels rule) w in
          match found with
          | Some mp => (Some mp, w1)
          | None => getTargetModel_from sourceModel rest w1
          end
        else getTargetModel_from sourceModel rest w
      else getTargetModel_from sourceModel rest w
  end.

Definition getTargetModel (sourceModel : string) (w : World) : option (string * string) * World :=
  getTargetModel_from sourceModel (ModelRules (cfg (srv w))) w.

(** *** The handler *)

(** The URL chosen by the [switch provider]; [None] is its [default] case. *)
Definition targetURL_of (c : Config) (provider : string) : option string :=
  if String.eqb provider "openai" then Some (OpenAI_BaseURL (Providers c) ++ "/chat/completions")%string
  else if String.eqb provider "anthropic" then Some (Anthropic_BaseURL (Providers c) ++ "/complete")%string
  else None.

(** [key.Config.Key] of the key in slot [key]. *)
Definition secret (key : nat) (w : World) : string :=
  match rotator (srv w) !! key with
  | Some k => Key (Rotation.Config k)
  | None => EmptyString
  end.

(** The second [switch provider]: the authentication header. *)
Definition setAuth (provider : string) (sec : string) (h : gmap string (list string))
  : gmap string (list string) :=
  if String.eqb provider "openai" then Header_Set "Authorization" ("Bearer " ++ sec) h
  else if String.eqb provider "anthropic" then Header_Set "X-Api-Key" sec h
  else h.

(** How the retry loop is left: by running to its end or by [break], with
    the current [resp] ([None] for nil, the flag tells whether its body was
    closed), or by the [return] after [http.Error]. *)
Inductive LoopExit :=
| LoopDone (resp : option (Response * bool))
| LoopReturn (reply : Reply).

(** The loop [for i := 1; i < len(rule.TargetModels); i++], over the targets
    still to try. *)
Fixpoint fallbackChain (r : Request) (req : LLMRequest) (targets : list string)
    (resp : option (Response * bool)) (w : World) : LoopExit * World :=
  match targets with
  | [] => (LoopDone resp, w)
  | nextModel :: rest =>
      let nextProvider := getProviderForModel nextModel in
      let '(k, w1) := rotator_GetKey nextProvider w in
      match k with
      | None => fallbackChain r req rest resp w1
      | Some nextKey =>
          let req' := with_Model nextModel req in
          match json_Marshal req' with
          | None => (LoopReturn (http_Error "Failed to prepare request" StatusInternalServerError), w1)
          | Some modifiedBody =>
              let targetURL := default EmptyString (targetURL_of (cfg (srv w1)) nextProvider) in
              if negb (http_NewRequest env (Method r) targetURL) then
                fallbackChain r req' rest resp w1
              else
                let proxyReq :=
                  mkProxyReq (Method r) targetURL
                    (setAuth nextProvider (secret nextKey w1) (copyHeaders ∅ (Header r)))
                    modifiedBody in
                let '(res, w2) := do_request nextKey proxyReq w1 in
                match res with
                | Answered resp' =>
                    if StatusCode resp' =? StatusOK then (LoopDone (Some (resp', false)), w2)
                    else fallbackChain r req' rest (Some (resp', true)) w2
                | Failed last =>
                    fallbackChain r req' rest ((fun resp' => (resp', true)) <$> last) w2
                end
          end
      end
  end.

(** From [io.ReadAll(resp.Body)] to the end of [handleProxy].  Reading a nil
    response panics; so does [w.WriteHeader] with a status that has not
    three digits.  (A status from 100 to 199 other than 101 is not delivered
    by [client.Do]: the transport consumes informational responses.) *)
Definition finish (cacheKey : string) (resp : option (Response * bool)) (w : World)
  : World * Outcome :=
  match resp with
  | None => (w, Panicked)
  | Some (resp, closed) =>
      match ReadAll resp closed with
      | None => (w, Replied (http_Error "Failed to read response" StatusInternalServerError))
      | Some respBody =>
          let w1 := if StatusCode resp =? StatusOK then cache_Set cacheKey respBody w else w in
          if checkWriteHeaderCode (StatusCode resp) then
            (w1, Replied (mkReply (StatusCode resp) (copyHeaders ∅ (resp_Header resp)) respBody))
          else (w1, Panicked)
      end
  end.

(** [handleProxy] between the [defer s.rotator.ReportUsage(key, 0)] and the
    return. *)
Definition afterAcquire (r : Request) (req : LLMRequest) (cacheKey targetModel provider : string)
    (key : nat) (w : World) : World * Outcome :=
  let req := with_Model targetModel req in
  match json_Marshal req with
  | None => (w, Replied (http_Error "Failed to prepare request" StatusInternalServerError))
  | Some modifiedBody =>
      match targetURL_of (cfg (srv w)) provider with
      | None => (w, Replied (http_Error "Unsupported provider" StatusBadRequest))
      | Some targetURL =>
          if negb (http_NewRequest env (Method r) targetURL) then
            (w, Replied (http_Error "Failed to create provider request" StatusInternalServerError))
          else
            let proxyReq :=
              mkProxyReq (Method r) targetURL
                (setAuth provider (secret key w) (copyHeaders ∅ (Header r)))
                modifiedBody in
            let '(res, w1) := do_request key proxyReq w in
            match res with
            | Failed _ => (w1, Replied (http_Error "Provider request failed" StatusBadGateway))
            | Answered resp =>
                if StatusCode resp =? StatusTooManyRequests then
                  match find (fun rule => String.eqb (SourceModel rule) (Model req)
                                          && String.eqb (SelectionPolicy rule) "fallback")
                             (ModelRules (cfg (srv w1))) with
                  | Some rule =>
                      let '(exit, w2) :=
                        fallbackChain r req (skipn 1 (TargetModels rule)) (Some (resp, false)) w1 in
                      match exit with
                      | LoopReturn reply => (w2, Replied reply)
                      | LoopDone resp' => finish cacheKey resp' w2
                      end
                  | None => finish cacheKey (Some (resp, false)) w1
                  end
                else finish cacheKey (Some (resp, false)) w1
            end
      end
  end.

Definition handleProxy (r : Request) (w : World) : World * Outcome :=
  match Body r with
  | None => (w, Replied (http_Error "Failed to read request body" StatusBadRequest))
  | Some body =>
      if HasPrefix (string_of_list_byte body) "#roxy" then handleCommand env body w
      else
        match json_Unmarshal env body with
        | None => (w, Replied (http_Error "Invalid request format" StatusBadRequest))
        | Some req =>
            let cacheKey := generateCacheKey req in
            let '(cached, w1) := cache_Get cacheKey w in
            match cached with
            | Some data => (w1, Replied (mkReply StatusOK ∅ data))
            | None =>
                let '(tm, w2) := getTargetModel (Model req) w1 in
                match tm with
                | None => (w2, Panicked)
                | Some (targetModel, provider) =>
                    let '(k, w3) := rotator_GetKey provider w2 in
                    match k with
                    | None => (w3, Replied (http_Error "No available API keys" StatusTooManyRequests))
                    | Some key =>
                        let '(w4, out) := afterAcquire r req cacheKey targetModel provider key w3 in
                        (rotator_ReportUsage key w4, out)
                    end
                end
            end
        end
  end.

(** [n] resolutions of [sourceModel] one after the other. *)
Fixpoint resolutions (n : nat) (sourceModel : string) (w : World)
  : list (option (string * string)) * World :=
  match n with
  | O => ([], w)
  | S n' =>
      let '(r, w1) := getTargetModel sourceModel w in
      let '(rs, w2) := resolutions n' sourceModel w1 in
      (r :: rs, w2)
  end.

End WithEnv.

End Proxy.

(** ** Concrete configurations and environments

    The configuration of [TestProxyServer], a variant of it whose rule has a
    source name of its own, and environments in which the OpenAI upstream
    answers 429 and the Anthropic upstream answers 200. *)

Module Fixtures.

Import Proxy.

Definition dq : string := String (ascii_of_N 34) EmptyString.

Definition quoted (s : string) : string := (dq ++ s ++ dq)%string.

(** The JSON text of a chat request with one user message. *)
Definition chat_body (model content : string) : list byte :=
  list_byte_of_string
    ("{" ++ quoted "model" ++ ":" ++ quoted model ++ ","
         ++ quoted "messages" ++ ":[{" ++ quoted "role" ++ ":" ++ quoted "user" ++ ","
         ++ quoted "content" ++ ":" ++ quoted content ++ "}]}")%string.

Definition chat_request (model content : string) : LLMRequest :=
  mkLLMRequest model [mkChatMessage "user" content] EmptyString 0 0.

(** A decoder that knows the chat bodies over the given models, all with the
    content [Hello], and rejects every other body. *)
Fixpoint decode (models : list string) (body : list byte) : option LLMRequest :=
  match models with
  | [] => None
  | m :: rest =>
      if String.eqb (string_of_list_byte body) (string_of_list_byte (chat_body m "Hello"))
      then Some (chat_request m "Hello")
      else decode rest body
  end.

Definition openai_url : string := "http://openai.test".
Definition anthropic_url : string := "http://anthropic.test".

Definition providers : ProviderConfig :=
  mkProviderConfig openai_url anthropic_url EmptyString EmptyString.

Definition openai_key : APIKeyConfig :=
  mkAPIKeyConfig "test-openai-key" EmptyString "openai" 60 40000 0.
Definition anthropic_key : APIKeyConfig :=
  mkAPIKeyConfig "test-anthropic-key" EmptyString "anthropic" 60 40000 0.
Definition openrouter_key : APIKeyConfig :=
  mkAPIKeyConfig "test-openrouter-key" EmptyString "openrouter" 60 40000 0.

(** The configuration of [TestProxyServer]. *)
Definition test_cfg : Config :=
  mkConfig ":8080" [openai_key; anthropic_key]
    [mkModelRule "gpt-4" ["gpt-4"; "claude-2"] "fallback"] providers.

(** The same, the rule now has a source name that is not its first target. *)
Definition alias_cfg : Config :=
  mkConfig ":8080" [openai_key; anthropic_key]
    [mkModelRule "fast" ["gpt-4"; "claude-2"] "fallback"] providers.

(** No rules; keys for OpenAI and OpenRouter. *)
Definition plain_cfg : Config :=
  mkConfig ":8080" [openai_key; openrouter_key] [] providers.

Definition roundrobin_cfg : Config :=
  mkConfig ":8080" [openai_key; anthropic_key]
    [mkModelRule "gpt-3.5-turbo" ["gpt-3.5-turbo"; "claude-instant"; "gpt-4"] "roundrobin"]
    providers.

Definition rate_limited : Response :=
  mkResponse 429 ∅ (Stream (Some (list_byte_of_string "rate limit exceeded"))).

Definition completion (model : string) : Response :=
  mkResponse 200 ∅ (Stream (Some (list_byte_of_string ("Mock response for: " ++ model)))).

(** The clock starts at [t0] and advances a millisecond per reading. *)
Definition t0 : time_Time := 63900000000 * time_Second.

Definition ms_clock (n : nat) : time_Time := t0 + Z.of_nat n * 1000000.

(** OpenAI is rate limited, Anthropic answers. *)
Definition busy_openai (_ : list ProxyReq) (req : ProxyReq) : DoResult :=
  if HasPrefix (pr_URL req) openai_url then Answered rate_limited
  else Answered (completion (Model (pr_Body req))).

(** Every upstream answers. *)
Definition healthy (_ : list ProxyReq) (req : ProxyReq) : DoResult :=
  Answered (completion (Model (pr_Body req))).

Definition no_command (_ : list byte) (w : World) : World * Outcome :=
  (w, Replied (http_Error "Unknown command" StatusBadRequest)).

Definition env_of (do : list ProxyReq -> ProxyReq -> DoResult) : Env :=
  mkEnv ms_clock (fun _ _ => 0)
    (decode ["gpt-4"; "fast"; "auto"; "openrouter/auto"; "gpt-3.5-turbo"])
    (fun _ _ => true) do no_command.

(** Only an OpenAI key. *)
Definition openai_only_cfg : Config :=
  mkConfig ":8080" [openai_key] [] providers.

(** Only an OpenRouter key, and a fallback rule that leads to an OpenRouter
    model. *)
Definition openrouter_rule_cfg : Config :=
  mkConfig ":8080" [openrouter_key]
    [mkModelRule "auto" ["openrouter/auto"] "fallback"] providers.

(** The same with a budget of one request a minute. *)
Definition openrouter_once_cfg : Config :=
  mkConfig ":8080"
    [mkAPIKeyConfig "test-openrouter-key" EmptyString "openrouter" 1 40000 0]
    [mkModelRule "auto" ["openrouter/auto"] "fallback"] providers.

Definition post (body : list byte) : Request :=
  mkRequest "POST" (Header_Set "Content-Type" "application/json" ∅) (Some body).


Definition env_busy : Env := env_of busy_openai.
Definition env_ok : Env := env_of healthy.

Definition not_json : list byte := list_byte_of_string "{not json".

Definition text (s : string) : list byte := list_byte_of_string s.

(** The models named in the upstream requests of a log, in order. *)
Definition sent_models (l : list Event) : list string :=
  map (fun q => Model (pr_Body q)) (sent l).

(** The key of [TestRateLimiting] and a minute of its use: two acquisitions,
    each released at once, forty seconds apart. *)
Definition two_per_minute : APIKeyConfig :=
  mkAPIKeyConfig "test-key-1" EmptyString "openai" 2 1000 0.

Definition busy_minute : list Rotation.PoolOp :=
  [Rotation.OpGetKey t0 "openai"; Rotation.OpReportUsage t0 0;
   Rotation.OpGetKey (t0 + 40 * time_Second) "openai";
   Rotation.OpReportUsage (t0 + 40 * time_Second) 0].

(** Three requests in flight at once: three acquisitions, then the three
    releases. *)
Definition three_in_flight : list Rotation.PoolOp :=
  [Rotation.OpGetKey t0 "openai"; Rotation.OpGetKey t0 "openai"; Rotation.OpGetKey t0 "openai";
   Rotation.OpReportUsage t0 0; Rotation.OpReportUsage t0 0; Rotation.OpReportUsage t0 0].

(** Two requests whose fields differ and whose hashed bytes agree: the
    boundary between role and content has moved. *)
Definition hello_user : LLMRequest :=
  mkLLMRequest "gpt-4" [mkChatMessage "user" "Hello"] EmptyString 0 0.
Definition hello_use : LLMRequest :=
  mkLLMRequest "gpt-4" [mkChatMessage "use" "rHello"] EmptyString 0 0.

(** Two requests that differ in the temperature only: 0.7 and the next
    float64 above it. *)
Definition warm : LLMRequest :=
  mkLLMRequest "gpt-4" [mkChatMessage "user" "Hello"] EmptyString 0 0x3FE6666666666666.
Definition warmer : LLMRequest :=
  mkLLMRequest "gpt-4" [mkChatMessage "user" "Hello"] EmptyString 0 0x3FE6666666666667.

(** Two requests that differ in the prompt only. *)
Definition with_prompt : LLMRequest :=
  mkLLMRequest "gpt-4" [mkChatMessage "user" "Hello"] "Say hello" 0 0.

End Fixtures.


(** ** package config: loading and validation

    The file system, the YAML decoder, the process environment and the
    Unicode part of [strings.ToLower] are parameters. *)

Module ConfigFile.

(** [strings.ToLower] on a string of ASCII bytes. *)
Definition is_ascii (s : string) : bool :=
  forallb (fun c => (N_of_ascii c <? 128)%N) (list_ascii_of_string s).

Definition lower_byte (c : ascii) : ascii :=
  let n := N_of_ascii c in
  if ((65 <=? n) && (n <=? 90))%N then ascii_of_N (n + 32) else c.

Fixpoint lower_ascii (s : string) : string :=
  match s with
  | EmptyString => EmptyString
  | String c rest => String (lower_byte c) (lower_ascii rest)
  end.

Section WithSystem.

(** [strings.Map(unicode.ToLower, s)], the path [strings.ToLower] takes for
    a string with a byte outside ASCII. *)
Context (unicode_ToLower : string -> string).
(** [os.Getenv] *)
Context (os_Getenv : string -> string).
(** [os.ReadFile] and [yaml.Unmarshal] into a zero [Config]; [inl] carries
    the text of the error. *)
Context (os_ReadFile : string -> string + list byte).
Context (yaml_Unmarshal : list byte -> string + Config).

Definition ToLower (s : string) : string :=
  if is_ascii s then lower_ascii s else unicode_ToLower s.

Definition isValidProvider (provider : string) : bool :=
  let p := ToLower provider in
  String.eqb p "openai" || String.eqb p "anthropic"
  || String.eqb p "openrouter" || String.eqb p "chutes".

Definition isValidSelectionPolicy (policy : string) : bool :=
  let p := ToLower policy in
  String.eqb p "random" || String.eqb p "roundrobin" || String.eqb p "fallback".

(** [fmt.Sprintf("api_keys[%d]: ", i)] and its like. *)
Definition at_index (what : string) (i : nat) (msg : string) : string :=
  (what ++ "[" ++ Fmt.d (Z.of_nat i) ++ "]: " ++ msg)%string.

(** The body of the first loop of [validate]. *)
Definition validate_key (i : nat) (key : APIKeyConfig) : option string :=
  if String.eqb (Key key) EmptyString && String.eqb (KeyEnvVar key) EmptyString then
    Some (at_index "api_keys" i "either key or key_env_var is required")
  else if String.eqb (Provider key) EmptyString then
    Some (at_index "api_keys" i "provider is required")
  else if MaxRPM key <=? 0 then
    Some (at_index "api_keys" i "max_rpm must be positive")
  else if MaxTPM key <=? 0 then
    Some (at_index "api_keys" i "max_tpm must be positive")
  else if negb (isValidProvider (Provider key)) then
    Some (at_index "api_keys" i ("invalid provider " ++ Provider key))
  else None.

Fixpoint validate_keys (i : nat) (keys : list APIKeyConfig) : option string :=
  match keys with
  | [] => None
  | key :: rest =>
      match validate_key i key with
      | Some err => Some err
      | None => validate_keys (S i) rest
      end
  end.

(** The body of the second loop of [validate]. *)
Definition validate_rule (i : nat) (rule : ModelRule) : option string :=
  if String.eqb (SourceModel rule) EmptyString then
    Some (at_index "model_rules" i "source_model is required")
  else if (length (TargetModels rule) =? 0)%nat then
    Some (at_index "model_rules" i "at least one target_model is required")
  else if String.eqb (SelectionPolicy rule) EmptyString then
    Some (at_index "model_rules" i "selection_policy is required")
  else if negb (isValidSelectionPolicy (SelectionPolicy rule)) then
    Some (at_index "model_rules" i ("invalid selection_policy: " ++ SelectionPolicy rule))
  else None.

Fixpoint validate_rules (i : nat) (rules : list ModelRule) : option string :=
  match rules with
  | [] => None
  | rule :: rest =>
      match validate_rule i rule with
      | Some err => Some err
      | None => validate_rules (S i) rest
      end
  end.

(** [validate]: [None] is the nil error. *)
Definition validate (c : Config) : option string :=
  if String.eqb (ListenAddr c) EmptyString then Some "listen_addr is required"
  else if (length (APIKeys c) =? 0)%nat then Some "at least one API key is required"
  else
    match validate_keys 0 (APIKeys c) with
    | Some err => Some err
    | None => validate_rules 0 (ModelRules c)
    end.

Definition with_Key (secret : string) (key : APIKeyConfig) : APIKeyConfig :=
  mkAPIKeyConfig secret (KeyEnvVar key) (Provider key) (MaxRPM key) (MaxTPM key)
                 (CooldownSec key).

(** The loop of [loadSecrets] from index [i] on: the keys as the loop leaves
    them and the error, if any. *)
Fixpoint loadSecrets_from (i : nat) (keys : list APIKeyConfig)
  : list APIKeyConfig * option string :=
  match keys with
  | [] => ([], None)
  | key :: rest =>
      if negb (String.eqb (KeyEnvVar key) EmptyString) then
        let envKey := os_Getenv (KeyEnvVar key) in
        if String.eqb envKey EmptyString then
          (key :: rest,
           Some ("environment variable " ++ KeyEnvVar key ++ " not set for API key "
                 ++ Fmt.d (Z.of_nat i))%string)
        else
          let '(rest', err) := loadSecrets_from (S i) rest in
          (with_Key envKey key :: rest', err)
      else
        let '(rest', err) := loadSecrets_from (S i) rest in
        (key :: rest', err)
  end.

Definition with_APIKeys (keys : list APIKeyConfig) (c : Config) : Config :=
  mkConfig (ListenAddr c) keys (ModelRules c) (Providers c).

(** [loadSecrets]: the configuration as mutated and the error. *)
Definition loadSecrets (c : Config) : Config * option string :=
  let '(keys, err) := loadSecrets_from 0 (APIKeys c) in
  (with_APIKeys keys c, err).

(** [Load]: [inl] is the error returned with a nil configuration. *)
Definition Load (path : string) : string + Config :=
  match os_ReadFile path with
  | inl err => inl ("reading config file: " ++ err)%string
  | inr data =>
      match yaml_Unmarshal data with
      | inl err => inl ("parsing config file: " ++ err)%string
      | inr cfg =>
          match loadSecrets cfg with
          | (_, Some err) => inl ("loading secrets: " ++ err)%string
          | (cfg', None) =>
              match validate cfg' with
              | Some err => inl ("validating config: " ++ err)%string
              | None => inr cfg'
              end
          end
      end
  end.

End WithSystem.

(** What [validate] asks of a key and of a rule. *)
Definition key_ok (unicode_ToLower : string -> string) (key : APIKeyConfig) : Prop :=
  (Key key <> EmptyString \/ KeyEnvVar key <> EmptyString) /\
  0 < MaxRPM key /\ 0 < MaxTPM key /\
  isValidProvider unicode_ToLower (Provider key) = true.

Definition rule_ok (unicode_ToLower : string -> string) (rule : ModelRule) : Prop :=
  SourceModel rule <> EmptyString /\ TargetModels rule <> [] /\
  isValidSelectionPolicy unicode_ToLower (SelectionPolicy rule) = true.

End ConfigFile.

(** ** What [loadSecrets] does to one key *)

Module Loading.

Import ConfigFile.

(** The key names an environment variable that has no value. *)
Definition unset (os_Getenv : string -> string) (key : APIKeyConfig) : bool :=
  negb (String.eqb (KeyEnvVar key) EmptyString)
  && String.eqb (os_Getenv (KeyEnvVar key)) EmptyString.

(** The key with the value of the environment variable it names as its
    secret; the key itself when it names none. *)
Definition resolve (os_Getenv : string -> string) (key : APIKeyConfig) : APIKeyConfig :=
  if String.eqb (KeyEnvVar key) EmptyString then key
  else with_Key (os_Getenv (KeyEnvVar key)) key.

(** The error of [loadSecrets] for the key at index [i]. *)
Definition not_set (i : nat) (key : APIKeyConfig) : string :=
  ("environment variable " ++ KeyEnvVar key ++ " not set for API key "
   ++ Fmt.d (Z.of_nat i))%string.

(** What a key of a loaded configuration satisfies. *)
Definition usable (unicode_ToLower : string -> string) (key : APIKeyConfig) : Prop :=
  Key key <> EmptyString /\ 0 < MaxRPM key /\ 0 < MaxTPM key /\
  isValidProvider unicode_ToLower (Provider key) = true.

End Loading.

(** ** Runs of the pool and of the cache used in the further properties *)

Module Runs.

Import Rotation.

(** One acquisition for [provider] at [t], released at once: the key handed
    out by a pool of one key is the one in slot 0. *)
Definition cycle (provider : string) (t : time_Time) : list PoolOp :=
  [OpGetKey t provider; OpReportUsage t 0%nat].

Definition burst (provider : string) (ts : list time_Time) : list PoolOp :=
  flat_map (cycle provider) ts.

(** Every time of [ts] is less than a minute after the one before it, [from]
    for the first. *)
Fixpoint dense (from : time_Time) (ts : list time_Time) : bool :=
  match ts with
  | [] => true
  | t :: rest => (time_Sub t from <? time_Minute) && dense t rest
  end.

(** The slot of the first configured key of [provider]. *)
Fixpoint first_of (provider : string) (configs : list APIKeyConfig) : option nat :=
  match configs with
  | [] => None
  | c :: rest =>
      if String.eqb (Provider c) provider then Some 0%nat
      else S <$> first_of provider rest
  end.

(** A sequence of [Set] calls on a cache: time, key and data of each. *)
Definition stores (c : Cache.Cache) (writes : list (time_Time * string * list byte))
  : Cache.Cache :=
  fold_left (fun c' w => Cache.Set_ (fst (fst w)) c' (snd (fst w)) (snd w)) writes c.

End Runs.

(** ** Relations between states and runs of the handler used in the further
    properties *)

Module Frames.

Import Proxy.

(** [w'] differs from [w] in the pool, the clock count and the log at
    most. *)
Definition quiet (w w' : World) : Prop :=
  cfg (srv w') = cfg (srv w) /\
  modelCounters (srv w') = modelCounters (srv w) /\
  cache (srv w') = cache (srv w) /\
  draws w' = draws w.

(** The largest number of targets of a rule. *)
Definition max_targets (rules : list ModelRule) : nat :=
  fold_right (fun rule m => Nat.max (length (TargetModels rule)) m) 0%nat rules.

(** The cursors of the round-robin rules are values a cursor can take. *)
Definition counters_ok (w : World) : Prop :=
  map_Forall (fun _ c => 0 <= c < max_int) (modelCounters (srv w)).

(** The lengths of the target lists are values of type [int]. *)
Definition sized (c : Config) : Prop :=
  Forall (fun rule => Z.of_nat (length (TargetModels rule)) <= max_int) (ModelRules c).

(** [rand.Intn(n)] returns a value in [0, n). *)
Definition rand_ok (env : Env) : Prop :=
  forall k n, 0 < n -> 0 <= rand_Intn env k n < n.

(** The body of the request starts with the command prefix. *)
Definition is_command (r : Request) : bool :=
  match Body r with
  | Some body => HasPrefix (string_of_list_byte body) "#roxy"
  | None => false
  end.

(** The requests [rs] handled one after the other. *)
Fixpoint serve (env : Env) (rs : list Request) (w : World) : list Outcome * World :=
  match rs with
  | [] => ([], w)
  | r :: rest =>
      let '(w1, out) := handleProxy env r w in
      let '(outs, w2) := serve env rest w1 in
      (out :: outs, w2)
  end.

(** What an upstream request sent for the inbound request [r], decoded as
    [req], looks like under the configuration [c]: the method of [r], the
    payload [req] with another model name, the URL of the provider of that
    model, the headers of [r] with the authentication of that provider. *)
Definition wire_ok (c : Config) (r : Request) (req : LLMRequest) (q : ProxyReq) : Prop :=
  exists model sec,
    pr_Method q = Method r /\
    pr_Body q = with_Model model req /\
    pr_URL q = default EmptyString (targetURL_of c (getProviderForModel model)) /\
    pr_Header q = setAuth (getProviderForModel model) sec (copyHeaders ∅ (Header r)).

(** How the retry loop ends, by the requests it has sent.  With none sent
    the response it started with is the current one.  Otherwise the current
    response is nil (the last request failed with no response), or a 200
    with an open body, or a response whose body has been closed. *)
Definition chain_exit (resp : option (Response * bool)) (new : list ProxyReq)
    (exit : LoopExit) : Prop :=
  match exit with
  | LoopReturn reply => Code reply = StatusInternalServerError
  | LoopDone res =>
      (new = [] /\ res = resp) \/
      (new <> [] /\
       (res = None \/
        exists resp', (res = Some (resp', false) /\ StatusCode resp' = StatusOK) \/
                      res = Some (resp', true)))
  end.

(** What the caller gets once the retry loop has sent a request: a 200, a
    500, or a reply without content that is not a 200. *)
Definition masked (out : Outcome) : Prop :=
  out = Panicked \/
  exists reply, out = Replied reply /\
                (Code reply = StatusOK \/ Code reply = StatusInternalServerError \/
                 (reply_Body reply = [] /\ Code reply <> StatusOK)).

(** Every request to the URL the configuration has for OpenAI or for
    Anthropic is answered, with a status of three digits. *)
Definition upstreams_answer (env : Env) (c : Config) : Prop :=
  forall h q,
    pr_URL q = (OpenAI_BaseURL (Providers c) ++ "/chat/completions")%string \/
    pr_URL q = (Anthropic_BaseURL (Providers c) ++ "/complete")%string ->
    exists resp, client_Do env h q = Answered resp /\ 100 <= StatusCode resp <= 999.

(** The targets a retry can reach, those after the first of a rule with the
    policy [fallback], are not models of OpenRouter or Chutes. *)
Definition retries_routable (c : Config) : Prop :=
  Forall (fun rule =>
            SelectionPolicy rule = "fallback" ->
            Forall (fun model => HasPrefix model "openrouter/" = false /\
                                 HasPrefix model "chutes/" = false)
                   (skipn 1 (TargetModels rule)))
         (ModelRules c).

(** The keys of [w'] are those of [w], slot by slot, counters and stamps
    apart. *)
Definition same_keys (w w' : World) : Prop :=
  map Rotation.Config (rotator (srv w')) = map Rotation.Config (rotator (srv w)).

(** An event of a handling of [r] on a pool of keys configured as [configs]
    is in order: a request sent with the key of slot [key] is for a model of
    the provider of that key and is authenticated with the secret of that
    key. *)
Definition keyed (configs : list APIKeyConfig) (r : Request) (ev : Event) : Prop :=
  match ev with
  | EvSent key q =>
      exists c, configs !! key = Some c /\
                Provider c = getProviderForModel (Model (pr_Body q)) /\
                pr_Header q = setAuth (Provider c) (Key c) (copyHeaders ∅ (Header r))
  | _ => True
  end.

(** From [w] to [w'] the keys are the same and the log has grown by events
    in order. *)
Definition keyed_run (r : Request) (w w' : World) : Prop :=
  same_keys w w' /\
  exists mid, log w' = log w ++ mid /\
              Forall (keyed (map Rotation.Config (rotator (srv w))) r) mid.

End Frames.

(** ** Further concrete pools, configurations and a deployment *)

Module Samples.

Import Proxy Fixtures.

(** The key of [TestRateLimiting] with its budget of two used up at [t0]. *)
Definition spent : Rotation.KeyRotator := [Rotation.mkApiKey two_per_minute 2 t0].

(** Two uses of that key, forty seconds apart. *)
Definition two_uses : list time_Time := [t0; t0 + 40 * time_Second].

(** A cache with the ttl of the server. *)
Definition five_minutes : Cache.Cache := Cache.New (5 * time_Minute).

(** One write, under another key than [gpt-4]. *)
Definition other_write : list (time_Time * string * list byte) :=
  [(t0 + time_Second, "claude-2", text "Mock response for: claude-2")].

(** A rule whose policy is spelled in mixed case. *)
Definition mixed_case_cfg : Config :=
  mkConfig ":8080" [openai_key; anthropic_key]
    [mkModelRule "gpt-4" ["claude-2"] "RoundRobin"] providers.

(** Two requests, the first for the model of the round-robin rule. *)
Definition two_requests : list Request :=
  [post (chat_body "gpt-3.5-turbo" "Hello"); post (chat_body "gpt-4" "Hello")].

(** Every upstream is rate limited and answers without content. *)
Definition bare_limit (_ : list ProxyReq) (_ : ProxyReq) : DoResult :=
  Answered (mkResponse 429 ∅ NoBody).

Definition env_bare : Env := env_of bare_limit.

(** Two requests, the first for the model of the fallback rule of
    [test_cfg]. *)
Definition retried_requests : list Request :=
  [post (chat_body "gpt-4" "Hello"); post (chat_body "gpt-3.5-turbo" "Hello")].

(** A deployment: one configuration file with one key, named by an
    environment variable that is set. *)
Definition config_path : string := "configs/config.yaml".

Definition config_text : list byte :=
  text ("listen_addr: 127.0.0.1:8080" ++ newline
        ++ "api_keys:" ++ newline
        ++ "  - key_env_var: OPENAI_API_KEY_1" ++ newline
        ++ "    provider: openai" ++ newline
        ++ "    max_rpm: 60" ++ newline
        ++ "    max_tpm: 40000" ++ newline)%string.

Definition file_cfg : Config :=
  mkConfig "127.0.0.1:8080"
    [mkAPIKeyConfig EmptyString "OPENAI_API_KEY_1" "openai" 60 40000 0] []
    (mkProviderConfig EmptyString EmptyString EmptyString EmptyString).

Definition loaded_cfg : Config :=
  mkConfig "127.0.0.1:8080"
    [mkAPIKeyConfig "your-key-1" "OPENAI_API_KEY_1" "openai" 60 40000 0] []
    (mkProviderConfig EmptyString EmptyString EmptyString EmptyString).

Definition read_file (path : string) : string + list byte :=
  if String.eqb path config_path then inr config_text
  else inl ("open " ++ path ++ ": no such file or directory")%string.

Definition parse_yaml (data : list byte) : string + Config :=
  if String.eqb (string_of_list_byte data) (string_of_list_byte config_text)
  then inr file_cfg
  else inl "yaml: unmarshal errors"%string.

Definition getenv (name : string) : string :=
  if String.eqb name "OPENAI_API_KEY_1" then "your-key-1" else EmptyString.

(** No string of the deployment has a byte outside ASCII. *)
Definition ascii_only (s : string) : string := s.

End Samples.

(** * Properties *)

(** ** The digest on the test vectors of the standard *)

Module Sha256Facts.

Example Sum256_empty :
  Fmt.hex (Sha256.Sum256 []) =
  "e3b0c44298fc1c149afbf4c8996fb92427ae41e4649b934ca495991b7852b855".
Proof. vm_compute. reflexivity. Qed.

Example Sum256_abc :
  Fmt.hex (Sha256.Sum256 (Sha256.bytes_of_string "abc")) =
  "ba7816bf8f01cfea414140de5dae2223b00361a396177a9cb410ff61f20015ad".
Proof. vm_compute. reflexivity. Qed.

Example Sum256_two_blocks :
  Fmt.hex (Sha256.Sum256 (Sha256.bytes_of_string
             "abcdbcdecdefdefgefghfghighijhijkijkljklmklmnlmnomnopnopq")) =
  "248d6a61d20638b8e5c026930c3e6039a33ce45964ff2167f6ecedd419db06c1".
Proof. vm_compute. reflexivity. Qed.

Example K_length : length Sha256.K = 64%nat /\ length Sha256.H0 = 8%nat.
Proof. split; reflexivity. Qed.

(** The formatting verbs on a few values: 0, 0.7, -0.1, 100, and 2^-7, a tie
    at the sixth decimal that goes to the even digit. *)
Example fmt_verbs :
  Fmt.d (-5) = "-5" /\ Fmt.d 1234 = "1234" /\
  Fmt.f 0 = "0.000000" /\ Fmt.f 0x3FE6666666666666 = "0.700000" /\
  Fmt.f 0xBFB999999999999A = "-0.100000" /\ Fmt.f 0x4059000000000000 = "100.000000" /\
  Fmt.f 0x3F80000000000000 = "0.007812" /\ Fmt.f 0x7FF0000000000000 = "+Inf".
Proof. repeat split; vm_compute; reflexivity. Qed.

End Sha256Facts.

(** ** The credential pool *)

Module RotationFacts.

Import Rotation.

Lemma wrap64_small (z : Z) : min_int <= z <= max_int -> wrap64 z = z.
Proof.
  unfold wrap64, min_int, max_int. intros H.
  rewrite Z.mod_small; lia.
Qed.

Lemma refresh_Config now key : Config (refresh now key) = Config key.
Proof. unfold refresh. by destruct (_ <=? _). Qed.

Lemma refresh_lastUsed now key : lastUsed (refresh now key) = lastUsed key.
Proof. unfold refresh. by destruct (_ <=? _). Qed.

(** The counter after the refresh: zero once a minute has passed since
    [lastUsed], unchanged before. *)
Lemma refresh_usageCount now key :
  usageCount (refresh now key) =
  if time_Minute <=? time_Sub now (lastUsed key) then 0 else usageCount key.
Proof. unfold refresh. by destruct (_ <=? _). Qed.

Lemma GetKey_length now provider keys :
  length (fst (GetKey now provider keys)) = length keys.
Proof.
  induction keys as [|key rest IH]; simpl; [done|].
  destruct (negb _); [|destruct (_ <? _)]; simpl;
    try destruct (GetKey now provider rest); simpl in *; congruence.
Qed.

(** The key handed out has budget left, and it is of the provider asked
    for. *)
Lemma GetKey_grants_below_budget now provider keys keys' i :
  GetKey now provider keys = (keys', Some i) ->
  exists key, keys' !! i = Some key /\ Provider (Config key) = provider /\
              usageCount key < MaxRPM (Config key).
Proof.
  revert keys' i. induction keys as [|key rest IH]; intros keys' i; simpl; [done|].
  destruct (String.eqb_spec (Provider (Config key)) provider) as [Hp|Hp]; simpl.
  - destruct (Z.ltb_spec (usageCount (refresh now key)) (MaxRPM (Config (refresh now key)))) as [Hb|Hb].
    + intros [= <- <-]. exists (refresh now key). rewrite refresh_Config in *. done.
    + destruct (GetKey now provider rest) as [rest' [j|]] eqn:E; simpl; intros [= <- <-].
      apply (IH _ _ eq_refl).
  - destruct (GetKey now provider rest) as [rest' [j|]] eqn:E; simpl; intros [= <- <-].
    apply (IH _ _ eq_refl).
Qed.

Lemma refresh_sound now key : sound key -> sound (refresh now key).
Proof.
  unfold sound, within_budget. rewrite refresh_Config, refresh_usageCount.
  destruct (_ <=? _); lia.
Qed.

Lemma GetKey_sound now provider keys :
  Forall sound keys -> Forall sound (fst (GetKey now provider keys)).
Proof.
  induction 1 as [|key rest Hk Hrest IH]; simpl; [constructor|].
  destruct (negb _); [|destruct (_ <? _)]; simpl;
    try (destruct (GetKey now provider rest); simpl in * );
    constructor; auto using refresh_sound.
Qed.

Lemma charge_sound now key : sound key -> has_budget key = true -> sound (charge now key).
Proof.
  unfold sound, within_budget, has_budget, charge. simpl.
  intros [H1 H2] Hb%Z.ltb_lt.
  rewrite wrap64_small; unfold min_int, max_int in *; lia.
Qed.

Lemma ReportUsage_sound now i keys key :
  Forall sound keys -> keys !! i = Some key -> has_budget key = true ->
  Forall sound (ReportUsage now i keys).
Proof.
  intros Hall Hi Hb. unfold ReportUsage.
  apply Forall_alter; [done|].
  intros key' Hi' Hs. rewrite Hi in Hi'. injection Hi' as <-.
  by apply charge_sound.
Qed.

Lemma pool_run_sound ops : forall keys,
  Forall sound keys -> charges_with_budget keys ops = true ->
  Forall sound (pool_run keys ops).
Proof.
  induction ops as [|op ops IH]; intros keys Hs Hc; simpl in *; [done|].
  apply andb_prop in Hc as [Hop Hrest].
  apply IH; [|done].
  destruct op as [now provider|now i]; simpl.
  - by apply GetKey_sound.
  - revert Hop. destruct (keys !! i) as [key|] eqn:Hi; [|done].
    intros Hop. by eapply ReportUsage_sound.
Qed.

Lemma NewKeyRotator_sound configs :
  Forall (fun c => 0 <= MaxRPM c <= max_int) configs ->
  Forall sound (NewKeyRotator configs).
Proof.
  unfold NewKeyRotator. intros H. apply Forall_map.
  eapply Forall_impl; [exact H|].
  intros c Hc. unfold sound, within_budget. simpl in *. lia.
Qed.

(** What one call of [GetKey] does to the pool and which slot it returns. *)
Lemma GetKey_scan (now : time_Time) (provider : string) (keys : KeyRotator) :
  match GetKey now provider keys with
  | (keys', Some i) =>
      (exists key, keys !! i = Some key /\ eligible now provider key = true /\
                   keys' !! i = Some (refresh now key)) /\
      (forall j key, (j < i)%nat -> keys !! j = Some key ->
         eligible now provider key = false /\
         keys' !! j = Some (if String.eqb (Provider (Config key)) provider
                            then refresh now key else key)) /\
      (forall j, (i < j)%nat -> keys' !! j = keys !! j)
  | (keys', None) =>
      forall j key, keys !! j = Some key ->
         eligible now provider key = false /\
         keys' !! j = Some (if String.eqb (Provider (Config key)) provider
                            then refresh now key else key)
  end.
Proof.
  induction keys as [|key rest IH]; simpl; [done|].
  destruct (String.eqb (Provider (Config key)) provider) eqn:Hp; simpl.
  - destruct (usageCount (refresh now key) <? MaxRPM (Config (refresh now key))) eqn:Hb.
    + split; [|split].
      * exists key. unfold eligible, has_budget. by rewrite Hp, Hb.
      * intros j key' Hj. lia.
      * intros [|j] Hj; [lia|done].
    + destruct (GetKey now provider rest) as [rest' [i|]]; simpl.
      * destruct IH as (Hi & Hlt & Hgt). split; [|split].
        -- done.
        -- intros [|j] key' Hj; simpl.
           ++ intros [= <-]. unfold eligible, has_budget. by rewrite Hp, Hb.
           ++ apply Hlt. lia.
        -- intros [|j] Hj; [lia|]. simpl. apply Hgt. lia.
      * intros [|j] key'; simpl.
        -- intros [= <-]. unfold eligible, has_budget. by rewrite Hp, Hb.
        -- apply IH.
  - destruct (GetKey now provider rest) as [rest' [i|]]; simpl.
    + destruct IH as (Hi & Hlt & Hgt). split; [|split].
      * done.
      * intros [|j] key' Hj; simpl.
        -- intros [= <-]. unfold eligible. by rewrite Hp.
        -- apply Hlt. lia.
      * intros [|j] Hj; [lia|]. simpl. apply Hgt. lia.
    + intros [|j] key'; simpl.
      * intros [= <-]. unfold eligible. by rewrite Hp.
      * apply IH.
Qed.

(** No key has a larger counter or another stamp after a scan. *)
Lemma GetKey_uncharged now provider keys j key :
  keys !! j = Some key ->
  exists key', fst (GetKey now provider keys) !! j = Some key' /\
               Config key' = Config key /\ lastUsed key' = lastUsed key /\
               (usageCount key' = usageCount key \/ usageCount key' = 0).
Proof.
  intros Hj. pose proof (GetKey_scan now provider keys) as H.
  assert (Hpass : exists key',
            (if String.eqb (Provider (Config key)) provider then refresh now key else key)
              = key' /\
            Config key' = Config key /\ lastUsed key' = lastUsed key /\
            (usageCount key' = usageCount key \/ usageCount key' = 0)).
  { eexists. split; [done|]. destruct (String.eqb _ _); [|by auto].
    rewrite refresh_Config, refresh_lastUsed, refresh_usageCount.
    destruct (_ <=? _); auto. }
  destruct (GetKey now provider keys) as [keys' [i|]]; cbn [fst].
  - destruct H as ((ki & Hki & Hel & Hki') & Hbefore & Hafter).
    destruct (lt_eq_lt_dec j i) as [[Hlt| ->]|Hgt].
    + destruct (Hbefore j key Hlt Hj) as [_ ->]. destruct Hpass as (key' & <- & Hrest).
      by eexists.
    + rewrite Hj in Hki. injection Hki as <-. exists (refresh now key).
      rewrite refresh_Config, refresh_lastUsed, refresh_usageCount.
      split; [done|]. destruct (_ <=? _); auto.
    + rewrite (Hafter j Hgt), Hj. exists key. auto.
  - destruct (H j key Hj) as [_ ->]. destruct Hpass as (key' & <- & Hrest). by eexists.
Qed.

(** The refresh in plain terms. *)
Lemma refresh_plain now key :
  Config (refresh now key) = Config key /\
  lastUsed (refresh now key) = lastUsed key /\
  ((time_Minute <= time_Sub now (lastUsed key) /\ usageCount (refresh now key) = 0) \/
   (time_Sub now (lastUsed key) < time_Minute /\
    usageCount (refresh now key) = usageCount key)).
Proof.
  unfold refresh.
  destruct (Z.leb_spec time_Minute (time_Sub now (lastUsed key))); cbn; auto.
Qed.

Lemma eligible_true now provider key :
  eligible now provider key = true ->
  Provider (Config key) = provider /\
  usageCount (refresh now key) < MaxRPM (Config key).
Proof.
  unfold eligible, has_budget. rewrite refresh_Config.
  intros [Hp Hb]%andb_prop. split; [by apply String.eqb_eq|by apply Z.ltb_lt].
Qed.

Lemma eligible_false now provider key :
  eligible now provider key = false ->
  Provider (Config key) <> provider \/
  (Provider (Config key) = provider /\
   MaxRPM (Config key) <= usageCount (refresh now key)).
Proof.
  unfold eligible, has_budget. rewrite refresh_Config.
  destruct (String.eqb_spec (Provider (Config key)) provider) as [Hp|Hp]; [|by left].
  cbn [andb]. intros Hb%Z.ltb_ge. by right.
Qed.

(** What the scan does to a key it passes over. *)
Lemma passed_over now provider key :
  eligible now provider key = false ->
  (Provider (Config key) <> provider /\
   (if String.eqb (Provider (Config key)) provider then refresh now key else key) = key) \/
  (Provider (Config key) = provider /\
   exists key',
     (if String.eqb (Provider (Config key)) provider then refresh now key else key) = key' /\
     Config key' = Config key /\ lastUsed key' = lastUsed key /\
     ((time_Minute <= time_Sub now (lastUsed key) /\ usageCount key' = 0) \/
      (time_Sub now (lastUsed key) < time_Minute /\ usageCount key' = usageCount key)) /\
     MaxRPM (Config key) <= usageCount key').
Proof.
  intros [Hp|[Hp Hb]]%eligible_false.
  - left. split; [done|]. by rewrite (proj2 (String.eqb_neq _ _) Hp).
  - right. split; [done|]. exists (refresh now key).
    rewrite (proj2 (String.eqb_eq _ _) Hp).
    destruct (refresh_plain now key) as (Hc & Hl & Hu). done.
Qed.

(** C7 (as amended). [GetKey] scans the keys of the pool in their order.
    The counter of each key of the provider asked for that it reaches is set
    to zero when the current time is at least one minute past the
    [lastUsed] stamp of the key, the time of its latest [ReportUsage], and
    is left as it is otherwise; the stamp and the configuration of the key
    are never changed.  It returns the first key of that provider whose
    counter, after that, is below [MaxRPM]; the keys after it and the keys
    of other providers are left as they were.  It fails exactly when no key
    of that provider has budget left: a minute has passed and its [MaxRPM]
    is not positive, or less than a minute has passed and its counter has
    reached [MaxRPM]. *)
Theorem GetKey_first_fit (now : time_Time) (provider : string) (keys : KeyRotator) :
  match GetKey now provider keys with
  | (keys', Some i) =>
      (exists key key',
         keys !! i = Some key /\ keys' !! i = Some key' /\
         Provider (Config key) = provider /\
         Config key' = Config key /\ lastUsed key' = lastUsed key /\
         ((time_Minute <= time_Sub now (lastUsed key) /\ usageCount key' = 0) \/
          (time_Sub now (lastUsed key) < time_Minute /\
           usageCount key' = usageCount key)) /\
         usageCount key' < MaxRPM (Config key)) /\
      (forall j key, (j < i)%nat -> keys !! j = Some key ->
         (Provider (Config key) <> provider /\ keys' !! j = Some key) \/
         (Provider (Config key) = provider /\
          exists key',
            keys' !! j = Some key' /\
            Config key' = Config key /\ lastUsed key' = lastUsed key /\
            ((time_Minute <= time_Sub now (lastUsed key) /\ usageCount key' = 0) \/
             (time_Sub now (lastUsed key) < time_Minute /\
              usageCount key' = usageCount key)) /\
            MaxRPM (Config key) <= usageCount key')) /\
      (forall j, (i < j)%nat -> keys' !! j = keys !! j)
  | (keys', None) =>
      forall j key, keys !! j = Some key ->
         (Provider (Config key) <> provider /\ keys' !! j = Some key) \/
         (Provider (Config key) = provider /\
          exists key',
            keys' !! j = Some key' /\
            Config key' = Config key /\ lastUsed key' = lastUsed key /\
            ((time_Minute <= time_Sub now (lastUsed key) /\ usageCount key' = 0) \/
             (time_Sub now (lastUsed key) < time_Minute /\
              usageCount key' = usageCount key)) /\
            MaxRPM (Config key) <= usageCount key')
  end /\
  (snd (GetKey now provider keys) = None <->
   forall key, key ∈ keys -> Provider (Config key) = provider ->
     (time_Minute <= time_Sub now (lastUsed key) /\ MaxRPM (Config key) <= 0) \/
     (time_Sub now (lastUsed key) < time_Minute /\
      MaxRPM (Config key) <= usageCount key)).
Proof.
  pose proof (GetKey_scan now provider keys) as H.
  destruct (GetKey now provider keys) as [keys' [i|]]; cbn [snd].
  - destruct H as ((key & Hk & Hel & Hk') & Hbefore & Hafter).
    apply eligible_true in Hel as [Hp Hb].
    destruct (refresh_plain now key) as (Hc & Hl & Hu).
    split; [split; [|split]|].
    + exists key, (refresh now key). done.
    + intros j kj Hlt Hj. destruct (Hbefore j kj Hlt Hj) as [Hno ->].
      destruct (passed_over now provider kj Hno) as [[Hq ->]|(Hq & kj' & -> & Hrest)].
      * by left.
      * right. split; [done|]. by exists kj'.
    + exact Hafter.
    + split; [discriminate|]. intros Hall. exfalso.
      apply list_elem_of_lookup_2 in Hk.
      destruct (Hall key Hk Hp) as [[Hm Hz]|[Hm Hz]];
        destruct Hu as [[Hm' Hu]|[Hm' Hu]]; lia.
  - split.
    + intros j kj Hj. destruct (H j kj Hj) as [Hno ->].
      destruct (passed_over now provider kj Hno) as [[Hq ->]|(Hq & kj' & -> & Hrest)].
      * by left.
      * right. split; [done|]. by exists kj'.
    + split; [|done]. intros _ key [j Hj]%list_elem_of_lookup_1 Hp.
      destruct (H j key Hj) as [Hno _].
      apply eligible_false in Hno as [Hq|[_ Hb]]; [done|].
      destruct (refresh_plain now key) as (_ & _ & [[Hm Hu]|[Hm Hu]]).
      * left. split; [done|]. lia.
      * right. split; [done|]. lia.
Qed.

(** C4 (as amended). In a pool created from keys whose [MaxRPM] is not
    negative, after any sequence of [GetKey] and [ReportUsage] operations the
    key that [GetKey] hands out has a counter strictly below its [MaxRPM];
    and the counter of every key is within [0, MaxRPM] after the sequences
    in which each [ReportUsage] charges a key that still has budget at that
    moment, as when every acquisition is released before the next one. *)
Theorem usage_within_budget (configs : list APIKeyConfig) (ops : list PoolOp) :
  Forall (fun c => 0 <= MaxRPM c <= max_int) configs ->
  (forall now provider keys' i,
      GetKey now provider (pool_run (NewKeyRotator configs) ops) = (keys', Some i) ->
      exists key, keys' !! i = Some key /\ usageCount key < MaxRPM (Config key)) /\
  (charges_with_budget (NewKeyRotator configs) ops = true ->
   Forall within_budget (pool_run (NewKeyRotator configs) ops)).
Proof.
  intros Hcfg. split.
  - intros now provider keys' i Hget.
    destruct (GetKey_grants_below_budget _ _ _ _ _ Hget) as (key & Hi & _ & Hb).
    by exists key.
  - intros Hc.
    eapply Forall_impl; [apply pool_run_sound; [by apply NewKeyRotator_sound|done]|].
    by intros key [Hk _].
Qed.

Lemma usage_within_budget_witness :
  Forall (fun c => 0 <= MaxRPM c <= max_int) [Fixtures.two_per_minute] /\
  charges_with_budget (NewKeyRotator [Fixtures.two_per_minute]) Fixtures.busy_minute = true /\
  Forall within_budget
    (pool_run (NewKeyRotator [Fixtures.two_per_minute]) Fixtures.busy_minute).
Proof.
  assert (Hcfg : Forall (fun c => 0 <= MaxRPM c <= max_int) [Fixtures.two_per_minute]).
  { repeat constructor; vm_compute; discriminate. }
  split; [exact Hcfg|]. split; [vm_compute; reflexivity|].
  apply (usage_within_budget [Fixtures.two_per_minute] Fixtures.busy_minute Hcfg).
  vm_compute; reflexivity.
Defined.

(** C4, the claim as stated fails: with the key of [TestRateLimiting]
    ([MaxRPM = 2]), three acquisitions are granted before any of them is
    released; the three releases leave the counter at 3. *)
Lemma usage_exceeds_budget_in_flight :
  let pool := pool_run (NewKeyRotator [Fixtures.two_per_minute]) Fixtures.three_in_flight in
  pool_grants (NewKeyRotator [Fixtures.two_per_minute]) Fixtures.three_in_flight
    = [Some 0%nat; Some 0%nat; Some 0%nat] /\
  (usageCount <$> pool !! 0%nat) = Some 3 /\
  (MaxRPM <$> (Config <$> pool !! 0%nat)) = Some 2 /\
  ~ Forall within_budget pool.
Proof.
  split; [vm_compute; reflexivity|].
  split; [vm_compute; reflexivity|].
  split; [vm_compute; reflexivity|].
  intros H. apply Forall_cons in H as [[_ H] _].
  vm_compute in H. by apply H.
Qed.

(** C7, the claim as stated fails.  The key of [TestRateLimiting] is first
    acquired at [t0], which starts its counting window, and released at [t0]
    and again forty seconds later.  At [t0] plus 61 seconds the window that
    began at [t0] is over: the pool worded by the specification resets the
    counter and hands the key out; [GetKey] compares with [lastUsed], 21
    seconds back, keeps the counter at 2 and fails. *)
Lemma GetKey_window_counterexample :
  let now := Fixtures.t0 + 61 * time_Second in
  let pool := pool_run (NewKeyRotator [Fixtures.two_per_minute]) Fixtures.busy_minute in
  let spec := SpecPool.run (map SpecPool.create [Fixtures.two_per_minute]) Fixtures.busy_minute in
  (SpecPool.windowStart <$> spec !! 0%nat) = Some Fixtures.t0 /\
  Fixtures.t0 + SpecPool.windowLength <= now /\
  snd (SpecPool.acquire now "openai" spec) = Some 0%nat /\
  (usageCount <$> pool !! 0%nat) = Some 2 /\
  GetKey now "openai" pool = (pool, None).
Proof.
  repeat split; try (vm_compute; reflexivity).
  vm_compute; discriminate.
Qed.

End RotationFacts.

(** ** The response cache *)

Module CacheFacts.

Import Cache.

(** C8 (as amended). [Get] returns the data of an entry only while the
    current time is not after the expiry of the entry: nothing is returned
    once the time is strictly past it, and at the instant of expiry the entry
    is still returned.  [Set] stores the bytes under the key with the expiry
    [now + ttl], whatever was there before, and leaves the other keys and the
    ttl alone. *)
Theorem Get_Set_expiry (now : time_Time) (c : Cache) (key : string) (data : list byte) :
  (forall d, Get now c key = Some d <->
             exists entry, entries c !! key = Some entry /\ Data entry = d /\
                           now <= ExpiresAt entry) /\
  entries (Set_ now c key data) !! key = Some (mkCacheEntry data (now + ttl c)) /\
  (forall key', key' <> key -> entries (Set_ now c key data) !! key' = entries c !! key') /\
  ttl (Set_ now c key data) = ttl c /\
  (forall now', Get now' (Set_ now c key data) key =
                if now + ttl c <? now' then None else Some data).
Proof.
  split; [|split; [|split; [|split]]].
  - intros d. unfold Get, time_After. split.
    + destruct (entries c !! key) as [entry|]; [|done].
      destruct (Z.ltb_spec (ExpiresAt entry) now); [done|].
      intros [= <-]. by exists entry.
    + intros (entry & -> & <- & Hle).
      destruct (Z.ltb_spec (ExpiresAt entry) now); [lia|done].
  - unfold Set_, time_Add. simpl. apply lookup_insert_eq.
  - intros key' Hne. unfold Set_. simpl. by apply lookup_insert_ne.
  - done.
  - intros now'. unfold Get, Set_, time_After, time_Add. simpl.
    by rewrite lookup_insert_eq.
Qed.

(** C8, the claim as stated fails at the instant of expiry: an entry stored
    at [t0] with the five minute ttl of the server is still returned when the
    clock reads exactly its expiry. *)
Lemma Get_at_expiry :
  let c := Set_ Fixtures.t0 (New (5 * time_Minute)) "k" (list_byte_of_string "cached") in
  (ExpiresAt <$> entries c !! "k") = Some (Fixtures.t0 + 5 * time_Minute) /\
  Get (Fixtures.t0 + 5 * time_Minute) c "k" = Some (list_byte_of_string "cached").
Proof.
  split; vm_compute; reflexivity.
Qed.

End CacheFacts.

(** ** The fingerprint *)

Module FingerprintFacts.

Import Proxy.

(** The bytes written to the hash depend on the four fingerprint fields
    only. *)
Lemma cacheKeyInput_same_fields (r1 r2 : LLMRequest) :
  Model r1 = Model r2 ->
  Messages r1 = Messages r2 ->
  MaxTokens r1 = MaxTokens r2 ->
  Temperature r1 = Temperature r2 ->
  cacheKeyInput r1 = cacheKeyInput r2.
Proof.
  intros Hm Hs Ht Hf. unfold cacheKeyInput. by rewrite Hm, Hs, Ht, Hf.
Qed.

(** C5 (as amended). The key is a function of the bytes written to the
    hash: two requests with the same model name, the same messages in the
    same order, the same max-tokens and the same temperature have the same
    key, whatever their other fields. *)
Theorem generateCacheKey_determined (r1 r2 : LLMRequest) :
  Model r1 = Model r2 ->
  Messages r1 = Messages r2 ->
  MaxTokens r1 = MaxTokens r2 ->
  Temperature r1 = Temperature r2 ->
  cacheKeyInput r1 = cacheKeyInput r2 /\ generateCacheKey r1 = generateCacheKey r2.
Proof.
  intros Hm Hs Ht Hf.
  pose proof (cacheKeyInput_same_fields r1 r2 Hm Hs Ht Hf) as Hin.
  split; [done|]. unfold generateCacheKey. by rewrite Hin.
Qed.

Lemma generateCacheKey_determined_witness :
  Prompt Fixtures.hello_user <> Prompt Fixtures.with_prompt /\
  generateCacheKey Fixtures.hello_user = generateCacheKey Fixtures.with_prompt.
Proof.
  split; [discriminate|].
  apply (generateCacheKey_determined Fixtures.hello_user Fixtures.with_prompt);
    reflexivity.
Defined.

(** C5, the claim as stated fails: the fields are written to the hash
    without separators, and the temperature with six decimals.  Requests that
    differ in the role and the content of a message, or in the temperature,
    have the same key. *)
Lemma generateCacheKey_collisions :
  (Messages Fixtures.hello_user <> Messages Fixtures.hello_use /\
   generateCacheKey Fixtures.hello_user = generateCacheKey Fixtures.hello_use) /\
  (Temperature Fixtures.warm <> Temperature Fixtures.warmer /\
   generateCacheKey Fixtures.warm = generateCacheKey Fixtures.warmer).
Proof.
  split; (split; [discriminate|vm_compute; reflexivity]).
Qed.

End FingerprintFacts.

(** ** Routing *)

Module RoutingFacts.

Import Proxy.

Lemma getProviderForModel_cases (model : string) :
  getProviderForModel model = "openai" \/ getProviderForModel model = "anthropic" \/
  getProviderForModel model = "openrouter" \/ getProviderForModel model = "chutes".
Proof.
  unfold getProviderForModel.
  repeat match goal with |- context [if ?b then _ else _] => destruct b end; auto.
Qed.

(** The first rule for the source model decides when it is a round-robin
    rule. *)
Lemma getTargetModel_from_roundrobin env source rules rule w :
  find (fun r => String.eqb (SourceModel r) source) rules = Some rule ->
  SelectionPolicy rule = "roundrobin" ->
  getTargetModel_from env source rules w =
    let '(i, w1) := getNextModelIndex source (Z.of_nat (length (TargetModels rule))) w in
    match i with
    | None => (None, w1)
    | Some idx =>
        match index (TargetModels rule) idx with
        | Some model => (Some (model, getProviderForModel model), w1)
        | None => (None, w1)
        end
    end.
Proof.
  induction rules as [|r rest IH]; simpl; [done|].
  destruct (String.eqb (SourceModel r) source) eqn:E.
  - intros [= ->] Hp. by rewrite Hp.
  - apply IH.
Qed.

(** One resolution under a round-robin rule with three targets: the cursor
    moves to the next position, modulo three, and the target there is
    returned. *)
Lemma getTargetModel_roundrobin_step env w source A B C c :
  find (fun r => String.eqb (SourceModel r) source) (ModelRules (cfg (srv w)))
    = Some (mkModelRule source [A; B; C] "roundrobin") ->
  default 0 (modelCounters (srv w) !! source) = c ->
  0 <= c < 3 ->
  getTargetModel env source w =
    ((fun m => (m, getProviderForModel m)) <$> [A; B; C] !! Z.to_nat ((c + 1) mod 3),
     set_modelCounters (<[source := (c + 1) mod 3]> (modelCounters (srv w))) w).
Proof.
  intros Hfind Hc Hrange. unfold getTargetModel.
  rewrite (getTargetModel_from_roundrobin _ _ _ _ _ Hfind eq_refl).
  unfold getNextModelIndex. rewrite Hc. simpl.
  assert (c = 0 \/ c = 1 \/ c = 2) as [-> | [-> | ->]] by lia; reflexivity.
Qed.

(** C2 (as amended). For a round-robin rule with the targets [A, B, C],
    each resolution advances the cursor of the source model by one position
    modulo three and returns the model at the new position.  With the cursor
    at [c], the [k]-th of [n] resolutions in a row returns the target at
    position [(c + k) mod 3]: on a fresh server, whose cursor is 0, the
    targets are visited in the cyclic order B, C, A, B, C, A, ... *)
Theorem roundrobin_cycle (env : Env) (source A B C : string) (n : nat) :
  forall (w : World) (c : Z),
  find (fun r => String.eqb (SourceModel r) source) (ModelRules (cfg (srv w)))
    = Some (mkModelRule source [A; B; C] "roundrobin") ->
  default 0 (modelCounters (srv w) !! source) = c ->
  0 <= c < 3 ->
  fst (resolutions env n source w) =
    map (fun k => (fun m => (m, getProviderForModel m))
                    <$> [A; B; C] !! Z.to_nat ((c + Z.of_nat k) mod 3))
        (seq 1 n) /\
  default 0 (modelCounters (srv (snd (resolutions env n source w))) !! source)
    = (c + Z.of_nat n) mod 3.
Proof.
  induction n as [|n IH]; intros w c Hfind Hc Hrange.
  - simpl. split; [done|]. rewrite Z.add_0_r, Z.mod_small; lia.
  - cbn [resolutions].
    rewrite (getTargetModel_roundrobin_step env w source A B C c Hfind Hc Hrange).
    set (w1 := set_modelCounters _ w).
    assert (Hrange1 : 0 <= (c + 1) mod 3 < 3) by (apply Z.mod_pos_bound; lia).
    assert (Hc1 : default 0 (modelCounters (srv w1) !! source) = (c + 1) mod 3).
    { unfold w1. simpl. by rewrite lookup_insert_eq. }
    destruct (IH w1 ((c + 1) mod 3) Hfind Hc1 Hrange1) as [IHl IHc].
    destruct (resolutions env n source w1) as [rs w2]. simpl in *.
    split.
    + f_equal. rewrite IHl, <- (seq_shift n 1), map_map.
      apply map_ext. intros k.
      do 3 f_equal. rewrite Z.add_mod_idemp_l by lia. f_equal. lia.
    + rewrite IHc. rewrite Z.add_mod_idemp_l by lia. f_equal. lia.
Qed.

Lemma roundrobin_cycle_witness :
  map (fmap fst)
      (fst (resolutions (Fixtures.env_of Fixtures.healthy) 6 "gpt-3.5-turbo"
              (boot Fixtures.roundrobin_cfg)))
  = [Some "claude-instant"; Some "gpt-4"; Some "gpt-3.5-turbo";
     Some "claude-instant"; Some "gpt-4"; Some "gpt-3.5-turbo"].
Proof.
  rewrite (proj1 (roundrobin_cycle (Fixtures.env_of Fixtures.healthy) "gpt-3.5-turbo"
                    "gpt-3.5-turbo" "claude-instant" "gpt-4" 6
                    (boot Fixtures.roundrobin_cfg) 0 eq_refl eq_refl
                    (conj (Z.le_refl 0) eq_refl))).
  reflexivity.
Defined.

(** C2, the claim as stated fails on the order: on a fresh server the first
    resolution returns the second target, so that three resolutions visit
    B, C, A and not A, B, C. *)
Lemma roundrobin_starts_at_second :
  let visited :=
    map (fmap fst)
        (fst (resolutions (Fixtures.env_of Fixtures.healthy) 3 "gpt-3.5-turbo"
                (boot Fixtures.roundrobin_cfg))) in
  (TargetModels <$> ModelRules Fixtures.roundrobin_cfg !! 0%nat)
    = Some ["gpt-3.5-turbo"; "claude-instant"; "gpt-4"] /\
  visited = [Some "claude-instant"; Some "gpt-4"; Some "gpt-3.5-turbo"] /\
  visited <> [Some "gpt-3.5-turbo"; Some "claude-instant"; Some "gpt-4"].
Proof.
  split; [reflexivity|]. split; [vm_compute; reflexivity|].
  vm_compute. discriminate.
Qed.

End RoutingFacts.

(** ** The request orchestrator *)

Module HandlerFacts.

Import Proxy.

#[local] Arguments rotator_GetKey : simpl never.
#[local] Arguments rotator_ReportUsage : simpl never.
#[local] Arguments cache_Get : simpl never.
#[local] Arguments cache_Set : simpl never.
#[local] Arguments do_request : simpl never.
#[local] Arguments generateCacheKey : simpl never.
#[local] Arguments http_Error : simpl never.

Lemma evolves_refl w : evolves w w.
Proof. repeat split; [lia|]. exists []. by rewrite app_nil_r. Qed.

Lemma evolves_trans w1 w2 w3 : evolves w1 w2 -> evolves w2 w3 -> evolves w1 w3.
Proof.
  intros (Ht1 & Hl1 & Hc1 & m1 & Hm1) (Ht2 & Hl2 & Hc2 & m2 & Hm2).
  repeat split; [lia|congruence|congruence|].
  exists (m1 ++ m2). by rewrite Hm2, Hm1, app_assoc.
Qed.


Lemma evolves_record ev w : evolves w (record ev w).
Proof. repeat split; simpl; [lia|]. by exists [ev]. Qed.

Lemma sent_app l1 l2 : sent (l1 ++ l2) = sent l1 ++ sent l2.
Proof. unfold sent. apply flat_map_app. Qed.

Lemma reported_app l1 l2 : reported (l1 ++ l2) = reported l1 ++ reported l2.
Proof. unfold reported. apply flat_map_app. Qed.

Section WithEnv.

Context (env : Env).

Lemma rotator_GetKey_evolves provider w :
  evolves w (snd (rotator_GetKey env provider w)).
Proof.
  unfold rotator_GetKey.
  destruct (Rotation.GetKey _ _ _) as [ks [key|]]; simpl.
  - repeat split; simpl; [lia|]. by exists [EvAcquired key].
  - repeat split; simpl; [lia|]. exists []. by rewrite app_nil_r.
Qed.

Lemma rotator_GetKey_sent provider w :
  sent (log (snd (rotator_GetKey env provider w))) = sent (log w).
Proof.
  unfold rotator_GetKey.
  destruct (Rotation.GetKey _ _ _) as [ks [key|]]; simpl; [|done].
  by rewrite sent_app, app_nil_r.
Qed.

Lemma rotator_GetKey_log provider w :
  log (snd (rotator_GetKey env provider w)) =
  log w ++ match fst (rotator_GetKey env provider w) with
           | Some key => [EvAcquired key]
           | None => []
           end.
Proof.
  unfold rotator_GetKey.
  destruct (Rotation.GetKey _ _ _) as [ks [key|]]; simpl; [done|].
  by rewrite app_nil_r.
Qed.


Lemma rotator_ReportUsage_sent key w :
  sent (log (rotator_ReportUsage env key w)) = sent (log w).
Proof. unfold rotator_ReportUsage. simpl. by rewrite sent_app, app_nil_r. Qed.

Lemma cache_Set_evolves key data w : evolves w (cache_Set env key data w).
Proof.
  unfold cache_Set. repeat split; simpl; [lia|]. exists []. by rewrite app_nil_r.
Qed.

Lemma do_request_evolves key req w : evolves w (snd (do_request env key req w)).
Proof. unfold do_request. simpl. apply evolves_record. Qed.


Lemma fallbackProbe_sent targets : forall w,
  sent (log (snd (fallbackProbe env targets w))) = sent (log w).
Proof.
  induction targets as [|model rest IH]; intros w; simpl; [done|].
  pose proof (rotator_GetKey_sent (getProviderForModel model) w) as Hg.
  destruct (rotator_GetKey env _ w) as [[key|] w1]; cbn [fst snd] in *.
  - by rewrite rotator_ReportUsage_sent.
  - by rewrite IH.
Qed.


Lemma getTargetModel_from_sent source rules : forall w,
  sent (log (snd (getTargetModel_from env source rules w))) = sent (log w).
Proof.
  induction rules as [|rule rest IH]; intros w; simpl; [done|].
  destruct (String.eqb (SourceModel rule) source); [|apply IH].
  destruct (String.eqb (SelectionPolicy rule) "random").
  { destruct (_ <=? 0); [done|]. by destruct (index _ _). }
  destruct (String.eqb (SelectionPolicy rule) "roundrobin").
  { unfold getNextModelIndex. destruct (_ =? 0); simpl; [done|].
    by destruct (index _ _). }
  destruct (String.eqb (SelectionPolicy rule) "fallback"); [|apply IH].
  pose proof (fallbackProbe_sent (TargetModels rule) w) as Hp.
  destruct (fallbackProbe env _ w) as [[mp|] w1]; cbn [fst snd] in *; [done|].
  by rewrite IH.
Qed.

Lemma fallbackChain_evolves r targets : forall req resp w,
  evolves w (snd (fallbackChain env r req targets resp w)).
Proof.
  induction targets as [|nextModel rest IH]; intros req resp w; cbn [fallbackChain];
    [apply evolves_refl|].
  pose proof (rotator_GetKey_evolves (getProviderForModel nextModel) w) as Hg.
  destruct (rotator_GetKey env _ w) as [[nextKey|] w1]; cbn [fst snd] in *.
  2: { eapply evolves_trans; [exact Hg|apply IH]. }
  destruct (json_Marshal _) as [modifiedBody|]; cbn [fst snd]; [|done].
  destruct (negb _).
  { eapply evolves_trans; [exact Hg|apply IH]. }
  set (proxyReq := mkProxyReq _ _ _ _).
  pose proof (do_request_evolves nextKey proxyReq w1) as Hd.
  destruct (do_request env nextKey proxyReq w1) as [[resp'|last] w2]; cbn [fst snd] in *.
  - destruct (_ =? StatusOK); cbn [fst snd].
    + by eapply evolves_trans.
    + eapply evolves_trans; [exact Hg|]. eapply evolves_trans; [exact Hd|apply IH].
  - eapply evolves_trans; [exact Hg|]. eapply evolves_trans; [exact Hd|apply IH].
Qed.

Lemma finish_evolves cacheKey resp w : evolves w (fst (finish env cacheKey resp w)).
Proof.
  unfold finish. destruct resp as [[resp closed]|]; [|apply evolves_refl].
  destruct (ReadAll resp closed) as [respBody|]; [|apply evolves_refl].
  destruct (checkWriteHeaderCode _); cbn [fst];
    (destruct (_ =? StatusOK); [apply cache_Set_evolves|apply evolves_refl]).
Qed.

Lemma afterAcquire_evolves r req cacheKey targetModel provider key w :
  evolves w (fst (afterAcquire env r req cacheKey targetModel provider key w)).
Proof.
  unfold afterAcquire.
  destruct (json_Marshal _) as [modifiedBody|]; [|apply evolves_refl].
  destruct (targetURL_of _ _) as [targetURL|]; [|apply evolves_refl].
  destruct (negb _); [apply evolves_refl|].
  set (proxyReq := mkProxyReq _ _ _ _).
  pose proof (do_request_evolves key proxyReq w) as Hd.
  destruct (do_request env key proxyReq w) as [[resp|last] w1]; cbn [fst snd] in *; [|done].
  destruct (_ =? StatusTooManyRequests).
  2: { eapply evolves_trans; [exact Hd|apply finish_evolves]. }
  destruct (find _ _) as [rule|].
  2: { eapply evolves_trans; [exact Hd|apply finish_evolves]. }
  pose proof (fallbackChain_evolves r (skipn 1 (TargetModels rule))
                (with_Model targetModel req) (Some (resp, false)) w1) as Hf.
  destruct (fallbackChain env r _ _ _ w1) as [[resp'|reply] w2]; cbn [fst snd] in *.
  - eapply evolves_trans; [exact Hd|]. eapply evolves_trans; [exact Hf|apply finish_evolves].
  - by eapply evolves_trans.
Qed.




(** The provider returned by [getTargetModel] is the classification of the
    model returned. *)
Lemma fallbackProbe_provider targets : forall w model provider w',
  fallbackProbe env targets w = (Some (model, provider), w') ->
  provider = getProviderForModel model.
Proof.
  induction targets as [|m rest IH]; intros w model provider w'; cbn [fallbackProbe]; [done|].
  destruct (rotator_GetKey env _ w) as [[key|] w1]; [|apply IH].
  by intros [= <- <- _].
Qed.

Lemma getTargetModel_provider source w model provider w' :
  getTargetModel env source w = (Some (model, provider), w') ->
  provider = getProviderForModel model.
Proof.
  unfold getTargetModel. generalize (ModelRules (cfg (srv w))). intros rules.
  revert w. induction rules as [|rule rest IH]; intros w; cbn [getTargetModel_from].
  { by intros [= <- <- _]. }
  destruct (String.eqb (SourceModel rule) source); [|apply IH].
  destruct (String.eqb (SelectionPolicy rule) "random").
  { destruct (_ <=? 0); [done|]. destruct (index _ _); [|done]. by intros [= <- <- _]. }
  destruct (String.eqb (SelectionPolicy rule) "roundrobin").
  { destruct (getNextModelIndex _ _ _) as [[idx|] w1]; [|done].
    destruct (index _ _); [|done]. by intros [= <- <- _]. }
  destruct (String.eqb (SelectionPolicy rule) "fallback"); [|apply IH].
  destruct (fallbackProbe env _ w) as [[[m p]|] w1] eqn:Hp; [|apply IH].
  intros [= <- <- _]. by eapply fallbackProbe_provider.
Qed.


(** C9. An inbound body that [json.Unmarshal] rejects, as it rejects every
    body that is not valid JSON, and that does not start with the command
    prefix, is answered with the client error 400 [Invalid request format];
    the state of the process is left as it was: no key is acquired or
    charged, no upstream request is sent. *)
Theorem malformed_body_rejected (r : Request) (w : World) (body : list byte) :
  Body r = Some body ->
  HasPrefix (string_of_list_byte body) "#roxy" = false ->
  json_Unmarshal env body = None ->
  handleProxy env r w = (w, Replied (http_Error "Invalid request format" StatusBadRequest)) /\
  Code (http_Error "Invalid request format" StatusBadRequest) = 400.
Proof.
  intros Hbody Hpre Hjson. split; [|done].
  unfold handleProxy. by rewrite Hbody, Hpre, Hjson.
Qed.

(** C10 (as amended). The model resolved for a request is classified to the
    provider openrouter or chutes.  When [GetKey] hands the handler a key of
    that provider, the handler answers 400 [Unsupported provider] without
    sending an upstream request, and on return charges the key it acquired
    one usage unit: the counter of that key is the count the acquisition
    found (zero after a minute without use) plus one, its stamp the time of
    the charge; no other key is charged.  When [GetKey] hands out no key, the
    handler answers 429 [No available API keys], sends no upstream request
    and charges no key.  (What the resolution of a fallback rule has charged
    before is in the state the acquisition starts from.) *)
Theorem unsupported_provider_charged (r : Request) (w : World) (body : list byte)
    (req : LLMRequest) (w1 w2 : World) (targetModel provider : string) :
  Body r = Some body ->
  HasPrefix (string_of_list_byte body) "#roxy" = false ->
  json_Unmarshal env body = Some req ->
  cache_Get env (generateCacheKey req) w = (None, w1) ->
  getTargetModel env (Model req) w1 = (Some (targetModel, provider), w2) ->
  getProviderForModel targetModel = "openrouter" \/ getProviderForModel targetModel = "chutes" ->
  json_Marshal (with_Model targetModel req) = Some (with_Model targetModel req) ->
  let w' := fst (handleProxy env r w) in
  sent (log w') = sent (log w) /\
  match fst (rotator_GetKey env provider w2) with
  | Some key =>
      snd (handleProxy env r w)
        = Replied (http_Error "Unsupported provider" StatusBadRequest) /\
      Code (http_Error "Unsupported provider" StatusBadRequest) = 400 /\
      log w' = log w2 ++ [EvAcquired key; EvReported key] /\
      (exists k count,
         rotator (srv w2) !! key = Some k /\
         Provider (Rotation.Config k) = provider /\
         ((time_Minute <= time_Sub (clock env (ticks w2)) (Rotation.lastUsed k) /\ count = 0) \/
          (time_Sub (clock env (ticks w2)) (Rotation.lastUsed k) < time_Minute /\
           count = Rotation.usageCount k)) /\
         rotator (srv w') !! key
           = Some (Rotation.mkApiKey (Rotation.Config k) (wrap64 (count + 1))
                     (clock env (S (ticks w2)))))
  | None =>
      snd (handleProxy env r w)
        = Replied (http_Error "No available API keys" StatusTooManyRequests) /\
      Code (http_Error "No available API keys" StatusTooManyRequests) = 429 /\
      log w' = log w2
  end /\
  (forall j k, Some j <> fst (rotator_GetKey env provider w2) ->
     rotator (srv w2) !! j = Some k ->
     exists k', rotator (srv w') !! j = Some k' /\
                Rotation.Config k' = Rotation.Config k /\
                Rotation.lastUsed k' = Rotation.lastUsed k /\
                (Rotation.usageCount k' = Rotation.usageCount k \/
                 Rotation.usageCount k' = 0)).
Proof.
  intros Hbody Hpre Hjson Hget Htm Hprov Hmarshal w'.
  pose proof (getTargetModel_provider _ _ _ _ _ Htm) as ->.
  assert (Hs2 : sent (log w2) = sent (log w)).
  { pose proof (getTargetModel_from_sent (Model req) (ModelRules (cfg (srv w1))) w1) as Hs2.
    fold (getTargetModel env (Model req) w1) in Hs2. rewrite Htm in Hs2. cbn [snd] in Hs2.
    rewrite Hs2. by injection Hget as _ <-. }
  assert (Hrun : handleProxy env r w =
            match rotator_GetKey env (getProviderForModel targetModel) w2 with
            | (Some key, w3) =>
                (rotator_ReportUsage env key w3,
                 Replied (http_Error "Unsupported provider" StatusBadRequest))
            | (None, w3) =>
                (w3, Replied (http_Error "No available API keys" StatusTooManyRequests))
            end).
  { unfold handleProxy. rewrite Hbody, Hpre, Hjson. cbv zeta. rewrite Hget, Htm.
    destruct (rotator_GetKey env _ w2) as [[key|] w3]; [|done].
    assert (Hurl : targetURL_of (cfg (srv w3)) (getProviderForModel targetModel) = None).
    { unfold targetURL_of. by destruct Hprov as [-> | ->]. }
    unfold afterAcquire. cbv zeta. by rewrite Hmarshal, Hurl. }
  unfold w'. rewrite Hrun. clear Hrun w'.
  unfold rotator_GetKey.
  pose proof (RotationFacts.GetKey_scan (clock env (ticks w2))
                (getProviderForModel targetModel) (rotator (srv w2))) as Hscan.
  pose proof (fun j k => RotationFacts.GetKey_uncharged (clock env (ticks w2))
                (getProviderForModel targetModel) (rotator (srv w2)) j k) as Hun.
  destruct (Rotation.GetKey _ _ _) as [ks [key|]]; cbn [fst snd] in *.
  - destruct Hscan as ((k & Hk & Hel & Hk') & _).
    apply RotationFacts.eligible_true in Hel as [Hp _].
    destruct (RotationFacts.refresh_plain (clock env (ticks w2)) k) as (Hc & Hl & Hu).
    split; [|split].
    + rewrite rotator_ReportUsage_sent. cbn [log record]. by rewrite sent_app, app_nil_r.
    + split; [done|]. split; [done|]. split.
      * unfold rotator_ReportUsage. cbn [log record set_rotator tick srv]. by rewrite <- app_assoc.
      * exists k, (Rotation.usageCount (Rotation.refresh (clock env (ticks w2)) k)).
        split; [done|]. split; [done|]. split; [exact Hu|].
        unfold rotator_ReportUsage, Rotation.ReportUsage.
        cbn [srv rotator record set_rotator tick ticks].
        rewrite list_lookup_alter_eq, Hk'. cbn [fmap option_fmap option_map].
        unfold Rotation.charge. by rewrite Hc.
    + intros j kj Hne Hj. destruct (Hun j kj Hj) as (kj' & Hkj' & Hrest).
      exists kj'. split; [|exact Hrest].
      unfold rotator_ReportUsage, Rotation.ReportUsage.
      cbn [srv rotator record set_rotator tick].
      rewrite list_lookup_alter_ne; [done|]. intros ->. by apply Hne.
  - split; [done|]. split; [done|].
    intros j kj _ Hj. destruct (Hun j kj Hj) as (kj' & Hkj' & Hrest). by exists kj'.
Qed.

(** C3 (as amended). Once the handler has acquired the key for the candidate
    it resolved, it charges that key one usage unit when it returns, on every
    path from the acquisition to the return and whatever the outcome: a
    reply from an upstream, an error reply written before or after the
    upstream request, or a panic. *)
Theorem acquired_key_charged_on_return (r : Request) (w : World) (body : list byte)
    (req : LLMRequest) (w1 w2 w3 : World) (targetModel provider : string) (key : nat) :
  Body r = Some body ->
  HasPrefix (string_of_list_byte body) "#roxy" = false ->
  json_Unmarshal env body = Some req ->
  cache_Get env (generateCacheKey req) w = (None, w1) ->
  getTargetModel env (Model req) w1 = (Some (targetModel, provider), w2) ->
  rotator_GetKey env provider w2 = (Some key, w3) ->
  exists w4 out,
    handleProxy env r w = (rotator_ReportUsage env key w4, out) /\
    evolves w3 w4 /\
    log (rotator_ReportUsage env key w4) = log w4 ++ [EvReported key] /\
    (Rotation.usageCount <$> rotator (srv (rotator_ReportUsage env key w4)) !! key) =
      ((fun k => wrap64 (Rotation.usageCount k + 1)) <$> rotator (srv w4) !! key).
Proof.
  intros Hbody Hpre Hjson Hget Htm Hkey.
  pose proof (afterAcquire_evolves r req (generateCacheKey req) targetModel provider key w3) as Hev.
  destruct (afterAcquire env r req (generateCacheKey req) targetModel provider key w3)
    as [w4 out] eqn:Hafter.
  exists w4, out. split; [|split; [done|split; [done|]]].
  - unfold handleProxy. rewrite Hbody, Hpre, Hjson. cbv zeta.
    by rewrite Hget, Htm, Hkey, Hafter.
  - unfold rotator_ReportUsage, Rotation.ReportUsage. cbn [srv rotator record set_rotator].
    rewrite list_lookup_alter_eq. by destruct (rotator (srv w4) !! key) as [k|].
Qed.


End WithEnv.

End HandlerFacts.

(** ** The handler on concrete configurations *)

Module Scenarios.

Import Proxy Fixtures.

(** Discharges the premises of [H], all closed, by evaluation. *)
Ltac by_evaluation H :=
  repeat (lapply H; [clear H; intro H | vm_compute; reflexivity]).

Lemma malformed_body_rejected_witness :
  handleProxy env_ok (post not_json) (boot plain_cfg) =
    (boot plain_cfg, Replied (http_Error "Invalid request format" StatusBadRequest)).
Proof.
  apply (HandlerFacts.malformed_body_rejected env_ok (post not_json) (boot plain_cfg) not_json);
    vm_compute; reflexivity.
Defined.

Lemma unsupported_provider_charged_witness :
  let run := handleProxy env_ok (post (chat_body "openrouter/auto" "Hello")) (boot plain_cfg) in
  snd run = Replied (http_Error "Unsupported provider" StatusBadRequest) /\
  sent (log (fst run)) = [] /\
  log (fst run) = [EvAcquired 1; EvReported 1] /\
  map Rotation.usageCount (rotator (srv (fst run))) = [0; 1].
Proof.
  intros run.
  pose proof (HandlerFacts.unsupported_provider_charged env_ok
                (post (chat_body "openrouter/auto" "Hello")) (boot plain_cfg)
                (chat_body "openrouter/auto" "Hello") (chat_request "openrouter/auto" "Hello")
                (tick (boot plain_cfg)) (tick (boot plain_cfg))
                "openrouter/auto" "openrouter") as H.
  by_evaluation H.
  lapply H; [clear H; intro H | left; vm_compute; reflexivity].
  by_evaluation H. cbv zeta in H. destruct H as (Hsent & Hkey & _).
  assert (Hgranted : fst (rotator_GetKey env_ok "openrouter" (tick (boot plain_cfg)))
                     = Some 1%nat) by (vm_compute; reflexivity).
  rewrite Hgranted in Hkey. destruct Hkey as (Hout & _ & Hlog & _).
  split; [exact Hout|]. split; [exact Hsent|]. split; [exact Hlog|].
  vm_compute; reflexivity.
Defined.

(** C10, the claim as stated fails.  With no OpenRouter key in the pool a
    request resolved to an OpenRouter model is answered 429
    [No available API keys], and nothing is charged.  When the model is
    reached through a fallback rule, the key is charged twice while the
    request is handled: once by the resolution, once on return.  And when
    that key has a budget of one, the resolution charges it and uses the
    budget up, so that the handler gets no key and answers 429 with one unit
    charged. *)
Lemma unsupported_provider_without_key :
  (let run := handleProxy env_ok (post (chat_body "openrouter/auto" "Hello"))
                (boot openai_only_cfg) in
   fst (getTargetModel env_ok "openrouter/auto" (tick (boot openai_only_cfg)))
     = Some ("openrouter/auto", "openrouter") /\
   snd run = Replied (http_Error "No available API keys" StatusTooManyRequests) /\
   log (fst run) = []) /\
  (let run := handleProxy env_ok (post (chat_body "auto" "Hello"))
                (boot openrouter_rule_cfg) in
   snd run = Replied (http_Error "Unsupported provider" StatusBadRequest) /\
   log (fst run) = [EvAcquired 0; EvReported 0; EvAcquired 0; EvReported 0] /\
   map Rotation.usageCount (rotator (srv (fst run))) = [2]) /\
  (let run := handleProxy env_ok (post (chat_body "auto" "Hello"))
                (boot openrouter_once_cfg) in
   fst (getTargetModel env_ok "auto" (tick (boot openrouter_once_cfg)))
     = Some ("openrouter/auto", "openrouter") /\
   snd run = Replied (http_Error "No available API keys" StatusTooManyRequests) /\
   log (fst run) = [EvAcquired 0; EvReported 0] /\
   map Rotation.usageCount (rotator (srv (fst run))) = [1]).
Proof.
  split; [|split]; repeat split; vm_compute; reflexivity.
Qed.

Lemma acquired_key_charged_on_return_witness :
  exists w4 out,
    handleProxy env_busy (post (chat_body "gpt-4" "Hello")) (boot test_cfg)
      = (rotator_ReportUsage env_busy 0 w4, out) /\
    sent_models (log w4) = ["gpt-4"; "claude-2"] /\
    log (rotator_ReportUsage env_busy 0 w4) = log w4 ++ [EvReported 0].
Proof.
  pose proof (HandlerFacts.acquired_key_charged_on_return env_busy
                (post (chat_body "gpt-4" "Hello")) (boot test_cfg)
                (chat_body "gpt-4" "Hello") (chat_request "gpt-4" "Hello")
                (tick (boot test_cfg))
                (snd (getTargetModel env_busy "gpt-4" (tick (boot test_cfg))))
                (snd (rotator_GetKey env_busy "openai"
                        (snd (getTargetModel env_busy "gpt-4" (tick (boot test_cfg))))))
                "gpt-4" "openai" 0) as H.
  by_evaluation H.
  destruct H as (w4 & out & Hrun & Hev & Hlog & Hcount).
  exists w4, out. split; [exact Hrun|]. split; [|exact Hlog].
  assert (Hfst : fst (handleProxy env_busy (post (chat_body "gpt-4" "Hello")) (boot test_cfg))
                 = rotator_ReportUsage env_busy 0 w4) by (by rewrite Hrun).
  assert (Hsent : sent_models (log (rotator_ReportUsage env_busy 0 w4)) = ["gpt-4"; "claude-2"]).
  { rewrite <- Hfst. vm_compute; reflexivity. }
  unfold sent_models in *. by rewrite HandlerFacts.rotator_ReportUsage_sent in Hsent.
Defined.

(** C3, the claim as stated fails.  On the configuration and the request of
    [TestProxyServer] with the OpenAI upstream rate limited, the key of slot 0
    is charged by the resolution of the fallback rule before any upstream
    request, and again on return, two units for one request sent with it; the
    key of slot 1, acquired in the retry loop and used for the request that
    succeeds, is never charged.  And a request for an OpenRouter model
    charges the OpenRouter key although no upstream request is sent. *)
Lemma retry_key_never_charged :
  (let run := handleProxy env_busy (post (chat_body "gpt-4" "Hello")) (boot test_cfg) in
   sent_keys (log (fst run)) = [0; 1]%nat /\
   reported (log (fst run)) = [0; 0]%nat /\
   map Rotation.usageCount (rotator (srv (fst run))) = [2; 0] /\
   snd run = Replied (mkReply StatusOK ∅ (text "Mock response for: claude-2"))) /\
  (let run := handleProxy env_ok (post (chat_body "openrouter/auto" "Hello"))
                (boot plain_cfg) in
   sent_keys (log (fst run)) = [] /\
   reported (log (fst run)) = [1]%nat /\
   map Rotation.usageCount (rotator (srv (fst run))) = [0; 1]).
Proof.
  split; repeat split; vm_compute; reflexivity.
Qed.


(** C1, the code at the failing input and beside it.  With the rule of
    [TestProxyServer], whose source model is also its first target, a 429 for
    gpt-4 is followed by a request for claude-2, whose reply is returned and
    cached under the fingerprint of the request as it came in.  With the same
    targets under a source name of its own, the rule is looked up by the
    substituted model name, is not found, and the 429 of gpt-4 goes back to
    the caller: no request for claude-2 is sent. *)
Theorem fallback_lost_under_alias :
  (let run := handleProxy env_busy (post (chat_body "gpt-4" "Hello")) (boot test_cfg) in
   sent_models (log (fst run)) = ["gpt-4"; "claude-2"] /\
   snd run = Replied (mkReply StatusOK ∅ (text "Mock response for: claude-2")) /\
   (Cache.Data <$> Cache.entries (cache (srv (fst run)))
                     !! generateCacheKey (chat_request "gpt-4" "Hello"))
     = Some (text "Mock response for: claude-2") /\
   Cache.entries (cache (srv (fst run))) !! generateCacheKey (chat_request "claude-2" "Hello")
     = None) /\
  (let run := handleProxy env_busy (post (chat_body "fast" "Hello")) (boot alias_cfg) in
   fst (getTargetModel env_busy "fast" (tick (boot alias_cfg))) = Some ("gpt-4", "openai") /\
   sent_models (log (fst run)) = ["gpt-4"] /\
   snd run = Replied (mkReply StatusTooManyRequests ∅ (text "rate limit exceeded")) /\
   Cache.entries (cache (srv (fst run))) = ∅).
Proof.
  split; repeat split; vm_compute; reflexivity.
Qed.

End Scenarios.

(** * Further properties of the code *)

(** ** The credential pool over runs *)

Module PoolFacts.

Import Rotation Runs.

Lemma GetKey_Config now provider keys :
  map Config (fst (GetKey now provider keys)) = map Config keys.
Proof.
  induction keys as [|key rest IH]; simpl; [done|].
  destruct (negb _); [|destruct (_ <? _)]; simpl;
    try (destruct (GetKey now provider rest); simpl in * );
    rewrite ?RotationFacts.refresh_Config; congruence.
Qed.

Lemma ReportUsage_Config now i keys :
  map Config (ReportUsage now i keys) = map Config keys.
Proof.
  unfold ReportUsage. revert i.
  induction keys as [|key rest IH]; intros [|i]; simpl; try done.
  f_equal. apply IH.
Qed.

(** X1. No sequence of [GetKey] and [ReportUsage] calls changes the
    configuration of a key, the order of the keys or their number: the pool
    holds the keys it was created with, slot by slot; only counters and
    stamps move. *)
Theorem pool_run_Config (ops : list PoolOp) (keys : KeyRotator) :
  map Config (pool_run keys ops) = map Config keys /\
  length (pool_run keys ops) = length keys.
Proof.
  assert (H : map Config (pool_run keys ops) = map Config keys).
  { revert keys. induction ops as [|op ops IH]; intros keys; simpl; [done|].
    rewrite IH. destruct op; simpl; [apply GetKey_Config|apply ReportUsage_Config]. }
  split; [done|]. by rewrite <- (length_map Config), H, length_map.
Qed.

Lemma refresh_exhausted now key :
  0 < MaxRPM (Config key) -> has_budget (refresh now key) = false -> refresh now key = key.
Proof.
  unfold has_budget, refresh. destruct (_ <=? _); [|done].
  simpl. intros Hpos Hb. apply Z.ltb_ge in Hb. lia.
Qed.

(** X2. A [GetKey] that fails on a pool whose keys all have a positive
    [MaxRPM] leaves the pool as it was: it has reset no counter, since a key
    of the provider whose counter is reset to zero has budget and is
    returned. *)
Theorem GetKey_failure_leaves_pool (now : time_Time) (provider : string)
    (keys keys' : KeyRotator) :
  Forall (fun key => 0 < MaxRPM (Config key)) keys ->
  GetKey now provider keys = (keys', None) ->
  keys' = keys.
Proof.
  intros Hpos Hget.
  pose proof (RotationFacts.GetKey_scan now provider keys) as Hscan.
  pose proof (RotationFacts.GetKey_length now provider keys) as Hlen.
  rewrite Hget in Hscan, Hlen. cbn [fst] in Hlen.
  apply list_eq. intros j.
  destruct (keys !! j) as [key|] eqn:Hj.
  - destruct (Hscan j key Hj) as [Hel ->]. f_equal.
    destruct (String.eqb (Provider (Config key)) provider) eqn:Hp; [|done].
    apply refresh_exhausted.
    + by apply (Forall_lookup_1 _ _ _ _ Hpos Hj).
    + unfold eligible in Hel. by rewrite Hp in Hel.
  - apply lookup_ge_None in Hj. apply lookup_ge_None. lia.
Qed.

Lemma GetKey_fresh now provider configs :
  Forall (fun c => 0 < MaxRPM c) configs ->
  snd (GetKey now provider (NewKeyRotator configs)) = first_of provider configs.
Proof.
  induction 1 as [|c rest Hc Hrest IH]; simpl; [done|].
  destruct (String.eqb (Provider c) provider); simpl.
  - assert (usageCount (refresh now (mkApiKey c 0 time_zero)) = 0) as Hz.
    { rewrite RotationFacts.refresh_usageCount. simpl. by destruct (_ <=? _). }
    rewrite Hz, RotationFacts.refresh_Config. simpl.
    destruct (Z.ltb_spec 0 (MaxRPM c)); [done|lia].
  - fold (NewKeyRotator rest).
    destruct (GetKey now provider (NewKeyRotator rest)) as [ks r]. simpl in *. by rewrite IH.
Qed.

(** X3. On the pool just built by [NewKeyRotator] from keys with a
    positive [MaxRPM], [GetKey] returns, at any time, the first configured
    key of the provider asked for; it fails exactly when no key is configured
    for that provider. *)
Theorem first_acquisition (now : time_Time) (provider : string) (configs : list APIKeyConfig) :
  Forall (fun c => 0 < MaxRPM c) configs ->
  snd (GetKey now provider (NewKeyRotator configs)) = first_of provider configs /\
  (first_of provider configs = None <-> Forall (fun c => Provider c <> provider) configs).
Proof.
  intros Hpos. split; [by apply GetKey_fresh|].
  clear Hpos. induction configs as [|c rest IH]; simpl.
  - split; [constructor|done].
  - destruct (String.eqb_spec (Provider c) provider) as [Hp|Hp].
    + split; [done|]. intros H. apply Forall_cons in H as [H _]. done.
    + split.
      * intros H. constructor; [done|]. apply IH. by destruct (first_of provider rest).
      * intros H. apply Forall_cons in H as [_ H]. apply IH in H. by rewrite H.
Qed.

Lemma last_cons (t : Z) rest lu : List.last (t :: rest) lu = List.last rest t.
Proof.
  revert t lu. induction rest as [|a rest IH]; intros t lu; [done|].
  change (List.last (t :: a :: rest) lu) with (List.last (a :: rest) lu).
  by rewrite (IH a lu), (IH a t).
Qed.

Lemma burst_run cfg ts : forall c lu,
  0 <= c -> c + Z.of_nat (length ts) <= MaxRPM cfg -> MaxRPM cfg <= max_int ->
  dense lu ts = true ->
  pool_run [mkApiKey cfg c lu] (burst (Provider cfg) ts)
    = [mkApiKey cfg (c + Z.of_nat (length ts)) (List.last ts lu)] /\
  pool_grants [mkApiKey cfg c lu] (burst (Provider cfg) ts)
    = repeat (Some 0%nat) (length ts).
Proof.
  induction ts as [|t rest IH]; intros c lu Hc Hm Hmax Hd.
  - simpl. by rewrite Z.add_0_r.
  - cbn [dense] in Hd. apply andb_prop in Hd as [Hgap Hd]. apply Z.ltb_lt in Hgap.
    cbn [burst flat_map cycle app pool_run fold_left pool_grants length repeat].
    assert (Hget : GetKey t (Provider cfg) [mkApiKey cfg c lu]
                   = ([mkApiKey cfg c lu], Some 0%nat)).
    { simpl. rewrite String.eqb_refl. simpl. unfold refresh. simpl.
      destruct (Z.leb_spec time_Minute (time_Sub t lu)); [lia|]. simpl.
      destruct (Z.ltb_spec c (MaxRPM cfg)); [done|]. cbn [length] in Hm. lia. }
    cbn [pool_step]. rewrite Hget. cbn [fst snd pool_step].
    assert (Hrep : ReportUsage t 0 [mkApiKey cfg c lu] = [mkApiKey cfg (c + 1) t]).
    { unfold ReportUsage, charge. simpl. rewrite RotationFacts.wrap64_small; [done|].
      cbn [length] in Hm. unfold min_int, max_int in *. lia. }
    rewrite Hrep. cbn [length] in Hm.
    destruct (IH (c + 1) t) as [IHrun IHgr]; [lia|lia|done|done|].
    fold (burst (Provider cfg) rest). fold (pool_run [mkApiKey cfg (c + 1) t] (burst (Provider cfg) rest)).
    rewrite IHrun, IHgr. split; [|done].
    rewrite last_cons. do 2 f_equal. lia.
Qed.

(** X4. A pool of one key with [MaxRPM] equal to n, used n times, each
    acquisition released at once and less than a minute after the one
    before: all n acquisitions are granted, the counter ends at n with the
    time of the last release as stamp; after that [GetKey] fails at every
    time less than a minute past the last release and leaves the pool alone,
    and at every time a minute or more past it resets the counter to zero
    and grants the key. *)
Theorem burst_exhausts_then_recovers (cfg : APIKeyConfig) (t1 : time_Time)
    (rest : list time_Time) :
  Z.of_nat (length (t1 :: rest)) = MaxRPM cfg ->
  MaxRPM cfg <= max_int ->
  dense t1 rest = true ->
  let ops := burst (Provider cfg) (t1 :: rest) in
  let last_use := List.last rest t1 in
  let pool := pool_run (NewKeyRotator [cfg]) ops in
  pool_grants (NewKeyRotator [cfg]) ops = repeat (Some 0%nat) (length (t1 :: rest)) /\
  pool = [mkApiKey cfg (MaxRPM cfg) last_use] /\
  (forall now, time_Sub now last_use < time_Minute ->
               GetKey now (Provider cfg) pool = (pool, None)) /\
  (forall now, time_Minute <= time_Sub now last_use ->
               GetKey now (Provider cfg) pool = ([mkApiKey cfg 0 last_use], Some 0%nat)).
Proof.
  intros Hlen Hmax Hd ops last_use pool.
  assert (Hfirst : GetKey t1 (Provider cfg) (NewKeyRotator [cfg])
                   = ([mkApiKey cfg 0 time_zero], Some 0%nat)).
  { simpl. rewrite String.eqb_refl. simpl.
    assert (refresh t1 (mkApiKey cfg 0 time_zero) = mkApiKey cfg 0 time_zero) as ->.
    { unfold refresh. simpl. by destruct (_ <=? _). }
    simpl. destruct (Z.ltb_spec 0 (MaxRPM cfg)); [done|]. cbn [length] in Hlen. lia. }
  assert (Hrep : ReportUsage t1 0 [mkApiKey cfg 0 time_zero] = [mkApiKey cfg 1 t1]).
  { reflexivity. }
  cbn [length] in Hlen.
  destruct (burst_run cfg rest 1 t1) as [Hrun Hgr]; [lia|lia|done|done|].
  assert (Hpool : pool = [mkApiKey cfg (MaxRPM cfg) last_use]).
  { unfold pool, ops.
    cbn [burst flat_map cycle app pool_run fold_left pool_step].
    rewrite Hfirst. cbn [fst]. rewrite Hrep.
    fold (burst (Provider cfg) rest). fold (pool_run [mkApiKey cfg 1 t1] (burst (Provider cfg) rest)).
    rewrite Hrun. do 2 f_equal. lia. }
  split; [|split; [done|split]].
  - unfold ops. cbn [burst flat_map cycle app pool_grants pool_step length repeat].
    rewrite Hfirst. cbn [fst snd]. rewrite Hrep.
    fold (burst (Provider cfg) rest). by rewrite Hgr.
  - intros now Hnow. rewrite Hpool. simpl. rewrite String.eqb_refl. simpl.
    unfold refresh. simpl. destruct (Z.leb_spec time_Minute (time_Sub now last_use)); [lia|].
    simpl. by rewrite Z.ltb_irrefl.
  - intros now Hnow. rewrite Hpool. simpl. rewrite String.eqb_refl. simpl.
    unfold refresh. simpl. destruct (Z.leb_spec time_Minute (time_Sub now last_use)); [|lia].
    simpl. destruct (Z.ltb_spec 0 (MaxRPM cfg)); [done|lia].
Qed.

End PoolFacts.

(** ** The cache over sequences of writes, and the resolution of a model *)

Module CacheWriteFacts.

Import Cache Runs.

Lemma stores_other_keys writes : forall c key,
  Forall (fun w => snd (fst w) <> key) writes ->
  entries (stores c writes) !! key = entries c !! key /\
  ttl (stores c writes) = ttl c.
Proof.
  induction writes as [|[[t k] d] rest IH]; intros c key Hne; [done|].
  apply Forall_cons in Hne as [Hk Hrest]. simpl in Hk.
  unfold stores. cbn [fold_left fst snd].
  destruct (IH (Set_ t c k d) key Hrest) as [IHe IHt].
  unfold stores in IHe, IHt. rewrite IHe, IHt. split; [|done].
  unfold Set_. simpl. by rewrite lookup_insert_ne.
Qed.

(** X5. What [Set] stores under a key is what [Get] of that key returns
    after any number of [Set] calls on other keys, until the clock is past
    the time of the store plus the ttl; from then on [Get] returns
    nothing. *)
Theorem stored_entry_survives (writes : list (time_Time * string * list byte))
    (c : Cache) (now now' : time_Time) (key : string) (data : list byte) :
  Forall (fun w => snd (fst w) <> key) writes ->
  Get now' (stores (Set_ now c key data) writes) key =
    if now + ttl c <? now' then None else Some data.
Proof.
  intros Hne.
  destruct (stores_other_keys writes (Set_ now c key data) key Hne) as [He _].
  unfold Get. rewrite He. unfold Set_, time_After, time_Add. simpl.
  by rewrite lookup_insert_eq.
Qed.

End CacheWriteFacts.

Module ResolutionFacts.

Import Proxy.

#[local] Arguments rotator_GetKey : simpl never.
#[local] Arguments rotator_ReportUsage : simpl never.

Lemma HasPrefix_first (s : string) (c : ascii) (prefix : string) :
  HasPrefix s (String c prefix) = true -> exists s', s = String c s'.
Proof.
  destruct s as [|c' s']; simpl; [done|].
  destruct (Ascii.eqb_spec c' c) as [->|]; [|done]. by exists s'.
Qed.

Lemma HasPrefix_second (s : string) (c1 c2 : ascii) (prefix : string) :
  HasPrefix s (String c1 (String c2 prefix)) = true ->
  exists s', s = String c1 (String c2 s').
Proof.
  intros H. destruct (HasPrefix_first _ _ _ H) as [s1 ->]. simpl in H.
  rewrite Ascii.eqb_refl in H. simpl in H.
  destruct (HasPrefix_first _ _ _ H) as [s2 ->]. by exists s2.
Qed.

Ltac settle :=
  repeat split; intros;
  repeat match goal with
         | H : _ /\ _ |- _ => destruct H
         | H : _ \/ _ |- _ => destruct H
         end;
  try done; try discriminate; auto.

(** X6. [getProviderForModel] by the prefix of the model name: Anthropic
    exactly for the names that start with [claude-], OpenRouter exactly for
    [openrouter/], Chutes exactly for [chutes/], OpenAI for every other
    name, with or without the prefix [gpt-].  The handler has a target URL
    for every model except those of OpenRouter and Chutes. *)
Theorem provider_of_model (c : Config) (model : string) :
  (getProviderForModel model = "anthropic" <-> HasPrefix model "claude-" = true) /\
  (getProviderForModel model = "openrouter" <-> HasPrefix model "openrouter/" = true) /\
  (getProviderForModel model = "chutes" <-> HasPrefix model "chutes/" = true) /\
  (getProviderForModel model = "openai" <->
     HasPrefix model "claude-" = false /\ HasPrefix model "openrouter/" = false /\
     HasPrefix model "chutes/" = false) /\
  (targetURL_of c (getProviderForModel model) = None <->
     HasPrefix model "openrouter/" = true \/ HasPrefix model "chutes/" = true).
Proof.
  unfold getProviderForModel, targetURL_of.
  destruct (HasPrefix model "gpt-") eqn:Hg.
  { apply HasPrefix_first in Hg as [s' ->]. simpl. settle. }
  destruct (HasPrefix model "claude-") eqn:Hc.
  { apply HasPrefix_second in Hc as [s' ->]. simpl. settle. }
  destruct (HasPrefix model "openrouter/") eqn:Ho.
  { apply HasPrefix_first in Ho as [s' ->]. simpl. settle. }
  destruct (HasPrefix model "chutes/") eqn:Hh.
  { simpl. settle. }
  simpl. settle.
Qed.

Lemma index_elem_of targets idx model :
  index targets idx = Some model -> model ∈ targets.
Proof.
  unfold index. destruct (_ <? 0); [done|]. apply list_elem_of_lookup_2.
Qed.

Section WithEnv.

Context (env : Env).

Lemma rotator_GetKey_Some provider w key w' :
  rotator_GetKey env provider w = (Some key, w') ->
  log w' = log w ++ [EvAcquired key] /\
  exists k, rotator (srv w') !! key = Some k /\ Provider (Rotation.Config k) = provider.
Proof.
  unfold rotator_GetKey.
  destruct (Rotation.GetKey _ _ _) as [ks [i|]] eqn:Hget; [|done].
  intros [= <- <-]. split; [done|]. simpl.
  destruct (RotationFacts.GetKey_grants_below_budget _ _ _ _ _ Hget) as (k & Hk & Hp & _).
  by exists k.
Qed.

Lemma rotator_GetKey_None provider w w' :
  rotator_GetKey env provider w = (None, w') -> log w' = log w.
Proof.
  unfold rotator_GetKey.
  destruct (Rotation.GetKey _ _ _) as [ks [i|]]; [done|]. by intros [= <-].
Qed.

Lemma ReportUsage_Provider now key keys i :
  (Provider ∘ Rotation.Config <$> Rotation.ReportUsage now key keys !! i)
  = (Provider ∘ Rotation.Config <$> keys !! i).
Proof.
  unfold Rotation.ReportUsage. destruct (decide (key = i)) as [->|Hne].
  - rewrite list_lookup_alter_eq. by destruct (keys !! i).
  - by rewrite list_lookup_alter_ne.
Qed.

(** The probe of a fallback rule: a target of the rule, at the price of one
    usage unit of a key of its provider; or nothing. *)
Lemma fallbackProbe_spec targets : forall w,
  match fallbackProbe env targets w with
  | (Some (model, provider), w') =>
      model ∈ targets /\ provider = getProviderForModel model /\
      exists key, log w' = log w ++ [EvAcquired key; EvReported key] /\
                  (Provider ∘ Rotation.Config <$> rotator (srv w') !! key) = Some provider
  | (None, w') => log w' = log w
  end.
Proof.
  induction targets as [|m rest IH]; intros w; cbn [fallbackProbe]; [done|].
  destruct (rotator_GetKey env (getProviderForModel m) w) as [[key|] w1] eqn:Hget.
  - apply rotator_GetKey_Some in Hget as (Hlog & k & Hk & Hp).
    split; [apply list_elem_of_here|]. split; [done|]. exists key. split.
    + unfold rotator_ReportUsage. simpl. by rewrite Hlog, <- app_assoc.
    + unfold rotator_ReportUsage. simpl. rewrite ReportUsage_Provider, Hk. simpl. by rewrite Hp.
  - apply rotator_GetKey_None in Hget. specialize (IH w1).
    destruct (fallbackProbe env rest w1) as [[[model provider]|] w'].
    + destruct IH as (Hin & Hp & key & Hlog & Hk). split; [by apply list_elem_of_further|].
      split; [done|]. exists key. by rewrite Hlog, Hget.
    + by rewrite IH.
Qed.

Lemma getTargetModel_from_spec source rules : forall w,
  match getTargetModel_from env source rules w with
  | (Some (model, provider), w') =>
      provider = getProviderForModel model /\
      (model = source \/
       exists rule, rule ∈ rules /\ SourceModel rule = source /\ model ∈ TargetModels rule) /\
      (log w' = log w \/
       exists rule key, rule ∈ rules /\ SourceModel rule = source /\
                        SelectionPolicy rule = "fallback" /\
                        log w' = log w ++ [EvAcquired key; EvReported key])
  | (None, w') => log w' = log w
  end.
Proof.
  induction rules as [|rule rest IH]; intros w; cbn [getTargetModel_from].
  { split; [done|]. split; by left. }
  assert (Hrest : match getTargetModel_from env source rest w with
    | (Some (model, provider), w') =>
        provider = getProviderForModel model /\
        (model = source \/
         exists rule0, rule0 ∈ rule :: rest /\ SourceModel rule0 = source /\
                       model ∈ TargetModels rule0) /\
        (log w' = log w \/
         exists rule0 key, rule0 ∈ rule :: rest /\ SourceModel rule0 = source /\
                          SelectionPolicy rule0 = "fallback" /\
                          log w' = log w ++ [EvAcquired key; EvReported key])
    | (None, w') => log w' = log w
    end).
  { specialize (IH w). destruct (getTargetModel_from env source rest w) as [[[m p]|] w']; [|done].
    destruct IH as (Hp & Hm & Hl). split; [done|]. split.
    - destruct Hm as [->|(r0 & Hin & Hs & Hm)]; [by left|right].
      exists r0. split; [by apply list_elem_of_further|done].
    - destruct Hl as [->|(r0 & key & Hin & Hs & Hpol & Hl)]; [by left|right].
      exists r0, key. split; [by apply list_elem_of_further|done]. }
  destruct (String.eqb_spec (SourceModel rule) source) as [Hsrc|Hsrc]; [|exact Hrest].
  destruct (String.eqb_spec (SelectionPolicy rule) "random") as [Hpol|Hpol].
  { destruct (_ <=? 0); [done|].
    destruct (index _ _) as [model|] eqn:Hidx; [|done].
    split; [done|]. split; [|by left]. right. exists rule.
    split; [apply list_elem_of_here|]. split; [done|]. by eapply index_elem_of. }
  destruct (String.eqb_spec (SelectionPolicy rule) "roundrobin") as [Hpol2|Hpol2].
  { unfold getNextModelIndex. destruct (_ =? 0); [done|].
    destruct (index _ _) as [model|] eqn:Hidx; [|done].
    split; [done|]. split; [|by left]. right. exists rule.
    split; [apply list_elem_of_here|]. split; [done|]. by eapply index_elem_of. }
  destruct (String.eqb_spec (SelectionPolicy rule) "fallback") as [Hpol3|Hpol3]; [|exact Hrest].
  pose proof (fallbackProbe_spec (TargetModels rule) w) as Hprobe.
  destruct (fallbackProbe env (TargetModels rule) w) as [[[m p]|] w1].
  - destruct Hprobe as (Hin & Hp & key & Hlog & _). split; [done|]. split.
    + right. exists rule. split; [apply list_elem_of_here|done].
    + right. exists rule, key. split; [apply list_elem_of_here|done].
  - specialize (IH w1).
    destruct (getTargetModel_from env source rest w1) as [[[m p]|] w']; [|by rewrite IH].
    destruct IH as (Hp & Hm & Hl). split; [done|]. split.
    + destruct Hm as [->|(r0 & Hin & Hs & Hm)]; [by left|right].
      exists r0. split; [by apply list_elem_of_further|done].
    + rewrite Hprobe in Hl.
      destruct Hl as [->|(r0 & key & Hin & Hs & Hpol' & Hl)]; [by left|right].
      exists r0, key. split; [by apply list_elem_of_further|done].
Qed.

(** X7. Whatever the policy, the model [getTargetModel] returns is the
    source model itself or one of the target models of a rule for that
    source model, and the provider returned with it is the one
    [getProviderForModel] gives for the model returned. *)
Theorem resolved_candidate_is_configured (source : string) (w w' : World)
    (model provider : string) :
  getTargetModel env source w = (Some (model, provider), w') ->
  provider = getProviderForModel model /\
  (model = source \/
   exists rule, rule ∈ ModelRules (cfg (srv w)) /\ SourceModel rule = source /\
                model ∈ TargetModels rule).
Proof.
  intros Hres. pose proof (getTargetModel_from_spec source (ModelRules (cfg (srv w))) w) as H.
  fold (getTargetModel env source w) in H. rewrite Hres in H.
  by destruct H as (? & ? & _).
Qed.

(** X8. [getTargetModel] sends nothing upstream.  It either leaves the log
    of the process as it was or, under a [fallback] rule for the source
    model, acquires one key and charges that same key at once (the probe of
    the first target with an available key). *)
Theorem resolution_cost (source : string) (w : World) :
  let w' := snd (getTargetModel env source w) in
  log w' = log w \/
  exists rule key, rule ∈ ModelRules (cfg (srv w)) /\ SourceModel rule = source /\
                   SelectionPolicy rule = "fallback" /\
                   log w' = log w ++ [EvAcquired key; EvReported key].
Proof.
  intros w'. unfold w'.
  pose proof (getTargetModel_from_spec source (ModelRules (cfg (srv w))) w) as H.
  fold (getTargetModel env source w) in H.
  destruct (getTargetModel env source w) as [[[m p]|] w1]; cbn [snd].
  - by destruct H as (_ & _ & H).
  - by left.
Qed.

(** X9. When every rule is for another source model or has a selection
    policy that is not, byte for byte, [random], [roundrobin] or [fallback],
    [getTargetModel] returns the source model with its own provider and
    changes nothing: a rule with a policy in another spelling is passed
    over. *)
Theorem unmatched_rules_are_skipped (source : string) (w : World) :
  Forall (fun rule => SourceModel rule <> source \/
                      (SelectionPolicy rule <> "random" /\
                       SelectionPolicy rule <> "roundrobin" /\
                       SelectionPolicy rule <> "fallback"))
         (ModelRules (cfg (srv w))) ->
  getTargetModel env source w = (Some (source, getProviderForModel source), w).
Proof.
  unfold getTargetModel. generalize (ModelRules (cfg (srv w))). intros rules.
  induction 1 as [|rule rest Hrule Hrest IH]; cbn [getTargetModel_from]; [done|].
  destruct (String.eqb_spec (SourceModel rule) source) as [Hsrc|Hsrc]; [|exact IH].
  destruct Hrule as [Hne|(H1 & H2 & H3)]; [done|].
  destruct (String.eqb_spec (SelectionPolicy rule) "random"); [done|].
  destruct (String.eqb_spec (SelectionPolicy rule) "roundrobin"); [done|].
  destruct (String.eqb_spec (SelectionPolicy rule) "fallback"); [done|].
  exact IH.
Qed.

End WithEnv.

End ResolutionFacts.

(** ** What one handling sends upstream and writes to the cache *)

Module UpstreamFacts.

Import Proxy Frames.

#[local] Arguments rotator_GetKey : simpl never.
#[local] Arguments rotator_ReportUsage : simpl never.
#[local] Arguments cache_Get : simpl never.
#[local] Arguments cache_Set : simpl never.
#[local] Arguments do_request : simpl never.
#[local] Arguments generateCacheKey : simpl never.
#[local] Arguments http_Error : simpl never.

Lemma quiet_refl w : quiet w w.
Proof. by repeat split. Qed.

Lemma quiet_trans w1 w2 w3 : quiet w1 w2 -> quiet w2 w3 -> quiet w1 w3.
Proof.
  intros (H1 & H2 & H3 & H4) (G1 & G2 & G3 & G4). repeat split; congruence.
Qed.

Section WithEnv.

Context (env : Env).

Lemma rotator_GetKey_quiet provider w : quiet w (snd (rotator_GetKey env provider w)).
Proof.
  unfold rotator_GetKey. by destruct (Rotation.GetKey _ _ _) as [ks [key|]].
Qed.

Lemma rotator_ReportUsage_quiet key w : quiet w (rotator_ReportUsage env key w).
Proof. done. Qed.

Lemma do_request_quiet key req w : quiet w (snd (do_request env key req w)).
Proof. done. Qed.

Lemma fallbackProbe_quiet targets : forall w, quiet w (snd (fallbackProbe env targets w)).
Proof.
  induction targets as [|model rest IH]; intros w; cbn [fallbackProbe]; [apply quiet_refl|].
  pose proof (rotator_GetKey_quiet (getProviderForModel model) w) as Hg.
  destruct (rotator_GetKey env _ w) as [[key|] w1]; cbn [fst snd] in *.
  - eapply quiet_trans; [exact Hg|]. apply rotator_ReportUsage_quiet.
  - eapply quiet_trans; [exact Hg|]. apply IH.
Qed.

Lemma fallbackChain_quiet r targets : forall req resp w,
  quiet w (snd (fallbackChain env r req targets resp w)).
Proof.
  induction targets as [|nextModel rest IH]; intros req resp w; cbn [fallbackChain];
    [apply quiet_refl|].
  pose proof (rotator_GetKey_quiet (getProviderForModel nextModel) w) as Hg.
  destruct (rotator_GetKey env _ w) as [[nextKey|] w1]; cbn [fst snd] in *.
  2: { eapply quiet_trans; [exact Hg|apply IH]. }
  destruct (json_Marshal _) as [modifiedBody|]; cbn [fst snd]; [|done].
  destruct (negb _).
  { eapply quiet_trans; [exact Hg|apply IH]. }
  set (proxyReq := mkProxyReq _ _ _ _).
  pose proof (do_request_quiet nextKey proxyReq w1) as Hd.
  destruct (do_request env nextKey proxyReq w1) as [[resp'|last] w2]; cbn [fst snd] in *.
  - destruct (_ =? StatusOK); cbn [fst snd].
    + by eapply quiet_trans.
    + eapply quiet_trans; [exact Hg|]. eapply quiet_trans; [exact Hd|apply IH].
  - eapply quiet_trans; [exact Hg|]. eapply quiet_trans; [exact Hd|apply IH].
Qed.

(** Routing leaves the configuration and the cache alone. *)
Lemma getTargetModel_from_cache source rules : forall w,
  cache (srv (snd (getTargetModel_from env source rules w))) = cache (srv w) /\
  cfg (srv (snd (getTargetModel_from env source rules w))) = cfg (srv w).
Proof.
  induction rules as [|rule rest IH]; intros w; cbn [getTargetModel_from]; [done|].
  destruct (String.eqb (SourceModel rule) source); [|apply IH].
  destruct (String.eqb (SelectionPolicy rule) "random").
  { destruct (_ <=? 0); [done|]. by destruct (index _ _). }
  destruct (String.eqb (SelectionPolicy rule) "roundrobin").
  { unfold getNextModelIndex. destruct (_ =? 0); [done|]. by destruct (index _ _). }
  destruct (String.eqb (SelectionPolicy rule) "fallback"); [|apply IH].
  pose proof (fallbackProbe_quiet (TargetModels rule) w) as (Hc & _ & Hca & _).
  destruct (fallbackProbe env _ w) as [[mp|] w1]; cbn [fst snd] in *; [done|].
  destruct (IH w1) as [-> ->]. done.
Qed.

(** The last part of the handler writes the cache only with a 200. *)
Lemma finish_cache cacheKey resp w :
  let '(w', out) := finish env cacheKey resp w in
  cfg (srv w') = cfg (srv w) /\ modelCounters (srv w') = modelCounters (srv w) /\
  (cache (srv w') = cache (srv w) \/
   exists reply, out = Replied reply /\ Code reply = StatusOK /\
     cache (srv w') = Cache.Set_ (clock env (ticks w)) (cache (srv w)) cacheKey (reply_Body reply)).
Proof.
  unfold finish. destruct resp as [[resp closed]|]; [|by repeat split; try left].
  destruct (ReadAll resp closed) as [respBody|]; [|by repeat split; try left].
  destruct (Z.eqb_spec (StatusCode resp) StatusOK) as [Hok|Hne].
  - rewrite Hok. change (checkWriteHeaderCode StatusOK) with true. cbv iota.
    split; [done|]. split; [done|]. right. eexists. split; [done|]. by split.
  - destruct (checkWriteHeaderCode _); (split; [done|]); (split; [done|]); by left.
Qed.

Lemma afterAcquire_cache r req cacheKey targetModel provider key w :
  let '(w', out) := afterAcquire env r req cacheKey targetModel provider key w in
  cfg (srv w') = cfg (srv w) /\ modelCounters (srv w') = modelCounters (srv w) /\
  (cache (srv w') = cache (srv w) \/
   exists reply t, out = Replied reply /\ Code reply = StatusOK /\
     cache (srv w') = Cache.Set_ t (cache (srv w)) cacheKey (reply_Body reply)).
Proof.
  unfold afterAcquire.
  destruct (json_Marshal _) as [modifiedBody|]; [|by repeat split; try left].
  destruct (targetURL_of _ _) as [targetURL|]; [|by repeat split; try left].
  destruct (negb _); [by repeat split; try left|].
  set (proxyReq := mkProxyReq _ _ _ _).
  pose proof (do_request_quiet key proxyReq w) as (Hq1 & Hq2 & Hq3 & _).
  destruct (do_request env key proxyReq w) as [[resp|last] w1]; cbn [fst snd] in *;
    [|by repeat split; try left].
  assert (Hfin : forall resp0 w0,
            cfg (srv w0) = cfg (srv w) -> modelCounters (srv w0) = modelCounters (srv w) ->
            cache (srv w0) = cache (srv w) ->
            let '(w', out) := finish env cacheKey resp0 w0 in
            cfg (srv w') = cfg (srv w) /\ modelCounters (srv w') = modelCounters (srv w) /\
            (cache (srv w') = cache (srv w) \/
             exists reply t, out = Replied reply /\ Code reply = StatusOK /\
               cache (srv w') = Cache.Set_ t (cache (srv w)) cacheKey (reply_Body reply))).
  { intros resp0 w0 H1 H2 H3. pose proof (finish_cache cacheKey resp0 w0) as Hf.
    destruct (finish env cacheKey resp0 w0) as [w' out].
    destruct Hf as (F1 & F2 & F3). split; [congruence|]. split; [congruence|].
    destruct F3 as [F3|(reply & F3 & F4 & F5)]; [left; congruence|right].
    exists reply, (clock env (ticks w0)). by rewrite <- H3. }
  destruct (_ =? StatusTooManyRequests); [|by apply Hfin].
  destruct (find _ _) as [rule|]; [|by apply Hfin].
  pose proof (fallbackChain_quiet r (skipn 1 (TargetModels rule))
                (with_Model targetModel req) (Some (resp, false)) w1) as (Hc1 & Hc2 & Hc3 & _).
  destruct (fallbackChain env r _ _ _ w1) as [[resp'|reply'] w2]; cbn [fst snd] in *.
  - apply Hfin; congruence.
  - split; [congruence|]. split; [congruence|]. left. congruence.
Qed.

(** X10. Handling a request that is not a command never changes the
    configuration, and writes the cache in one case only: the reply is a 200,
    and the entry written is the body of that reply under the fingerprint of
    the request as decoded from the inbound body.  No error reply is ever
    cached. *)
Theorem errors_never_cached (r : Request) (w : World) (body : list byte) :
  Body r = Some body ->
  HasPrefix (string_of_list_byte body) "#roxy" = false ->
  let w' := fst (handleProxy env r w) in
  let out := snd (handleProxy env r w) in
  cfg (srv w') = cfg (srv w) /\
  (cache (srv w') = cache (srv w) \/
   exists req reply t,
     json_Unmarshal env body = Some req /\ out = Replied reply /\ Code reply = StatusOK /\
     cache (srv w') = Cache.Set_ t (cache (srv w)) (generateCacheKey req) (reply_Body reply)).
Proof.
  intros Hbody Hpre. unfold handleProxy. rewrite Hbody, Hpre.
  destruct (json_Unmarshal env body) as [req|]; [|by split; [|left]].
  cbv zeta. unfold cache_Get.
  destruct (Cache.Get _ _ _) as [data|]; [by split; [|left]|].
  pose proof (getTargetModel_from_cache (Model req) (ModelRules (cfg (srv (tick w)))) (tick w))
    as [Hca2 Hcf2].
  fold (getTargetModel env (Model req) (tick w)) in Hca2, Hcf2.
  change (srv (tick w)) with (srv w) in Hca2, Hcf2.
  destruct (getTargetModel env (Model req) (tick w)) as [[[targetModel provider]|] w2];
    cbn [fst snd] in *; [|by split; [|left]].
  pose proof (rotator_GetKey_quiet provider w2) as (Hq1 & _ & Hq3 & _).
  destruct (rotator_GetKey env provider w2) as [[key|] w3]; cbn [fst snd] in *.
  2: { split; [congruence|left; congruence]. }
  pose proof (afterAcquire_cache r req (generateCacheKey req) targetModel provider key w3) as Ha.
  destruct (afterAcquire env r req (generateCacheKey req) targetModel provider key w3)
    as [w4 out]. cbn [fst snd].
  destruct Ha as (A1 & _ & A3). split; [unfold rotator_ReportUsage; simpl; congruence|].
  destruct A3 as [A3|(reply & t & A3 & A4 & A5)].
  - left. unfold rotator_ReportUsage; simpl. congruence.
  - right. exists req, reply, t. repeat split; try done.
    unfold rotator_ReportUsage; simpl. rewrite A5. by rewrite Hq3, Hca2.
Qed.


(** *** The upstream requests of one handling *)

Lemma json_Marshal_Some req payload : json_Marshal req = Some payload -> payload = req.
Proof. unfold json_Marshal. destruct (_ =? _); [done|]. by intros [= <-]. Qed.

Lemma with_Model_twice m m' req : with_Model m (with_Model m' req) = with_Model m req.
Proof. done. Qed.

Lemma do_request_sent key req w :
  sent (log (snd (do_request env key req w))) = sent (log w) ++ [req].
Proof. unfold do_request. simpl. by rewrite HandlerFacts.sent_app. Qed.

Lemma max_targets_ge rule rules :
  rule ∈ rules -> (length (TargetModels rule) <= max_targets rules)%nat.
Proof.
  induction 1 as [rule rest|rule r0 rest Hin IH]; simpl; lia.
Qed.

Lemma fallbackChain_sent r req0 targets : forall req resp w,
  (exists m, req = with_Model m req0) ->
  let '(exit, w') := fallbackChain env r req targets resp w in
  exists new,
    sent (log w') = sent (log w) ++ new /\
    (length new <= length targets)%nat /\
    Forall (wire_ok (cfg (srv w)) r req0) new /\
    chain_exit resp new exit.
Proof.
  induction targets as [|nextModel rest IH]; intros req resp w Hreq; cbn [fallbackChain].
  { exists []. rewrite app_nil_r. split; [done|]. split; [done|].
    split; [constructor|by left]. }
  pose proof (HandlerFacts.rotator_GetKey_sent env (getProviderForModel nextModel) w) as Hs1.
  pose proof (rotator_GetKey_quiet (getProviderForModel nextModel) w) as (Hc1 & _).
  destruct (rotator_GetKey env _ w) as [[nextKey|] w1]; cbn [fst snd] in *.
  2: { specialize (IH req resp w1 Hreq).
       destruct (fallbackChain env r req rest resp w1) as [exit w'].
       destruct IH as (new & Hs & Hlen & Hwire & Hexit).
       exists new. rewrite Hs, Hs1, <- Hc1. split; [done|]. split; [cbn [length]; lia|done]. }
  destruct (json_Marshal _) as [modifiedBody|] eqn:Hm.
  2: { exists []. rewrite app_nil_r. split; [done|]. split; [cbn [length]; lia|].
       split; [constructor|done]. }
  apply json_Marshal_Some in Hm. subst modifiedBody.
  assert (Hreq' : exists m, with_Model nextModel req = with_Model m req0).
  { destruct Hreq as [m ->]. by exists nextModel. }
  destruct (negb _).
  { specialize (IH (with_Model nextModel req) resp w1 Hreq').
    destruct (fallbackChain env r _ rest resp w1) as [exit w'].
    destruct IH as (new & Hs & Hlen & Hwire & Hexit).
    exists new. rewrite Hs, Hs1, <- Hc1. split; [done|]. split; [cbn [length]; lia|done]. }
  set (proxyReq := mkProxyReq _ _ _ _).
  assert (Hq : wire_ok (cfg (srv w)) r req0 proxyReq).
  { destruct Hreq as [m ->]. exists nextModel, (secret nextKey w1).
    unfold proxyReq. cbn [pr_Method pr_Body pr_URL pr_Header]. by rewrite Hc1. }
  pose proof (do_request_sent nextKey proxyReq w1) as Hs2.
  pose proof (do_request_quiet nextKey proxyReq w1) as (Hc2 & _).
  destruct (do_request env nextKey proxyReq w1) as [[resp'|last] w2]; cbn [fst snd] in *.
  - destruct (Z.eqb_spec (StatusCode resp') StatusOK) as [Hok|Hne].
    + exists [proxyReq]. rewrite Hs2, Hs1. split; [done|]. split; [cbn [length]; lia|].
      split; [by constructor|]. right. split; [done|]. right. exists resp'. by left.
    + specialize (IH (with_Model nextModel req) (Some (resp', true)) w2 Hreq').
      destruct (fallbackChain env r _ rest _ w2) as [exit w'].
      destruct IH as (new & Hs & Hlen & Hwire & Hexit).
      exists (proxyReq :: new). rewrite Hs, Hs2, Hs1, <- app_assoc.
      split; [done|]. split; [cbn [length]; lia|]. split.
      * constructor; [done|]. by rewrite <- Hc1, <- Hc2.
      * destruct exit as [res|reply]; [|done]. right. split; [done|].
        destruct Hexit as [[_ ->]|[_ Hres]]; [|done].
        right. exists resp'. by right.
  - specialize (IH (with_Model nextModel req) ((fun resp' => (resp', true)) <$> last) w2 Hreq').
    destruct (fallbackChain env r _ rest _ w2) as [exit w'].
    destruct IH as (new & Hs & Hlen & Hwire & Hexit).
    exists (proxyReq :: new). rewrite Hs, Hs2, Hs1, <- app_assoc.
    split; [done|]. split; [cbn [length]; lia|]. split.
    + constructor; [done|]. by rewrite <- Hc1, <- Hc2.
    + destruct exit as [res|reply]; [|done]. right. split; [done|].
      destruct Hexit as [[_ ->]|[_ Hres]]; [|done].
      destruct last as [resp'|]; [|by left]. right. exists resp'. by right.
Qed.

Lemma finish_sent cacheKey resp w :
  sent (log (fst (finish env cacheKey resp w))) = sent (log w).
Proof.
  unfold finish. destruct resp as [[resp closed]|]; [|done].
  destruct (ReadAll resp closed); [|done].
  by destruct (checkWriteHeaderCode _), (_ =? StatusOK).
Qed.

Lemma finish_masked cacheKey res w :
  (res = None \/
   exists resp', (res = Some (resp', false) /\ StatusCode resp' = StatusOK) \/
                 res = Some (resp', true)) ->
  masked (snd (finish env cacheKey res w)).
Proof.
  unfold finish, masked, ReadAll.
  intros [->|(resp' & [[-> Hok]| ->])]; [by left| |].
  - rewrite Hok. change (checkWriteHeaderCode StatusOK) with true. cbv iota.
    destruct (resp_Body resp') as [|[content|]]; cbn [snd]; right; eexists;
      (split; [done|]); [by left|by left|right; by left].
  - destruct (resp_Body resp') as [|read].
    + destruct (checkWriteHeaderCode _); cbn [snd]; [|by left].
      right. eexists. split; [done|]. cbn [Code reply_Body].
      destruct (Z.eq_dec (StatusCode resp') StatusOK) as [Hok|Hne]; [by left|].
      right. right. by split.
    + right. eexists. split; [done|]. right. by left.
Qed.

Lemma afterAcquire_sent r req cacheKey targetModel key w :
  let '(w', out) := afterAcquire env r req cacheKey targetModel
                      (getProviderForModel targetModel) key w in
  exists new,
    sent (log w') = sent (log w) ++ new /\
    (length new <= Nat.max 1 (max_targets (ModelRules (cfg (srv w)))))%nat /\
    Forall (wire_ok (cfg (srv w)) r req) new /\
    ((2 <= length new)%nat -> masked out).
Proof.
  unfold afterAcquire.
  assert (Hnone : forall (out : Outcome), exists new : list ProxyReq,
            sent (log w) = sent (log w) ++ new /\
            (length new <= Nat.max 1 (max_targets (ModelRules (cfg (srv w)))))%nat /\
            Forall (wire_ok (cfg (srv w)) r req) new /\
            ((2 <= length new)%nat -> masked out)).
  { intros out. exists []. rewrite app_nil_r. split; [done|]. split; [cbn [length]; lia|].
    split; [constructor|]. cbn [length]. lia. }
  destruct (json_Marshal _) as [modifiedBody|] eqn:Hm; [|apply Hnone].
  apply json_Marshal_Some in Hm. subst modifiedBody.
  destruct (targetURL_of _ _) as [targetURL|] eqn:Hurl; [|apply Hnone].
  destruct (negb _); [apply Hnone|].
  set (proxyReq := mkProxyReq _ _ _ _).
  assert (Hq : wire_ok (cfg (srv w)) r req proxyReq).
  { exists targetModel, (secret key w). unfold proxyReq.
    cbn [pr_Method pr_Body pr_URL pr_Header]. by rewrite Hurl. }
  pose proof (do_request_sent key proxyReq w) as Hs1.
  pose proof (do_request_quiet key proxyReq w) as (Hc1 & _).
  assert (Hsingle : (length [proxyReq] <= Nat.max 1 (max_targets (ModelRules (cfg (srv w)))))%nat
                    /\ Forall (wire_ok (cfg (srv w)) r req) [proxyReq]
                    /\ forall out, (2 <= length [proxyReq])%nat -> masked out).
  { split; [cbn [length]; lia|]. split; [by constructor|]. cbn [length]. lia. }
  destruct Hsingle as (Hl1 & Hw1 & Hm1).
  destruct (do_request env key proxyReq w) as [[resp|last] w1]; cbn [fst snd] in *.
  2: { exists [proxyReq]. split; [done|]. split; [done|]. split; [done|apply Hm1]. }
  assert (Hone : forall res,
            let '(w', out) := finish env cacheKey res w1 in
            exists new,
              sent (log w') = sent (log w) ++ new /\
              (length new <= Nat.max 1 (max_targets (ModelRules (cfg (srv w)))))%nat /\
              Forall (wire_ok (cfg (srv w)) r req) new /\
              ((2 <= length new)%nat -> masked out)).
  { intros res. pose proof (finish_sent cacheKey res w1) as Hf.
    destruct (finish env cacheKey res w1) as [w' out]. cbn [fst] in Hf.
    exists [proxyReq]. rewrite Hf, Hs1. split; [done|]. split; [done|].
    split; [done|apply Hm1]. }
  destruct (_ =? StatusTooManyRequests); [|apply Hone].
  destruct (find _ _) as [rule|] eqn:Hfind; [|apply Hone].
  apply find_some in Hfind as [Hin _]. rewrite Hc1 in Hin.
  apply list_elem_of_In, max_targets_ge in Hin.
  pose proof (fallbackChain_sent r req (skipn 1 (TargetModels rule))
                (with_Model targetModel req) (Some (resp, false)) w1
                (ex_intro _ targetModel eq_refl)) as Hchain.
  destruct (fallbackChain env r _ _ _ w1) as [exit w2].
  destruct Hchain as (new & Hs & Hlen & Hwire & Hexit).
  rewrite length_skipn in Hlen.
  assert (Hbound : (length (proxyReq :: new)
                    <= Nat.max 1 (max_targets (ModelRules (cfg (srv w)))))%nat).
  { cbn [length]. lia. }
  rewrite Hc1 in Hwire.
  destruct exit as [res|reply].
  - pose proof (finish_sent cacheKey res w2) as Hf.
    pose proof (finish_masked cacheKey res w2) as Hmask.
    destruct (finish env cacheKey res w2) as [w' out]. cbn [fst snd] in *.
    exists (proxyReq :: new). rewrite Hf, Hs, Hs1, <- app_assoc.
    split; [done|]. split; [done|]. split; [by constructor|].
    intros Htwo. apply Hmask.
    destruct Hexit as [[-> _]|[_ Hres]]; [cbn [length] in Htwo; lia|done].
  - exists (proxyReq :: new). rewrite Hs, Hs1, <- app_assoc.
    split; [done|]. split; [done|]. split; [by constructor|].
    intros _. right. exists reply. split; [done|]. right. by left.
Qed.

(** The requests one handling sends. *)
Lemma handleProxy_sent r w body :
  Body r = Some body ->
  HasPrefix (string_of_list_byte body) "#roxy" = false ->
  exists new,
    sent (log (fst (handleProxy env r w))) = sent (log w) ++ new /\
    (length new <= Nat.max 1 (max_targets (ModelRules (cfg (srv w)))))%nat /\
    (forall req, json_Unmarshal env body = Some req ->
                 Forall (wire_ok (cfg (srv w)) r req) new) /\
    ((2 <= length new)%nat -> masked (snd (handleProxy env r w))).
Proof.
  intros Hbody Hpre.
  assert (Hnone : forall (w0 : World) (out : Outcome),
            sent (log w0) = sent (log w) ->
            exists new : list ProxyReq,
              sent (log (fst (w0, out))) = sent (log w) ++ new /\
              (length new <= Nat.max 1 (max_targets (ModelRules (cfg (srv w)))))%nat /\
              (forall req, json_Unmarshal env body = Some req ->
                           Forall (wire_ok (cfg (srv w)) r req) new) /\
              ((2 <= length new)%nat -> masked (snd (w0, out)))).
  { intros w0 out Hs. exists []. cbn [fst]. rewrite app_nil_r. split; [done|].
    split; [cbn [length]; lia|]. split; [intros; constructor|]. cbn [length]. lia. }
  unfold handleProxy. rewrite Hbody, Hpre.
  destruct (json_Unmarshal env body) as [req|]; [|by apply Hnone].
  cbv zeta. unfold cache_Get.
  destruct (Cache.Get _ _ _) as [data|]; [by apply Hnone|].
  pose proof (getTargetModel_from_cache (Model req) (ModelRules (cfg (srv (tick w)))) (tick w))
    as [_ Hcf2].
  pose proof (HandlerFacts.getTargetModel_from_sent env (Model req)
                (ModelRules (cfg (srv (tick w)))) (tick w)) as Hs2.
  fold (getTargetModel env (Model req) (tick w)) in Hcf2, Hs2.
  change (srv (tick w)) with (srv w) in Hcf2. change (log (tick w)) with (log w) in Hs2.
  destruct (getTargetModel env (Model req) (tick w)) as [[[targetModel provider]|] w2] eqn:Htm;
    cbn [fst snd] in *; [|by apply Hnone].
  apply HandlerFacts.getTargetModel_provider in Htm. subst provider.
  pose proof (rotator_GetKey_quiet (getProviderForModel targetModel) w2) as (Hq1 & _).
  pose proof (HandlerFacts.rotator_GetKey_sent env (getProviderForModel targetModel) w2) as Hs3.
  destruct (rotator_GetKey env _ w2) as [[key|] w3]; cbn [fst snd] in *.
  2: { apply Hnone. congruence. }
  pose proof (afterAcquire_sent r req (generateCacheKey req) targetModel key w3) as Ha.
  destruct (afterAcquire env r req (generateCacheKey req) targetModel _ key w3) as [w4 out].
  destruct Ha as (new & Hs & Hlen & Hwire & Hmask).
  exists new. cbn [fst snd]. rewrite HandlerFacts.rotator_ReportUsage_sent, Hs, Hs3, Hs2.
  rewrite Hq1, Hcf2 in Hlen, Hwire.
  split; [done|]. split; [done|]. split; [|done]. by intros req' [= <-].
Qed.

(** X11. One handling of a request that is not a command sends at most
    max(1, m) upstream requests, m the length of the longest target list of
    a rule; the requests sent before are still in the log, in their
    order. *)
Theorem upstream_requests_bounded (r : Request) (w : World) (body : list byte) :
  Body r = Some body ->
  HasPrefix (string_of_list_byte body) "#roxy" = false ->
  exists new,
    sent (log (fst (handleProxy env r w))) = sent (log w) ++ new /\
    (length new <= Nat.max 1 (max_targets (ModelRules (cfg (srv w)))))%nat.
Proof.
  intros Hbody Hpre.
  destruct (handleProxy_sent r w body Hbody Hpre) as (new & Hs & Hlen & _).
  by exists new.
Qed.

(** X12. When the handler has sent two or more upstream requests for one
    inbound request (the retry loop has sent one) and returns a reply, the
    reply is a 200, or a 500, or it has no content and another status than
    200: the content of a retry response that is not a 200 never reaches the
    caller, as its body is closed before it is read. *)
Theorem failed_retry_content_not_forwarded (r : Request) (w : World) (body : list byte)
    (reply : Reply) :
  Body r = Some body ->
  HasPrefix (string_of_list_byte body) "#roxy" = false ->
  (length (sent (log w)) + 2 <= length (sent (log (fst (handleProxy env r w)))))%nat ->
  snd (handleProxy env r w) = Replied reply ->
  Code reply = StatusOK \/ Code reply = StatusInternalServerError \/
  (reply_Body reply = [] /\ Code reply <> StatusOK).
Proof.
  intros Hbody Hpre Htwo Hout.
  destruct (handleProxy_sent r w body Hbody Hpre) as (new & Hs & _ & _ & Hmask).
  rewrite Hs, length_app in Htwo.
  destruct Hmask as [Hp|(reply' & Hr & Hcode)]; [lia|congruence|].
  rewrite Hout in Hr. by injection Hr as <-.
Qed.

(** X13. Every upstream request sent while an inbound request is handled
    has the method of the inbound request, the decoded payload with only the
    model name replaced, the URL configured for the provider of that model
    name (the empty URL when there is none) and the headers of the inbound
    request with the authentication header of that provider set. *)
Theorem upstream_requests_wire (r : Request) (w : World) (body : list byte)
    (req : LLMRequest) :
  Body r = Some body ->
  HasPrefix (string_of_list_byte body) "#roxy" = false ->
  json_Unmarshal env body = Some req ->
  exists new,
    sent (log (fst (handleProxy env r w))) = sent (log w) ++ new /\
    Forall (wire_ok (cfg (srv w)) r req) new.
Proof.
  intros Hbody Hpre Hjson.
  destruct (handleProxy_sent r w body Hbody Hpre) as (new & Hs & _ & Hwire & _).
  exists new. split; [done|]. by apply Hwire.
Qed.

End WithEnv.

End UpstreamFacts.

(** ** The keys behind the upstream requests *)

Module KeyFacts.

Import Proxy Frames.

#[local] Arguments rotator_GetKey : simpl never.
#[local] Arguments rotator_ReportUsage : simpl never.
#[local] Arguments cache_Get : simpl never.
#[local] Arguments cache_Set : simpl never.
#[local] Arguments do_request : simpl never.
#[local] Arguments generateCacheKey : simpl never.
#[local] Arguments http_Error : simpl never.

Lemma keyed_run_refl r w : keyed_run r w w.
Proof. split; [done|]. exists []. by rewrite app_nil_r. Qed.

Lemma keyed_run_trans r w1 w2 w3 : keyed_run r w1 w2 -> keyed_run r w2 w3 -> keyed_run r w1 w3.
Proof.
  intros (Hk1 & mid1 & Hl1 & Hf1) (Hk2 & mid2 & Hl2 & Hf2). unfold same_keys in *.
  split; [congruence|]. exists (mid1 ++ mid2). split.
  - by rewrite Hl2, Hl1, <- app_assoc.
  - apply Forall_app. split; [done|]. by rewrite <- Hk1.
Qed.

(** A step that leaves the pool and the log alone. *)
Lemma keyed_run_silent r w w' :
  rotator (srv w') = rotator (srv w) -> log w' = log w -> keyed_run r w w'.
Proof.
  intros Hr Hl. split; [unfold same_keys; by rewrite Hr|].
  exists []. by rewrite app_nil_r.
Qed.

Section WithEnv.

Context (env : Env).

Lemma rotator_GetKey_keyed r provider w :
  keyed_run r w (snd (rotator_GetKey env provider w)).
Proof.
  unfold rotator_GetKey.
  pose proof (PoolFacts.GetKey_Config (clock env (ticks w)) provider (rotator (srv w))) as Hc.
  destruct (Rotation.GetKey _ _ _) as [ks [key|]]; cbn [fst snd] in *.
  - split; [exact Hc|]. exists [EvAcquired key]. split; [done|]. by constructor.
  - split; [exact Hc|]. exists []. split; [by rewrite app_nil_r|constructor].
Qed.

Lemma rotator_ReportUsage_keyed r key w : keyed_run r w (rotator_ReportUsage env key w).
Proof.
  split; [apply PoolFacts.ReportUsage_Config|].
  exists [EvReported key]. split; [done|]. by constructor.
Qed.

Lemma do_request_keyed r key url payload w k :
  rotator (srv w) !! key = Some k ->
  Provider (Rotation.Config k) = getProviderForModel (Model payload) ->
  keyed_run r w
    (snd (do_request env key
            (mkProxyReq (Method r) url
               (setAuth (getProviderForModel (Model payload)) (secret key w)
                  (copyHeaders ∅ (Header r)))
               payload) w)).
Proof.
  intros Hk Hp. split; [done|]. eexists [_]. split; [done|].
  constructor; [|constructor]. exists (Rotation.Config k).
  split; [by rewrite list_lookup_fmap, Hk|]. split; [done|].
  cbn [pr_Header]. unfold secret. by rewrite Hk, Hp.
Qed.

Lemma fallbackProbe_keyed r targets : forall w,
  keyed_run r w (snd (fallbackProbe env targets w)).
Proof.
  induction targets as [|model rest IH]; intros w; cbn [fallbackProbe];
    [apply keyed_run_refl|].
  pose proof (rotator_GetKey_keyed r (getProviderForModel model) w) as Hg.
  destruct (rotator_GetKey env _ w) as [[key|] w1]; cbn [fst snd] in *.
  - eapply keyed_run_trans; [exact Hg|]. apply rotator_ReportUsage_keyed.
  - eapply keyed_run_trans; [exact Hg|]. apply IH.
Qed.

Lemma getTargetModel_from_keyed r source rules : forall w,
  keyed_run r w (snd (getTargetModel_from env source rules w)).
Proof.
  induction rules as [|rule rest IH]; intros w; cbn [getTargetModel_from];
    [apply keyed_run_refl|].
  destruct (String.eqb (SourceModel rule) source); [|apply IH].
  destruct (String.eqb (SelectionPolicy rule) "random").
  { destruct (_ <=? 0); [apply keyed_run_refl|].
    destruct (index _ _); by apply keyed_run_silent. }
  destruct (String.eqb (SelectionPolicy rule) "roundrobin").
  { unfold getNextModelIndex. destruct (_ =? 0); [apply keyed_run_refl|].
    destruct (index _ _); by apply keyed_run_silent. }
  destruct (String.eqb (SelectionPolicy rule) "fallback"); [|apply IH].
  pose proof (fallbackProbe_keyed r (TargetModels rule) w) as Hp.
  destruct (fallbackProbe env _ w) as [[mp|] w1]; cbn [fst snd] in *; [done|].
  eapply keyed_run_trans; [exact Hp|apply IH].
Qed.

Lemma fallbackChain_keyed r targets : forall req resp w,
  keyed_run r w (snd (fallbackChain env r req targets resp w)).
Proof.
  induction targets as [|nextModel rest IH]; intros req resp w; cbn [fallbackChain];
    [apply keyed_run_refl|].
  pose proof (rotator_GetKey_keyed r (getProviderForModel nextModel) w) as Hg.
  destruct (rotator_GetKey env _ w) as [[nextKey|] w1] eqn:Hget; cbn [fst snd] in *.
  2: { eapply keyed_run_trans; [exact Hg|apply IH]. }
  apply ResolutionFacts.rotator_GetKey_Some in Hget as (_ & k & Hk & Hp).
  destruct (json_Marshal _) as [modifiedBody|] eqn:Hm; cbn [fst snd]; [|done].
  apply UpstreamFacts.json_Marshal_Some in Hm. subst modifiedBody.
  destruct (negb _).
  { eapply keyed_run_trans; [exact Hg|apply IH]. }
  pose proof (do_request_keyed r nextKey
                (default EmptyString (targetURL_of (cfg (srv w1)) (getProviderForModel nextModel)))
                (with_Model nextModel req) w1 k Hk Hp) as Hd.
  cbn [with_Model Model] in Hd.
  change (mkLLMRequest nextModel (Messages req) (Prompt req) (MaxTokens req) (Temperature req))
    with (with_Model nextModel req) in Hd.
  destruct (do_request env nextKey _ w1) as [[resp'|last] w2]; cbn [fst snd] in *.
  - destruct (_ =? StatusOK); cbn [fst snd].
    + by eapply keyed_run_trans.
    + eapply keyed_run_trans; [exact Hg|]. eapply keyed_run_trans; [exact Hd|apply IH].
  - eapply keyed_run_trans; [exact Hg|]. eapply keyed_run_trans; [exact Hd|apply IH].
Qed.

Lemma finish_keyed r cacheKey resp w : keyed_run r w (fst (finish env cacheKey resp w)).
Proof.
  unfold finish. destruct resp as [[resp closed]|]; [|apply keyed_run_refl].
  destruct (ReadAll resp closed); [|apply keyed_run_refl].
  destruct (checkWriteHeaderCode _); cbn [fst];
    (destruct (_ =? StatusOK); [|apply keyed_run_refl]); by apply keyed_run_silent.
Qed.

Lemma afterAcquire_keyed r req cacheKey targetModel key w k :
  rotator (srv w) !! key = Some k ->
  Provider (Rotation.Config k) = getProviderForModel targetModel ->
  keyed_run r w
    (fst (afterAcquire env r req cacheKey targetModel (getProviderForModel targetModel) key w)).
Proof.
  intros Hk Hp. unfold afterAcquire.
  destruct (json_Marshal _) as [modifiedBody|] eqn:Hm; [|apply keyed_run_refl].
  apply UpstreamFacts.json_Marshal_Some in Hm. subst modifiedBody.
  destruct (targetURL_of _ _) as [targetURL|]; [|apply keyed_run_refl].
  destruct (negb _); [apply keyed_run_refl|].
  pose proof (do_request_keyed r key targetURL (with_Model targetModel req) w k Hk Hp) as Hd.
  cbn [with_Model Model] in Hd.
  change (mkLLMRequest targetModel (Messages req) (Prompt req) (MaxTokens req) (Temperature req))
    with (with_Model targetModel req) in Hd.
  destruct (do_request env key _ w) as [[resp|last] w1]; cbn [fst snd] in *; [|done].
  assert (Hfin : forall res, keyed_run r w (fst (finish env cacheKey res w1))).
  { intros res. eapply keyed_run_trans; [exact Hd|apply finish_keyed]. }
  destruct (_ =? StatusTooManyRequests); [|apply Hfin].
  destruct (find _ _) as [rule|]; [|apply Hfin].
  pose proof (fallbackChain_keyed r (skipn 1 (TargetModels rule))
                (with_Model targetModel req) (Some (resp, false)) w1) as Hc.
  destruct (fallbackChain env r _ _ _ w1) as [[res|reply] w2]; cbn [fst snd] in *.
  - eapply keyed_run_trans; [exact Hd|]. eapply keyed_run_trans; [exact Hc|apply finish_keyed].
  - by eapply keyed_run_trans.
Qed.

Lemma handleProxy_keyed r w body :
  Body r = Some body ->
  HasPrefix (string_of_list_byte body) "#roxy" = false ->
  keyed_run r w (fst (handleProxy env r w)).
Proof.
  intros Hbody Hpre. unfold handleProxy. rewrite Hbody, Hpre.
  destruct (json_Unmarshal env body) as [req|]; [|apply keyed_run_refl].
  cbv zeta. unfold cache_Get.
  destruct (Cache.Get _ _ _) as [data|]; [by apply keyed_run_silent|].
  assert (Htick : keyed_run r w (tick w)) by (by apply keyed_run_silent).
  pose proof (getTargetModel_from_keyed r (Model req) (ModelRules (cfg (srv (tick w)))) (tick w))
    as Ht.
  fold (getTargetModel env (Model req) (tick w)) in Ht.
  destruct (getTargetModel env (Model req) (tick w)) as [[[targetModel provider]|] w2] eqn:Htm;
    cbn [fst snd] in *; [|exact (keyed_run_trans _ _ _ _ Htick Ht)].
  apply HandlerFacts.getTargetModel_provider in Htm. subst provider.
  pose proof (rotator_GetKey_keyed r (getProviderForModel targetModel) w2) as Hg.
  destruct (rotator_GetKey env _ w2) as [[key|] w3] eqn:Hget; cbn [fst snd] in *.
  2: { eapply keyed_run_trans; [exact Htick|]. exact (keyed_run_trans _ _ _ _ Ht Hg). }
  apply ResolutionFacts.rotator_GetKey_Some in Hget as (_ & k & Hk & Hp).
  pose proof (afterAcquire_keyed r req (generateCacheKey req) targetModel key w3 k Hk Hp) as Ha.
  destruct (afterAcquire env r req (generateCacheKey req) targetModel _ key w3) as [w4 out].
  cbn [fst snd] in *.
  eapply keyed_run_trans; [exact Htick|]. eapply keyed_run_trans; [exact Ht|].
  eapply keyed_run_trans; [exact Hg|]. eapply keyed_run_trans; [exact Ha|].
  apply rotator_ReportUsage_keyed.
Qed.

(** X21. Handling a request that is not a command leaves the keys of the
    pool, their order and their configuration as they were: only counters
    and stamps move. *)
Theorem handler_keeps_keys (r : Request) (w : World) (body : list byte) :
  Body r = Some body ->
  HasPrefix (string_of_list_byte body) "#roxy" = false ->
  map Rotation.Config (rotator (srv (fst (handleProxy env r w))))
    = map Rotation.Config (rotator (srv w)).
Proof.
  intros Hbody Hpre. by destruct (handleProxy_keyed r w body Hbody Hpre) as [Hk _].
Qed.

(** X22. Every upstream request sent while a request that is not a command
    is handled is sent with a key of the provider of the model it names: the
    key of the slot recorded with the request is configured for the provider
    [getProviderForModel] gives for the model of the payload, and the
    headers are those of the inbound request with the authentication of that
    provider set from the secret of that key. *)
Theorem requests_sent_with_matching_key (r : Request) (w : World) (body : list byte) :
  Body r = Some body ->
  HasPrefix (string_of_list_byte body) "#roxy" = false ->
  exists mid,
    log (fst (handleProxy env r w)) = log w ++ mid /\
    Forall (keyed (map Rotation.Config (rotator (srv w))) r) mid.
Proof.
  intros Hbody Hpre. by destruct (handleProxy_keyed r w body Hbody Hpre) as [_ Hmid].
Qed.

End WithEnv.

End KeyFacts.

(** ** The usage charged by one handling *)

Module ChargeFacts.

Import Proxy Frames.

#[local] Arguments rotator_GetKey : simpl never.
#[local] Arguments rotator_ReportUsage : simpl never.
#[local] Arguments cache_Get : simpl never.
#[local] Arguments cache_Set : simpl never.
#[local] Arguments do_request : simpl never.
#[local] Arguments generateCacheKey : simpl never.
#[local] Arguments http_Error : simpl never.

Section WithEnv.

Context (env : Env).

Lemma rotator_GetKey_reported provider w :
  reported (log (snd (rotator_GetKey env provider w))) = reported (log w).
Proof.
  rewrite HandlerFacts.rotator_GetKey_log, HandlerFacts.reported_app.
  destruct (fst (rotator_GetKey env provider w)); simpl; by rewrite app_nil_r.
Qed.

Lemma rotator_ReportUsage_reported key w :
  reported (log (rotator_ReportUsage env key w)) = reported (log w) ++ [key].
Proof. unfold rotator_ReportUsage. simpl. by rewrite HandlerFacts.reported_app. Qed.

Lemma do_request_reported key req w :
  reported (log (snd (do_request env key req w))) = reported (log w).
Proof.
  unfold do_request. simpl. by rewrite HandlerFacts.reported_app, app_nil_r.
Qed.

Lemma getTargetModel_reported source w :
  exists l, reported (log (snd (getTargetModel env source w))) = reported (log w) ++ l /\
            (length l <= 1)%nat.
Proof.
  pose proof (ResolutionFacts.getTargetModel_from_spec env source (ModelRules (cfg (srv w))) w)
    as H.
  fold (getTargetModel env source w) in H.
  destruct (getTargetModel env source w) as [[[m p]|] w1]; cbn [snd].
  - destruct H as (_ & _ & [->|(rule & key & _ & _ & _ & ->)]).
    + exists []. rewrite app_nil_r. split; [done|]. cbn [length]. lia.
    + exists [key]. by rewrite HandlerFacts.reported_app.
  - rewrite H. exists []. rewrite app_nil_r. split; [done|]. cbn [length]. lia.
Qed.

Lemma fallbackChain_reported r targets : forall req resp w,
  reported (log (snd (fallbackChain env r req targets resp w))) = reported (log w).
Proof.
  induction targets as [|nextModel rest IH]; intros req resp w; cbn [fallbackChain]; [done|].
  pose proof (rotator_GetKey_reported (getProviderForModel nextModel) w) as Hg.
  destruct (rotator_GetKey env _ w) as [[nextKey|] w1]; cbn [fst snd] in *.
  2: { by rewrite IH. }
  destruct (json_Marshal _) as [modifiedBody|]; cbn [fst snd]; [|done].
  destruct (negb _); [by rewrite IH|].
  set (proxyReq := mkProxyReq _ _ _ _).
  pose proof (do_request_reported nextKey proxyReq w1) as Hd.
  destruct (do_request env nextKey proxyReq w1) as [[resp'|last] w2]; cbn [fst snd] in *.
  - destruct (_ =? StatusOK); cbn [fst snd]; [congruence|]. rewrite IH. congruence.
  - rewrite IH. congruence.
Qed.

Lemma finish_reported cacheKey resp w :
  reported (log (fst (finish env cacheKey resp w))) = reported (log w).
Proof.
  unfold finish. destruct resp as [[resp closed]|]; [|done].
  destruct (ReadAll resp closed); [|done].
  by destruct (checkWriteHeaderCode _), (_ =? StatusOK).
Qed.

Lemma afterAcquire_reported r req cacheKey targetModel provider key w :
  reported (log (fst (afterAcquire env r req cacheKey targetModel provider key w)))
    = reported (log w).
Proof.
  unfold afterAcquire.
  destruct (json_Marshal _) as [modifiedBody|]; [|done].
  destruct (targetURL_of _ _) as [targetURL|]; [|done].
  destruct (negb _); [done|].
  set (proxyReq := mkProxyReq _ _ _ _).
  pose proof (do_request_reported key proxyReq w) as Hd.
  destruct (do_request env key proxyReq w) as [[resp|last] w1]; cbn [fst snd] in *; [|done].
  assert (Hfin : forall res, reported (log (fst (finish env cacheKey res w1)))
                             = reported (log w)).
  { intros res. by rewrite finish_reported. }
  destruct (_ =? StatusTooManyRequests); [|apply Hfin].
  destruct (find _ _) as [rule|]; [|apply Hfin].
  pose proof (fallbackChain_reported r (skipn 1 (TargetModels rule))
                (with_Model targetModel req) (Some (resp, false)) w1) as Hc.
  destruct (fallbackChain env r _ _ _ w1) as [[res|reply] w2]; cbn [fst snd] in *.
  - rewrite finish_reported. congruence.
  - congruence.
Qed.

(** X23. One handling of a request that is not a command charges at most
    two usage units in all, however many keys it acquires and however many
    upstream requests it sends: at most one while the model is resolved and
    one on return. *)
Theorem charges_per_request (r : Request) (w : World) (body : list byte) :
  Body r = Some body ->
  HasPrefix (string_of_list_byte body) "#roxy" = false ->
  exists charged,
    reported (log (fst (handleProxy env r w))) = reported (log w) ++ charged /\
    (length charged <= 2)%nat.
Proof.
  intros Hbody Hpre. unfold handleProxy. rewrite Hbody, Hpre.
  assert (Hnone : exists charged : list nat,
            reported (log w) = reported (log w) ++ charged /\ (length charged <= 2)%nat).
  { exists []. rewrite app_nil_r. split; [done|]. cbn [length]. lia. }
  destruct (json_Unmarshal env body) as [req|]; [|exact Hnone].
  cbv zeta. unfold cache_Get.
  destruct (Cache.Get _ _ _) as [data|]; [exact Hnone|].
  destruct (getTargetModel_reported (Model req) (tick w)) as (probe & Hprobe & Hlen).
  change (log (tick w)) with (log w) in Hprobe.
  destruct (getTargetModel env (Model req) (tick w)) as [[[targetModel provider]|] w2];
    cbn [fst snd] in *.
  2: { exists probe. split; [done|lia]. }
  pose proof (rotator_GetKey_reported provider w2) as Hg.
  destruct (rotator_GetKey env provider w2) as [[key|] w3]; cbn [fst snd] in *.
  2: { exists probe. split; [congruence|lia]. }
  pose proof (afterAcquire_reported r req (generateCacheKey req) targetModel provider key w3)
    as Ha.
  destruct (afterAcquire env r req (generateCacheKey req) targetModel provider key w3)
    as [w4 out]. cbn [fst snd] in *.
  exists (probe ++ [key]). rewrite rotator_ReportUsage_reported, Ha, Hg, Hprobe.
  split; [by rewrite app_assoc|]. rewrite length_app. cbn [length]. lia.
Qed.

End WithEnv.

End ChargeFacts.

(** ** Loading and validation of the configuration *)

Module ConfigFacts.

Import ConfigFile Loading.

Section WithSystem.

Context (unicode_ToLower : string -> string) (os_Getenv : string -> string).
Context (os_ReadFile : string -> string + list byte).
Context (yaml_Unmarshal : list byte -> string + Config).

Lemma isValidProvider_nonempty p :
  isValidProvider unicode_ToLower p = true -> p <> EmptyString.
Proof. intros H ->. by vm_compute in H. Qed.

Lemma isValidSelectionPolicy_nonempty p :
  isValidSelectionPolicy unicode_ToLower p = true -> p <> EmptyString.
Proof. intros H ->. by vm_compute in H. Qed.

Lemma validate_key_None i key :
  validate_key unicode_ToLower i key = None <-> key_ok unicode_ToLower key.
Proof.
  unfold validate_key, key_ok. split.
  - destruct (String.eqb_spec (Key key) EmptyString) as [Hk|Hk];
      destruct (String.eqb_spec (KeyEnvVar key) EmptyString) as [He|He];
      cbn [andb]; try done.
    all: destruct (String.eqb (Provider key) EmptyString); [done|].
    all: destruct (Z.leb_spec (MaxRPM key) 0); [done|].
    all: destruct (Z.leb_spec (MaxTPM key) 0); [done|].
    all: destruct (isValidProvider unicode_ToLower (Provider key)); [|done].
    all: intros _; split; [by auto|]; by repeat split.
  - intros (Hsec & Hrpm & Htpm & Hv).
    pose proof (isValidProvider_nonempty _ Hv) as Hp.
    destruct (String.eqb_spec (Key key) EmptyString) as [Hk|Hk];
      destruct (String.eqb_spec (KeyEnvVar key) EmptyString) as [He|He];
      cbn [andb]; [by destruct Hsec|..].
    all: destruct (String.eqb_spec (Provider key) EmptyString); [done|].
    all: destruct (Z.leb_spec (MaxRPM key) 0); [lia|].
    all: destruct (Z.leb_spec (MaxTPM key) 0); [lia|].
    all: by rewrite Hv.
Qed.

Lemma validate_keys_None keys : forall i,
  validate_keys unicode_ToLower i keys = None <-> Forall (key_ok unicode_ToLower) keys.
Proof.
  induction keys as [|key rest IH]; intros i; cbn [validate_keys]; [by split|].
  rewrite Forall_cons, <- (IH (S i)), <- (validate_key_None i).
  destruct (validate_key unicode_ToLower i key); [|by split; [|intros [_ ?]]].
  split; [done|]. by intros [? _].
Qed.

Lemma validate_rule_None i rule :
  validate_rule unicode_ToLower i rule = None <-> rule_ok unicode_ToLower rule.
Proof.
  unfold validate_rule, rule_ok. split.
  - destruct (String.eqb_spec (SourceModel rule) EmptyString) as [Hs|Hs]; [done|].
    destruct (TargetModels rule) as [|t ts]; [done|]. cbn [length Nat.eqb].
    destruct (String.eqb (SelectionPolicy rule) EmptyString); [done|].
    destruct (isValidSelectionPolicy unicode_ToLower (SelectionPolicy rule)); [|done].
    by intros _.
  - intros (Hs & Ht & Hv).
    pose proof (isValidSelectionPolicy_nonempty _ Hv) as Hp.
    destruct (String.eqb_spec (SourceModel rule) EmptyString); [done|].
    destruct (TargetModels rule) as [|t ts]; [done|]. cbn [length Nat.eqb].
    destruct (String.eqb_spec (SelectionPolicy rule) EmptyString); [done|].
    by rewrite Hv.
Qed.

Lemma validate_rules_None rules : forall i,
  validate_rules unicode_ToLower i rules = None <-> Forall (rule_ok unicode_ToLower) rules.
Proof.
  induction rules as [|rule rest IH]; intros i; cbn [validate_rules]; [by split|].
  rewrite Forall_cons, <- (IH (S i)), <- (validate_rule_None i).
  destruct (validate_rule unicode_ToLower i rule); [|by split; [|intros [_ ?]]].
  split; [done|]. by intros [? _].
Qed.

Lemma validate_sound c :
  validate unicode_ToLower c = None ->
  ListenAddr c <> EmptyString /\ APIKeys c <> [] /\
  Forall (key_ok unicode_ToLower) (APIKeys c) /\
  Forall (rule_ok unicode_ToLower) (ModelRules c).
Proof.
  unfold validate.
  rewrite <- (validate_keys_None (APIKeys c) 0), <- (validate_rules_None (ModelRules c) 0).
  destruct (String.eqb_spec (ListenAddr c) EmptyString) as [Hl|Hl]; [done|].
  destruct (APIKeys c) as [|key rest] eqn:Hkeys; [done|]. cbn [length Nat.eqb].
  by destruct (validate_keys unicode_ToLower 0 (key :: rest)) as [err|].
Qed.

(** X14. [validate] returns no error exactly when the listen address is
    not empty, there is at least one key, every key has a secret or names an
    environment variable, has positive [max_rpm] and [max_tpm] and a
    provider whose lower-case form is one of the four known names, and every
    rule has a source model, at least one target model and a policy whose
    lower-case form is one of the three known names. *)
Theorem validate_accepts (c : Config) :
  validate unicode_ToLower c = None <->
  ListenAddr c <> EmptyString /\ APIKeys c <> [] /\
  Forall (key_ok unicode_ToLower) (APIKeys c) /\
  Forall (rule_ok unicode_ToLower) (ModelRules c).
Proof.
  split; [apply validate_sound|].
  intros (Hl & Hne & Hkeys & Hrules). unfold validate.
  apply (validate_keys_None (APIKeys c) 0) in Hkeys.
  apply (validate_rules_None (ModelRules c) 0) in Hrules.
  destruct (String.eqb_spec (ListenAddr c) EmptyString) as [?|_]; [done|].
  destruct (APIKeys c) as [|key rest]; [done|]. cbn [length Nat.eqb].
  by rewrite Hkeys.
Qed.

Lemma resolve_plain key :
  KeyEnvVar key = EmptyString -> resolve os_Getenv key = key.
Proof. intros He. unfold resolve. by rewrite He. Qed.

Lemma resolve_env key :
  KeyEnvVar key <> EmptyString ->
  resolve os_Getenv key = with_Key (os_Getenv (KeyEnvVar key)) key.
Proof. intros He. unfold resolve. by rewrite (proj2 (String.eqb_neq _ _) He). Qed.

Lemma loadSecrets_from_spec keys : forall i,
  match loadSecrets_from os_Getenv i keys with
  | (keys', None) =>
      Forall (fun key => unset os_Getenv key = false) keys /\
      keys' = map (resolve os_Getenv) keys
  | (keys', Some err) =>
      exists j key,
        keys !! j = Some key /\ unset os_Getenv key = true /\
        Forall (fun key => unset os_Getenv key = false) (take j keys) /\
        err = not_set (i + j) key /\
        keys' = map (resolve os_Getenv) (take j keys) ++ drop j keys
  end.
Proof.
  induction keys as [|key rest IH]; intros i; cbn [loadSecrets_from]; [by split|].
  destruct (String.eqb_spec (KeyEnvVar key) EmptyString) as [He|He]; cbn [negb].
  - specialize (IH (S i)). destruct (loadSecrets_from os_Getenv (S i) rest) as [rest' [err|]].
    + destruct IH as (j & k & Hj & Hu & Hbefore & -> & ->).
      exists (S j), k. cbn [take drop map app]. split; [done|]. split; [done|].
      split; [constructor; [|done]; unfold unset; by rewrite (proj2 (String.eqb_eq _ _) He)|].
      split; [by replace (i + S j)%nat with (S i + j)%nat by lia|].
      by rewrite resolve_plain.
    + destruct IH as [Hall ->]. split; [|by cbn [map]; rewrite resolve_plain].
      constructor; [|done]. unfold unset. by rewrite (proj2 (String.eqb_eq _ _) He).
  - destruct (String.eqb_spec (os_Getenv (KeyEnvVar key)) EmptyString) as [Hv|Hv].
    + exists 0%nat, key. cbn [take drop map app]. split; [done|].
      split; [unfold unset; rewrite Hv; by rewrite (proj2 (String.eqb_neq _ _) He)|].
      split; [constructor|]. split; [|done].
      unfold not_set. by rewrite Nat.add_0_r.
    + specialize (IH (S i)). destruct (loadSecrets_from os_Getenv (S i) rest) as [rest' [err|]].
      * destruct IH as (j & k & Hj & Hu & Hbefore & -> & ->).
        exists (S j), k. cbn [take drop map app]. split; [done|]. split; [done|].
        split.
        { constructor; [|done]. unfold unset.
          rewrite (proj2 (String.eqb_neq _ _) He), (proj2 (String.eqb_neq _ _) Hv). done. }
        split; [by replace (i + S j)%nat with (S i + j)%nat by lia|].
        by rewrite resolve_env.
      * destruct IH as [Hall ->]. split; [|by cbn [map]; rewrite resolve_env].
        constructor; [|done]. unfold unset.
        by rewrite (proj2 (String.eqb_neq _ _) He), (proj2 (String.eqb_neq _ _) Hv).
Qed.

(** X15. [loadSecrets] replaces the secret of every key that names an
    environment variable by the value of that variable and leaves the other
    keys alone.  It fails at the first key whose variable has no value, with
    the name of the variable and the index of the key in the message; the
    keys before that one have been replaced by then, the ones from it on are
    untouched. *)
Theorem loadSecrets_outcome (c : Config) :
  match loadSecrets os_Getenv c with
  | (c', None) =>
      Forall (fun key => unset os_Getenv key = false) (APIKeys c) /\
      c' = with_APIKeys (map (resolve os_Getenv) (APIKeys c)) c
  | (c', Some err) =>
      exists i key,
        APIKeys c !! i = Some key /\ unset os_Getenv key = true /\
        Forall (fun key => unset os_Getenv key = false) (take i (APIKeys c)) /\
        err = not_set i key /\
        c' = with_APIKeys (map (resolve os_Getenv) (take i (APIKeys c)) ++ drop i (APIKeys c)) c
  end.
Proof.
  unfold loadSecrets. pose proof (loadSecrets_from_spec (APIKeys c) 0) as H.
  destruct (loadSecrets_from os_Getenv 0 (APIKeys c)) as [keys' [err|]].
  - destruct H as (j & key & H1 & H2 & H3 & H4 & H5). exists j, key. by subst.
  - destruct H as [H1 ->]. done.
Qed.

Lemma resolve_usable key :
  unset os_Getenv key = false ->
  key_ok unicode_ToLower (resolve os_Getenv key) ->
  usable unicode_ToLower (resolve os_Getenv key).
Proof.
  unfold unset, resolve, key_ok, usable.
  destruct (String.eqb_spec (KeyEnvVar key) EmptyString) as [He|He]; cbn [negb andb].
  - intros _ ([Hk|Hk] & H); [done|by rewrite He in Hk].
  - destruct (String.eqb_spec (os_Getenv (KeyEnvVar key)) EmptyString) as [Hv|Hv]; [done|].
    intros _ (_ & H). done.
Qed.

(** X16. A configuration that [Load] returns has a listen address and at
    least one key; every key has a secret that is not empty (its own or the
    one of its environment variable), positive [max_rpm] and [max_tpm] and a
    known provider; every rule has a source model, a target model and a known
    policy. *)
Theorem Load_ok (path : string) (c : Config) :
  Load unicode_ToLower os_Getenv os_ReadFile yaml_Unmarshal path = inr c ->
  ListenAddr c <> EmptyString /\ APIKeys c <> [] /\
  Forall (usable unicode_ToLower) (APIKeys c) /\
  Forall (rule_ok unicode_ToLower) (ModelRules c).
Proof.
  unfold Load. destruct (os_ReadFile path) as [err|data]; [done|].
  destruct (yaml_Unmarshal data) as [err|c0]; [done|].
  unfold loadSecrets. pose proof (loadSecrets_from_spec (APIKeys c0) 0) as Hs.
  destruct (loadSecrets_from os_Getenv 0 (APIKeys c0)) as [keys' [err|]]; [done|].
  destruct Hs as [Hset ->].
  destruct (validate unicode_ToLower _) as [err|] eqn:Hv; [done|]. intros [= <-].
  apply validate_sound in Hv as (Hl & Hne & Hkeys & Hrules).
  split; [done|]. split; [done|]. split; [|done].
  cbn [with_APIKeys APIKeys] in *. clear Hne.
  induction Hset as [|key rest Hk Hrest IH]; [constructor|].
  cbn [map] in *. apply Forall_cons in Hkeys as [Hok Hoks].
  constructor; [by apply resolve_usable|by apply IH].
Qed.

End WithSystem.

End ConfigFacts.

(** ** Panics *)

Module PanicFacts.

Import Proxy Frames.

#[local] Arguments rotator_GetKey : simpl never.
#[local] Arguments rotator_ReportUsage : simpl never.
#[local] Arguments cache_Get : simpl never.
#[local] Arguments cache_Set : simpl never.
#[local] Arguments do_request : simpl never.
#[local] Arguments generateCacheKey : simpl never.
#[local] Arguments http_Error : simpl never.

Lemma counters_ok_quiet w w' : quiet w w' -> counters_ok w -> counters_ok w'.
Proof. intros (_ & Hm & _) H. unfold counters_ok. by rewrite Hm. Qed.

Lemma max_int_pos : 0 < max_int.
Proof. done. Qed.

Section WithEnv.

Context (env : Env).

Lemma getNextModelIndex_ok model total w :
  0 < total <= max_int -> counters_ok w ->
  exists idx,
    fst (getNextModelIndex model total w) = Some idx /\ 0 <= idx < total /\
    counters_ok (snd (getNextModelIndex model total w)).
Proof.
  intros Htotal Hok. unfold getNextModelIndex.
  destruct (Z.eqb_spec total 0) as [?|_]; [lia|].
  assert (Hcur : 0 <= default 0 (modelCounters (srv w) !! model) < max_int).
  { destruct (modelCounters (srv w) !! model) as [c|] eqn:Hc; [|pose proof max_int_pos; simpl; lia].
    apply (map_Forall_lookup_1 _ _ _ _ Hok Hc). }
  set (current := default 0 (modelCounters (srv w) !! model)) in *.
  rewrite RotationFacts.wrap64_small by (unfold min_int; lia).
  pose proof (Z.rem_bound_pos (current + 1) total ltac:(lia) ltac:(lia)) as Hrem.
  eexists. split; [done|]. split; [done|]. cbn [snd]. unfold counters_ok. cbn.
  apply map_Forall_insert_2; [lia|done].
Qed.

Lemma index_in_range (targets : list string) idx :
  0 <= idx < Z.of_nat (length targets) -> index targets idx <> None.
Proof.
  intros H. unfold index. destruct (Z.ltb_spec idx 0); [lia|].
  destruct (lookup_lt_is_Some_2 targets (Z.to_nat idx) ltac:(lia)) as [x ->]. done.
Qed.

Lemma getTargetModel_from_alive source rules : forall w,
  Forall (fun rule => TargetModels rule <> []) rules ->
  Forall (fun rule => Z.of_nat (length (TargetModels rule)) <= max_int) rules ->
  rand_ok env -> counters_ok w ->
  fst (getTargetModel_from env source rules w) <> None /\
  counters_ok (snd (getTargetModel_from env source rules w)).
Proof.
  intros w Hne Hsz Hrand. revert w.
  induction rules as [|rule rest IH]; intros w Hok; cbn [getTargetModel_from]; [done|].
  apply Forall_cons in Hne as [Hne1 Hne]. apply Forall_cons in Hsz as [Hsz1 Hsz].
  specialize (IH Hne Hsz).
  assert (Hlen : 0 < Z.of_nat (length (TargetModels rule))).
  { destruct (TargetModels rule); [done|]. cbn [length]. lia. }
  destruct (String.eqb (SourceModel rule) source); [|by apply IH].
  destruct (String.eqb (SelectionPolicy rule) "random").
  { destruct (Z.leb_spec (Z.of_nat (length (TargetModels rule))) 0); [lia|].
    pose proof (index_in_range (TargetModels rule) _ (Hrand (draws w) _ Hlen)) as Hi.
    destruct (index _ _); [|done]. done. }
  destruct (String.eqb (SelectionPolicy rule) "roundrobin").
  { destruct (getNextModelIndex_ok source (Z.of_nat (length (TargetModels rule))) w
                ltac:(lia) Hok) as (idx & Hidx & Hrange & Hok').
    destruct (getNextModelIndex _ _ w) as [i w1]. cbn [fst snd] in *. subst i.
    pose proof (index_in_range (TargetModels rule) idx Hrange) as Hi.
    destruct (index _ _); [|done]. done. }
  destruct (String.eqb (SelectionPolicy rule) "fallback"); [|by apply IH].
  pose proof (UpstreamFacts.fallbackProbe_quiet env (TargetModels rule) w) as Hq.
  destruct (fallbackProbe env _ w) as [[mp|] w1]; cbn [fst snd] in *.
  - split; [done|]. by eapply counters_ok_quiet.
  - apply IH. by eapply counters_ok_quiet.
Qed.

Lemma targetURL_of_Some c provider url :
  targetURL_of c provider = Some url ->
  url = (OpenAI_BaseURL (Providers c) ++ "/chat/completions")%string \/
  url = (Anthropic_BaseURL (Providers c) ++ "/complete")%string.
Proof.
  unfold targetURL_of. destruct (String.eqb provider "openai"); [intros [= <-]; by left|].
  destruct (String.eqb provider "anthropic"); [intros [= <-]; by right|done].
Qed.

Lemma routable_URL c model :
  HasPrefix model "openrouter/" = false -> HasPrefix model "chutes/" = false ->
  exists url, targetURL_of c (getProviderForModel model) = Some url.
Proof.
  intros Ho Hc. unfold getProviderForModel.
  destruct (HasPrefix model "gpt-"); [by eexists|].
  destruct (HasPrefix model "claude-"); [by eexists|].
  rewrite Ho, Hc. by eexists.
Qed.

Lemma three_digits code : 100 <= code <= 999 -> checkWriteHeaderCode code = true.
Proof.
  intros H. unfold checkWriteHeaderCode. apply andb_true_intro. split; apply Z.leb_le; lia.
Qed.

Lemma fallbackChain_alive r targets : forall req resp w res,
  upstreams_answer env (cfg (srv w)) ->
  Forall (fun model => HasPrefix model "openrouter/" = false /\
                       HasPrefix model "chutes/" = false) targets ->
  (exists resp0 closed, resp = Some (resp0, closed) /\ 100 <= StatusCode resp0 <= 999) ->
  fst (fallbackChain env r req targets resp w) = LoopDone res ->
  exists resp' closed, res = Some (resp', closed) /\ 100 <= StatusCode resp' <= 999.
Proof.
  induction targets as [|nextModel rest IH]; intros req resp w res Hans Hroute Hresp;
    cbn [fallbackChain].
  { by intros [= <-]. }
  apply Forall_cons in Hroute as [[Ho Hc] Hrest].
  pose proof (UpstreamFacts.rotator_GetKey_quiet env (getProviderForModel nextModel) w)
    as (Hc1 & _).
  destruct (rotator_GetKey env _ w) as [[nextKey|] w1]; cbn [fst snd] in *.
  2: { apply IH; [by rewrite Hc1|done|done]. }
  destruct (json_Marshal _) as [modifiedBody|]; [|done].
  destruct (negb _); [apply IH; [by rewrite Hc1|done|done]|].
  destruct (routable_URL (cfg (srv w1)) nextModel Ho Hc) as [url Hurl].
  rewrite Hurl. cbn [default from_option id].
  apply targetURL_of_Some in Hurl. rewrite Hc1 in Hurl.
  set (proxyReq := mkProxyReq _ _ _ _).
  unfold do_request.
  destruct (Hans (sent (log w1)) proxyReq Hurl) as (resp' & -> & Hvalid).
  destruct (_ =? StatusOK); [intros [= <-]; by eauto|].
  apply IH; [by rewrite <- Hc1 in Hans|done|by eauto].
Qed.

Lemma finish_alive cacheKey resp w :
  (exists resp0 closed, resp = Some (resp0, closed) /\ 100 <= StatusCode resp0 <= 999) ->
  snd (finish env cacheKey resp w) <> Panicked.
Proof.
  intros (resp0 & closed & -> & Hvalid). unfold finish.
  destruct (ReadAll resp0 closed); [|done]. by rewrite three_digits.
Qed.

Lemma afterAcquire_alive r req cacheKey targetModel provider key w :
  upstreams_answer env (cfg (srv w)) -> retries_routable (cfg (srv w)) ->
  snd (afterAcquire env r req cacheKey targetModel provider key w) <> Panicked.
Proof.
  intros Hans Hroute. unfold afterAcquire.
  destruct (json_Marshal _) as [modifiedBody|]; [|done].
  destruct (targetURL_of _ _) as [targetURL|] eqn:Hurl; [|done].
  destruct (negb _); [done|].
  apply targetURL_of_Some in Hurl.
  set (proxyReq := mkProxyReq _ _ _ _).
  unfold do_request.
  destruct (Hans (sent (log w)) proxyReq Hurl) as (resp & -> & Hvalid).
  set (w1 := record (EvSent key proxyReq) w).
  destruct (_ =? StatusTooManyRequests); [|apply finish_alive; by eauto].
  destruct (find _ _) as [rule|] eqn:Hfind; [|apply finish_alive; by eauto].
  apply find_some in Hfind as [Hin Hrule].
  apply andb_prop in Hrule as [_ Hpol]. apply String.eqb_eq in Hpol.
  apply list_elem_of_In in Hin.
  pose proof (proj1 (Forall_forall _ _) Hroute rule Hin Hpol) as Htargets.
  pose proof (fallbackChain_alive r (skipn 1 (TargetModels rule))
                (with_Model targetModel req) (Some (resp, false)) w1) as Hc.
  destruct (fallbackChain env r _ _ _ w1) as [[res|reply] w2]; cbn [fst] in Hc; [|done].
  apply finish_alive. apply Hc; [done|done|by eauto|done].
Qed.

Lemma handleProxy_alive r w :
  Forall (fun rule => TargetModels rule <> []) (ModelRules (cfg (srv w))) ->
  sized (cfg (srv w)) -> rand_ok env ->
  upstreams_answer env (cfg (srv w)) -> retries_routable (cfg (srv w)) ->
  is_command r = false -> counters_ok w ->
  snd (handleProxy env r w) <> Panicked /\
  cfg (srv (fst (handleProxy env r w))) = cfg (srv w) /\
  counters_ok (fst (handleProxy env r w)).
Proof.
  intros Hne Hsz Hrand Hans Hroute Hcmd Hok. unfold handleProxy, is_command in *.
  destruct (Body r) as [body|]; [|done]. rewrite Hcmd.
  destruct (json_Unmarshal env body) as [req|]; [|done].
  cbv zeta. unfold cache_Get.
  destruct (Cache.Get _ _ _) as [data|]; [done|].
  pose proof (getTargetModel_from_alive (Model req) (ModelRules (cfg (srv (tick w)))) (tick w)
                Hne Hsz Hrand Hok) as [Halive Hok2].
  pose proof (UpstreamFacts.getTargetModel_from_cache env (Model req)
                (ModelRules (cfg (srv (tick w)))) (tick w)) as [_ Hcf2].
  fold (getTargetModel env (Model req) (tick w)) in Halive, Hok2, Hcf2.
  change (srv (tick w)) with (srv w) in Hcf2.
  destruct (getTargetModel env (Model req) (tick w)) as [[[targetModel provider]|] w2];
    cbn [fst snd] in *; [|done].
  pose proof (UpstreamFacts.rotator_GetKey_quiet env provider w2) as Hq.
  destruct (rotator_GetKey env provider w2) as [[key|] w3]; cbn [fst snd] in *.
  2: { split; [done|]. split; [destruct Hq as [-> _]; done|by eapply counters_ok_quiet]. }
  pose proof (UpstreamFacts.afterAcquire_cache env r req (generateCacheKey req) targetModel
                provider key w3) as Ha.
  destruct Hq as (Q1 & Q2 & _).
  assert (Hcfg3 : cfg (srv w3) = cfg (srv w)) by congruence.
  pose proof (afterAcquire_alive r req (generateCacheKey req) targetModel provider key w3)
    as Hlive.
  rewrite Hcfg3 in Hlive. specialize (Hlive Hans Hroute).
  destruct (afterAcquire env r req (generateCacheKey req) targetModel provider key w3)
    as [w4 out]. cbn [fst snd] in *.
  destruct Ha as (A1 & A2 & _).
  split; [done|]. split.
  - change (cfg (srv (rotator_ReportUsage env key w4))) with (cfg (srv w4)). congruence.
  - unfold counters_ok in *.
    change (modelCounters (srv (rotator_ReportUsage env key w4))) with (modelCounters (srv w4)).
    by rewrite A2, Q2.
Qed.

Lemma serve_alive rs : forall w,
  Forall (fun rule => TargetModels rule <> []) (ModelRules (cfg (srv w))) ->
  sized (cfg (srv w)) -> rand_ok env ->
  upstreams_answer env (cfg (srv w)) -> retries_routable (cfg (srv w)) ->
  Forall (fun r => is_command r = false) rs -> counters_ok w ->
  Forall (fun out => out <> Panicked) (fst (serve env rs w)).
Proof.
  induction rs as [|r rest IH]; intros w Hne Hsz Hrand Hans Hroute Hcmd Hok; cbn [serve];
    [constructor|].
  apply Forall_cons in Hcmd as [Hr Hrest].
  destruct (handleProxy_alive r w Hne Hsz Hrand Hans Hroute Hr Hok) as (Hout & Hcfg & Hok1).
  destruct (handleProxy env r w) as [w1 out]. cbn [fst snd] in *.
  specialize (IH w1). rewrite Hcfg in IH.
  specialize (IH Hne Hsz Hrand Hans Hroute Hrest Hok1).
  destruct (serve env rest w1) as [outs w2]. cbn [fst] in *. by constructor.
Qed.

(** X17. A server created from a configuration that [validate] accepts
    does not panic, whatever sequence of requests other than commands it
    handles one after the other, under three conditions: [rand.Intn(n)]
    returns a value in [0, n); every request to the URL configured for
    OpenAI or for Anthropic is answered, with a status of three digits; and
    no target after the first of a rule with the policy [fallback] is a
    model of OpenRouter or Chutes, for which the retry loop would send a
    request to the empty URL. *)
Theorem validated_server_never_panics (unicode_ToLower : string -> string) (c : Config)
    (rs : list Request) :
  ConfigFile.validate unicode_ToLower c = None ->
  sized c -> rand_ok env ->
  upstreams_answer env c -> retries_routable c ->
  Forall (fun r => is_command r = false) rs ->
  Forall (fun out => out <> Panicked) (fst (serve env rs (boot c))).
Proof.
  intros Hv Hsz Hrand Hans Hroute Hcmd.
  apply ConfigFacts.validate_sound in Hv as (_ & _ & _ & Hrules).
  apply serve_alive; try done.
  cbn. eapply Forall_impl; [exact Hrules|]. by intros rule (_ & ? & _).
Qed.

End WithEnv.

End PanicFacts.

(** ** Headers and the format of the cache key *)

Module HeaderFacts.

Import Proxy.

Lemma Header_Add_fold k vv : forall d k',
  fold_left (fun d' v => Header_Add k v d') vv d !! k' =
  if decide (k' = k) then
    match vv with
    | [] => d !! k
    | _ :: _ => Some (default [] (d !! k) ++ vv)
    end
  else d !! k'.
Proof.
  induction vv as [|v rest IH]; intros d k'; cbn [fold_left].
  { by destruct (decide (k' = k)) as [->|]. }
  rewrite IH. unfold Header_Add.
  destruct (decide (k' = k)) as [->|Hne].
  - rewrite lookup_insert_eq.
    destruct rest; [done|]. cbv [default from_option id]. by rewrite <- app_assoc.
  - by rewrite lookup_insert_ne.
Qed.

(** X18. [copyHeaders] appends, for every header name of the source that
    has a value, the values of the source in their order to the values the
    destination has for that name, and leaves every other name of the
    destination alone; the result does not depend on the order in which the
    source is traversed. *)
Theorem copyHeaders_lookup (dst src : gmap string (list string)) (k : string) :
  copyHeaders dst src !! k =
  match src !! k with
  | Some (v :: vv) => Some (default [] (dst !! k) ++ v :: vv)
  | _ => dst !! k
  end.
Proof.
  unfold copyHeaders. revert k.
  apply (map_fold_weak_ind
           (fun (r : gmap string (list string)) (m : gmap string (list string)) =>
              forall k, r !! k = match m !! k with
                                 | Some (v :: vv) => Some (default [] (dst !! k) ++ v :: vv)
                                 | _ => dst !! k
                                 end)).
  { intros k. by rewrite lookup_empty. }
  intros i x m r Hi IH k. rewrite Header_Add_fold.
  destruct (decide (k = i)) as [->|Hne].
  - rewrite lookup_insert_eq. specialize (IH i). rewrite Hi in IH.
    destruct x; [done|]. by rewrite IH.
  - rewrite lookup_insert_ne by done. apply IH.
Qed.

Lemma copyHeaders_empty (src : gmap string (list string)) (k : string) :
  copyHeaders ∅ src !! k =
  match src !! k with
  | Some (v :: vv) => Some (v :: vv)
  | _ => None
  end.
Proof.
  unfold copyHeaders. revert k.
  apply (map_fold_weak_ind
           (fun (r : gmap string (list string)) (m : gmap string (list string)) =>
              forall k, r !! k = match m !! k with
                                 | Some (v :: vv) => Some (v :: vv)
                                 | _ => None
                                 end)).
  { intros k. by rewrite lookup_empty. }
  intros i x m r Hi IH k. rewrite Header_Add_fold.
  destruct (decide (k = i)) as [->|Hne].
  - rewrite lookup_insert_eq. specialize (IH i). rewrite Hi in IH.
    destruct x; [done|]. by rewrite IH.
  - rewrite lookup_insert_ne by done. apply IH.
Qed.

(** X19. The headers of an upstream request.  For OpenAI [Authorization]
    is the bearer secret of the key alone, whatever the caller sent under
    that name; for Anthropic [X-Api-Key] is the secret alone.  Every other
    header of the caller that has a value is forwarded unchanged, for
    Anthropic also the caller's [Authorization]. *)
Theorem outbound_headers (provider sec : string) (h : gmap string (list string))
    (k : string) :
  setAuth provider sec (copyHeaders ∅ h) !! k =
  if String.eqb provider "openai" && String.eqb k "Authorization"
  then Some [("Bearer " ++ sec)%string]
  else if String.eqb provider "anthropic" && String.eqb k "X-Api-Key"
  then Some [sec]
  else match h !! k with
       | Some (v :: vv) => Some (v :: vv)
       | _ => None
       end.
Proof.
  unfold setAuth, Header_Set.
  destruct (String.eqb_spec provider "openai") as [->|Hp]; cbn [andb].
  { destruct (String.eqb_spec k "Authorization") as [->|Hk].
    - by rewrite lookup_insert_eq.
    - rewrite lookup_insert_ne by done. cbn. apply copyHeaders_empty. }
  destruct (String.eqb_spec provider "anthropic") as [->|Hq]; cbn [andb].
  { destruct (String.eqb_spec k "X-Api-Key") as [->|Hk].
    - by rewrite lookup_insert_eq.
    - rewrite lookup_insert_ne by done. apply copyHeaders_empty. }
  apply copyHeaders_empty.
Qed.

End HeaderFacts.

Module DigestFacts.

Import Sha256 Proxy.

Lemma round_length st kw : length st = 8%nat -> length (round st kw) = 8%nat.
Proof.
  intros H. do 9 (destruct st as [|? st]; try discriminate H). done.
Qed.

Lemma rounds_length kws : forall st,
  length st = 8%nat -> length (fold_left round kws st) = 8%nat.
Proof.
  induction kws as [|kw rest IH]; intros st H; cbn [fold_left]; [done|].
  apply IH. by apply round_length.
Qed.

Lemma compress_length h block : length h = 8%nat -> length (compress h block) = 8%nat.
Proof.
  intros H. unfold compress.
  rewrite length_map, length_combine, rounds_length by done. lia.
Qed.

Lemma blocks_length n : forall h bs, length h = 8%nat -> length (blocks n h bs) = 8%nat.
Proof.
  induction n as [|n IH]; intros h bs H; cbn [blocks]; [done|].
  apply IH. by apply compress_length.
Qed.

Lemma be_bytes_range n x : Forall (fun b => 0 <= b < 256) (be_bytes n x).
Proof.
  induction n as [|n IH]; cbn [be_bytes]; constructor; [|done].
  apply Z.mod_pos_bound. lia.
Qed.

Lemma be_bytes_length n x : length (be_bytes n x) = n.
Proof. induction n as [|n IH]; cbn [be_bytes length]; [done|]. by rewrite IH. Qed.

Lemma digest_bytes_length l : length (flat_map (be_bytes 4) l) = (4 * length l)%nat.
Proof.
  induction l as [|x l IH]; cbn [flat_map]; [done|].
  rewrite length_app, be_bytes_length, IH. cbn [length]. lia.
Qed.

Lemma digest_bytes_range l : Forall (fun b => 0 <= b < 256) (flat_map (be_bytes 4) l).
Proof.
  induction l as [|x l IH]; cbn [flat_map]; [constructor|].
  apply Forall_app. split; [apply be_bytes_range|done].
Qed.

Lemma Sum256_length msg : length (Sum256 msg) = 32%nat.
Proof.
  unfold Sum256. cbv zeta.
  by rewrite digest_bytes_length, blocks_length.
Qed.

Lemma hex_length bs : String.length (Fmt.hex bs) = (2 * length bs)%nat.
Proof.
  induction bs as [|b bs IH]; cbn [Fmt.hex String.length length]; [done|].
  rewrite IH. lia.
Qed.

Lemma hex_digit_in d :
  0 <= d < 16 -> In (Fmt.hex_digit d) (list_ascii_of_string "0123456789abcdef").
Proof.
  intros H. unfold Fmt.hex_digit. apply nth_In. cbn. lia.
Qed.

Lemma hex_chars bs :
  Forall (fun b => 0 <= b < 256) bs ->
  Forall (fun c => In c (list_ascii_of_string "0123456789abcdef"))
         (list_ascii_of_string (Fmt.hex bs)).
Proof.
  induction 1 as [|b bs Hb Hbs IH]; cbn [Fmt.hex list_ascii_of_string]; [constructor|].
  constructor; [apply hex_digit_in|constructor; [apply hex_digit_in|done]].
  - split; [apply Z.div_pos; lia|apply Z.div_lt_upper_bound; lia].
  - apply Z.mod_pos_bound. lia.
Qed.

(** X20. The cache key of every request is a string of 64 characters, each
    a digit or a lower-case letter from a to f. *)
Theorem generateCacheKey_format (req : LLMRequest) :
  String.length (generateCacheKey req) = 64%nat /\
  Forall (fun c => In c (list_ascii_of_string "0123456789abcdef"))
         (list_ascii_of_string (generateCacheKey req)).
Proof.
  unfold generateCacheKey. split.
  - by rewrite hex_length, Sum256_length.
  - apply hex_chars. unfold Sum256. cbv zeta. apply digest_bytes_range.
Qed.

End DigestFacts.

(** ** The further properties on concrete pools, configurations and runs *)

Module Instances.

Import Proxy Fixtures Samples Runs Frames.

(** Discharges the premises of [H], all closed, by evaluation. *)
Ltac evaluated H :=
  repeat (lapply H;
          [clear H; intro H
          | first [ vm_compute; reflexivity | vm_compute; discriminate | vm_compute; lia ]]).

Lemma GetKey_failure_leaves_pool_witness :
  fst (Rotation.GetKey (t0 + time_Second) "openai" spent) = spent.
Proof.
  exact (PoolFacts.GetKey_failure_leaves_pool (t0 + time_Second) "openai" spent
           (fst (Rotation.GetKey (t0 + time_Second) "openai" spent))
           ltac:(repeat constructor) ltac:(vm_compute; reflexivity)).
Defined.

Lemma first_acquisition_witness :
  snd (Rotation.GetKey t0 "anthropic" (Rotation.NewKeyRotator (APIKeys test_cfg)))
    = Some 1%nat.
Proof.
  exact (proj1 (PoolFacts.first_acquisition t0 "anthropic" (APIKeys test_cfg)
                  ltac:(repeat constructor))).
Defined.

Lemma burst_exhausts_then_recovers_witness :
  let pool := Rotation.pool_run (Rotation.NewKeyRotator [two_per_minute])
                (burst "openai" two_uses) in
  Rotation.usageCount <$> pool = [2] /\
  snd (Rotation.GetKey (t0 + 61 * time_Second) "openai" pool) = None /\
  snd (Rotation.GetKey (t0 + 100 * time_Second) "openai" pool) = Some 0%nat.
Proof.
  pose proof (PoolFacts.burst_exhausts_then_recovers two_per_minute t0
                [t0 + 40 * time_Second]) as H.
  evaluated H. cbv zeta in H. destruct H as (_ & Hpool & Hfail & Hok).
  split; [exact (f_equal (fmap Rotation.usageCount) Hpool)|]. split.
  - exact (f_equal snd (Hfail (t0 + 61 * time_Second) ltac:(vm_compute; reflexivity))).
  - exact (f_equal snd (Hok (t0 + 100 * time_Second) ltac:(vm_compute; discriminate))).
Defined.

Lemma stored_entry_survives_witness :
  Cache.Get (t0 + 2 * time_Second)
    (stores (Cache.Set_ t0 five_minutes "gpt-4" (text "Mock response for: gpt-4")) other_write)
    "gpt-4"
  = Some (text "Mock response for: gpt-4").
Proof.
  exact (CacheWriteFacts.stored_entry_survives other_write five_minutes t0
           (t0 + 2 * time_Second) "gpt-4" (text "Mock response for: gpt-4")
           ltac:(constructor; [discriminate|constructor])).
Defined.

Lemma resolved_candidate_is_configured_witness :
  exists rule, rule ∈ ModelRules roundrobin_cfg /\ SourceModel rule = "gpt-3.5-turbo" /\
               "claude-instant" ∈ TargetModels rule.
Proof.
  pose proof (ResolutionFacts.resolved_candidate_is_configured env_ok "gpt-3.5-turbo"
                (boot roundrobin_cfg)
                (snd (getTargetModel env_ok "gpt-3.5-turbo" (boot roundrobin_cfg)))
                "claude-instant" "anthropic") as H.
  evaluated H. destruct H as [_ [Heq|Hrule]]; [discriminate Heq|exact Hrule].
Defined.

Lemma unmatched_rules_are_skipped_witness :
  getTargetModel env_ok "gpt-4" (boot mixed_case_cfg)
    = (Some ("gpt-4", "openai"), boot mixed_case_cfg).
Proof.
  apply (ResolutionFacts.unmatched_rules_are_skipped env_ok "gpt-4" (boot mixed_case_cfg)).
  constructor; [|constructor]. right. repeat split; discriminate.
Defined.

Lemma errors_never_cached_witness :
  let run := handleProxy env_busy (post (chat_body "fast" "Hello")) (boot alias_cfg) in
  cfg (srv (fst run)) = alias_cfg /\
  (cache (srv (fst run)) = cache (srv (boot alias_cfg)) \/
   exists req reply t,
     json_Unmarshal env_busy (chat_body "fast" "Hello") = Some req /\
     snd run = Replied reply /\ Code reply = StatusOK /\
     cache (srv (fst run))
       = Cache.Set_ t (cache (srv (boot alias_cfg))) (generateCacheKey req) (reply_Body reply)).
Proof.
  apply (UpstreamFacts.errors_never_cached env_busy (post (chat_body "fast" "Hello"))
           (boot alias_cfg) (chat_body "fast" "Hello")); vm_compute; reflexivity.
Defined.

Lemma upstream_requests_bounded_witness :
  exists new,
    sent (log (fst (handleProxy env_busy (post (chat_body "gpt-4" "Hello")) (boot test_cfg))))
      = new /\
    (length new <= 2)%nat.
Proof.
  apply (UpstreamFacts.upstream_requests_bounded env_busy (post (chat_body "gpt-4" "Hello"))
           (boot test_cfg) (chat_body "gpt-4" "Hello")); vm_compute; reflexivity.
Defined.

Lemma failed_retry_content_not_forwarded_witness :
  let run := handleProxy env_bare (post (chat_body "gpt-4" "Hello")) (boot test_cfg) in
  snd run = Replied (mkReply StatusTooManyRequests ∅ []) /\
  sent_models (log (fst run)) = ["gpt-4"; "claude-2"] /\
  (Code (mkReply StatusTooManyRequests ∅ []) = StatusOK \/
   Code (mkReply StatusTooManyRequests ∅ []) = StatusInternalServerError \/
   (reply_Body (mkReply StatusTooManyRequests ∅ []) = [] /\
    Code (mkReply StatusTooManyRequests ∅ []) <> StatusOK)).
Proof.
  split; [vm_compute; reflexivity|]. split; [vm_compute; reflexivity|].
  pose proof (UpstreamFacts.failed_retry_content_not_forwarded env_bare
                (post (chat_body "gpt-4" "Hello")) (boot test_cfg) (chat_body "gpt-4" "Hello")
                (mkReply StatusTooManyRequests ∅ [])) as H.
  evaluated H. exact H.
Defined.

Lemma upstream_requests_wire_witness :
  exists new,
    sent (log (fst (handleProxy env_busy (post (chat_body "gpt-4" "Hello")) (boot test_cfg))))
      = sent (log (boot test_cfg)) ++ new /\
    Forall (wire_ok test_cfg (post (chat_body "gpt-4" "Hello")) (chat_request "gpt-4" "Hello"))
           new.
Proof.
  apply (UpstreamFacts.upstream_requests_wire env_busy (post (chat_body "gpt-4" "Hello"))
           (boot test_cfg) (chat_body "gpt-4" "Hello") (chat_request "gpt-4" "Hello"));
    vm_compute; reflexivity.
Defined.

Lemma Load_ok_witness :
  ConfigFile.Load ascii_only getenv read_file parse_yaml config_path = inr loaded_cfg /\
  Forall (Loading.usable ascii_only) (APIKeys loaded_cfg).
Proof.
  assert (Hload : ConfigFile.Load ascii_only getenv read_file parse_yaml config_path
                  = inr loaded_cfg) by (vm_compute; reflexivity).
  split; [exact Hload|].
  exact (proj1 (proj2 (proj2 (ConfigFacts.Load_ok ascii_only getenv read_file parse_yaml
                                config_path loaded_cfg Hload)))).
Defined.

Lemma validated_server_never_panics_witness :
  Forall (fun out => out <> Panicked) (fst (serve env_busy retried_requests (boot test_cfg))) /\
  sent_models (log (snd (serve env_busy retried_requests (boot test_cfg))))
    = ["gpt-4"; "claude-2"; "gpt-3.5-turbo"].
Proof.
  split; [|vm_compute; reflexivity].
  apply (PanicFacts.validated_server_never_panics env_busy ascii_only test_cfg
           retried_requests).
  - vm_compute; reflexivity.
  - repeat constructor. vm_compute; discriminate.
  - intros k n Hn. cbn. lia.
  - intros h q _. cbn. unfold busy_openai.
    destruct (HasPrefix (pr_URL q) openai_url); eexists; (split; [reflexivity|]); cbn; lia.
  - constructor; [|constructor]. intros _. cbn.
    constructor; [split; reflexivity|constructor].
  - repeat constructor.
Defined.

Lemma handler_keeps_keys_witness :
  map Rotation.Config
    (rotator (srv (fst (handleProxy env_busy (post (chat_body "gpt-4" "Hello")) (boot test_cfg)))))
  = map Rotation.Config (rotator (srv (boot test_cfg))).
Proof.
  apply (KeyFacts.handler_keeps_keys env_busy (post (chat_body "gpt-4" "Hello"))
           (boot test_cfg) (chat_body "gpt-4" "Hello")); vm_compute; reflexivity.
Defined.

Lemma requests_sent_with_matching_key_witness :
  exists mid,
    log (fst (handleProxy env_busy (post (chat_body "gpt-4" "Hello")) (boot test_cfg)))
      = log (boot test_cfg) ++ mid /\
    Forall (keyed (map Rotation.Config (rotator (srv (boot test_cfg))))
              (post (chat_body "gpt-4" "Hello"))) mid.
Proof.
  apply (KeyFacts.requests_sent_with_matching_key env_busy (post (chat_body "gpt-4" "Hello"))
           (boot test_cfg) (chat_body "gpt-4" "Hello")); vm_compute; reflexivity.
Defined.

Lemma charges_per_request_witness :
  exists charged,
    reported (log (fst (handleProxy env_busy (post (chat_body "gpt-4" "Hello")) (boot test_cfg))))
      = reported (log (boot test_cfg)) ++ charged /\
    (length charged <= 2)%nat.
Proof.
  apply (ChargeFacts.charges_per_request env_busy (post (chat_body "gpt-4" "Hello"))
           (boot test_cfg) (chat_body "gpt-4" "Hello")); vm_compute; reflexivity.
Defined.

End Instances.
